(** * Phoenix pilot-job scraper: a shallow embedding of [scraper.py]

    The program pulls four job boards, keeps the postings that mention one
    of a fixed list of keywords, stores them under today's ISO date in a
    JSON history file pruned to a retention window, and renders an HTML
    page.  This file embeds the program as Rocq functions and proves (or
    refutes) the properties its specification states.

    Conventions of the embedding
    - a Python [str] is the list of its Unicode code points ([list Z]);
    - a Python [dict] is an association list in insertion order, with
      assignment replacing in place or appending at the end; its keys are
      distinct ([NoDup]);
    - a [datetime.date] is its (year, month, day) triple, compared
      lexicographically, with day arithmetic going through the proleptic
      Gregorian ordinal exactly as CPython does;
    - an exception is a value of [exn]; effectful code threads a [World]
      (history file, output document, terminal, clock) and returns the
      result or the exception together with the world it left;
    - what the program receives from outside (HTTP responses already
      parsed into element handles, the clock, Unicode lower-casing) is an
      input of the model.

    Part I is the program, Part II the vocabulary in which the
    properties are stated and the inputs of the worked examples, Part III
    the properties and their proofs. *)

From Stdlib Require Import ZArith List Lia Bool String Ascii.
From Stdlib Require Import Permutation Sorted.
Import ListNotations.

Local Open Scope Z_scope.

(* ================================================================== *)
(** * Part I: the program *)
(* ================================================================== *)

(** ** Python strings *)

(** A [str] is a sequence of code points. *)
Definition str := list Z.

(** An ASCII literal as a [str]. *)
Definition py (s : string) : str :=
  map (fun a => Z.of_N (N_of_ascii a)) (list_ascii_of_string s).
Arguments py s%_string.

Module Str.

Definition eqb (s t : str) : bool :=
  if list_eq_dec Z.eq_dec s t then true else false.

(** [s.startswith(p)] *)
Fixpoint startswith (p s : str) : bool :=
  match p, s with
  | [], _ => true
  | _ :: _, [] => false
  | a :: p', b :: s' => (a =? b) && startswith p' s'
  end.

(** [k in s] for two strings: [k] occurs as a contiguous run of [s]. *)
Fixpoint contains (k s : str) : bool :=
  startswith k s ||
  match s with
  | [] => false
  | _ :: s' => contains k s'
  end.

(** Python's [<] on strings: lexicographic on code points. *)
Fixpoint ltb (s t : str) : bool :=
  match s, t with
  | _, [] => false
  | [], _ :: _ => true
  | a :: s', b :: t' => (a <? b) || ((a =? b) && ltb s' t')
  end.

(** Unicode scalar values: code points that are not surrogates.  Text
    is made of these; a Python [str] may also hold surrogate code points,
    which no UTF-8 text decodes to. *)
Definition is_surrogate (c : Z) : bool := (55296 <=? c) && (c <=? 57343).
Definition scalar (c : Z) : bool :=
  (0 <=? c) && (c <? 1114112) && negb (is_surrogate c).
Definition wf (s : str) : bool := forallb scalar s.

(** Decimal rendering of a non-negative number, as [str(n)] gives it. *)
Definition digit (d : Z) : Z := 48 + d.

Fixpoint dec_aux (fuel : nat) (n : Z) (acc : str) : str :=
  match fuel with
  | O => acc
  | S f =>
      let acc' := digit (n mod 10) :: acc in
      if n / 10 =? 0 then acc' else dec_aux f (n / 10) acc'
  end.

Definition of_Z (n : Z) : str := dec_aux (S (Z.to_nat n)) n [].

(** ASCII-only lower-casing, the instance used in the worked examples. *)
Definition ascii_lower_char (c : Z) : Z :=
  if (65 <=? c) && (c <=? 90) then c + 32 else c.
Definition ascii_lower (s : str) : str := map ascii_lower_char s.

End Str.

(** ** Calendar dates, after CPython's [datetime.date] *)

Module Calendar.

Record date := mkdate { year : Z; month : Z; day : Z }.

Definition MINYEAR : Z := 1.
Definition MAXYEAR : Z := 9999.
Definition MAXORDINAL : Z := 3652059.

Definition is_leap (y : Z) : bool :=
  (y mod 4 =? 0) && (negb (y mod 100 =? 0) || (y mod 400 =? 0)).

(** Number of days before January 1st of year [y]. *)
Definition days_before_year (y : Z) : Z :=
  let y' := y - 1 in y' * 365 + y' / 4 - y' / 100 + y' / 400.

Definition DAYS_IN_MONTH (m : Z) : Z :=
  match m with
  | 1 => 31 | 2 => 28 | 3 => 31 | 4 => 30 | 5 => 31 | 6 => 30
  | 7 => 31 | 8 => 31 | 9 => 30 | 10 => 31 | 11 => 30 | 12 => 31
  | _ => -1
  end.

Definition DAYS_BEFORE_MONTH (m : Z) : Z :=
  match m with
  | 1 => 0 | 2 => 31 | 3 => 59 | 4 => 90 | 5 => 120 | 6 => 151
  | 7 => 181 | 8 => 212 | 9 => 243 | 10 => 273 | 11 => 304 | 12 => 334
  | _ => -1
  end.

Definition days_in_month (y m : Z) : Z :=
  if (m =? 2) && is_leap y then 29 else DAYS_IN_MONTH m.

Definition days_before_month (y m : Z) : Z :=
  DAYS_BEFORE_MONTH m + (if (2 <? m) && is_leap y then 1 else 0).

(** [date.toordinal()]: January 1st of year 1 is day 1. *)
Definition ymd2ord (y m d : Z) : Z :=
  days_before_year y + days_before_month y m + d.

Definition toordinal (d : date) : Z := ymd2ord (year d) (month d) (day d).

Definition DI400Y : Z := 146097.
Definition DI100Y : Z := 36524.
Definition DI4Y : Z := 1461.

(** [date.fromordinal(n)] *)
Definition ord2ymd (n : Z) : date :=
  let n := n - 1 in
  let n400 := n / DI400Y in let n := n mod DI400Y in
  let y := n400 * 400 + 1 in
  let n100 := n / DI100Y in let n := n mod DI100Y in
  let n4 := n / DI4Y in let n := n mod DI4Y in
  let n1 := n / 365 in let n := n mod 365 in
  let y := y + n100 * 100 + n4 * 4 + n1 in
  if (n1 =? 4) || (n100 =? 4) then mkdate (y - 1) 12 31
  else
    let leapyear := (n1 =? 3) && (negb (n4 =? 24) || (n100 =? 3)) in
    let m := Z.shiftr (n + 50) 5 in
    let preceding :=
      DAYS_BEFORE_MONTH m + (if (2 <? m) && leapyear then 1 else 0) in
    if n <? preceding then
      let m' := m - 1 in
      let preceding' :=
        preceding
        - (DAYS_IN_MONTH m' + (if (m' =? 2) && leapyear then 1 else 0)) in
      mkdate y m' (n - preceding' + 1)
    else mkdate y m (n - preceding + 1).

Definition fromordinal (n : Z) : date := ord2ymd n.

(** The check the [date] constructor performs. *)
Definition valid (d : date) : bool :=
  (MINYEAR <=? year d) && (year d <=? MAXYEAR)
  && (1 <=? month d) && (month d <=? 12)
  && (1 <=? day d) && (day d <=? days_in_month (year d) (month d)).

(** [a < b]: dates compare as (year, month, day) tuples. *)
Definition before (a b : date) : bool :=
  (year a <? year b)
  || ((year a =? year b)
      && ((month a <? month b)
          || ((month a =? month b) && (day a <? day b)))).

(** [a >= b] *)
Definition geb (a b : date) : bool := negb (before a b).

(** [d - timedelta(days=n)]: [None] stands for [OverflowError]. *)
Definition sub_days (d : date) (n : Z) : option date :=
  let o := toordinal d - n in
  if (0 <? o) && (o <=? MAXORDINAL) then Some (fromordinal o) else None.

(** Zero-padded decimal fields of fixed width. *)
Definition pad2 (n : Z) : str :=
  [Str.digit (n / 10 mod 10); Str.digit (n mod 10)].
Definition pad4 (n : Z) : str :=
  [Str.digit (n / 1000 mod 10); Str.digit (n / 100 mod 10);
   Str.digit (n / 10 mod 10); Str.digit (n mod 10)].

Definition dash : Z := 45.

(** [d.isoformat()]: [YYYY-MM-DD]. *)
Definition isoformat (d : date) : str :=
  pad4 (year d) ++ [dash] ++ pad2 (month d) ++ [dash] ++ pad2 (day d).

Definition digit_val (c : Z) : option Z :=
  if (48 <=? c) && (c <=? 57) then Some (c - 48) else None.

Fixpoint parse_digits (cs : str) (acc : Z) : option Z :=
  match cs with
  | [] => Some acc
  | c :: cs' =>
      match digit_val c with
      | Some v => parse_digits cs' (acc * 10 + v)
      | None => None
      end
  end.

(** [date.fromisoformat(s)] on the extended calendar format
    [YYYY-MM-DD]; [None] stands for [ValueError].  (Interpreters from
    3.11 on also read the basic and week formats; day-keys are never
    written in those.) *)
Definition fromisoformat (s : str) : option date :=
  match s with
  | [y1; y2; y3; y4; s1; m1; m2; s2; d1; d2] =>
      if (s1 =? dash) && (s2 =? dash) then
        match parse_digits [y1; y2; y3; y4] 0,
              parse_digits [m1; m2] 0,
              parse_digits [d1; d2] 0 with
        | Some y, Some m, Some d =>
            let r := mkdate y m d in
            if valid r then Some r else None
        | _, _, _ => None
        end
      else None
  | _ => None
  end.

Definition MONTH_NAME (m : Z) : str :=
  match m with
  | 1 => py "January" | 2 => py "February" | 3 => py "March"
  | 4 => py "April" | 5 => py "May" | 6 => py "June"
  | 7 => py "July" | 8 => py "August" | 9 => py "September"
  | 10 => py "October" | 11 => py "November" | 12 => py "December"
  | _ => []
  end.

(** [d.strftime("%B %d, %Y")] in the C locale.  The C library writes
    the year as a plain decimal number, without padding. *)
Definition strftime_long (d : date) : str :=
  MONTH_NAME (month d) ++ py " " ++ pad2 (day d) ++ py ", "
  ++ Str.of_Z (year d).

End Calendar.

(** ** Exceptions and results *)

Inductive exn :=
| RequestException   (* [requests.get] could not reach the source *)
| AttributeError     (* a method called on [None] *)
| TypeError          (* [None] subscripted *)
| KeyError           (* a missing attribute subscripted *)
| ValueError         (* [date.fromisoformat] on a malformed day-key *)
| OverflowError      (* date arithmetic left the supported range *)
| JSONDecodeError    (* the history file is not a history document *)
| UnicodeEncodeError. (* a surrogate code point written to a UTF-8 file *)

Inductive result (A : Type) :=
| Ok (a : A)
| Raise (e : exn).
Arguments Ok {A} a.
Arguments Raise {A} e.

Definition rbind {A B} (r : result A) (k : A -> result B) : result B :=
  match r with
  | Ok a => k a
  | Raise e => Raise e
  end.

Notation "x <- r ;; k" := (rbind r (fun x => k))
  (at level 61, r at next level, right associativity).

Definition of_option {A} (e : exn) (o : option A) : result A :=
  match o with
  | Some a => Ok a
  | None => Raise e
  end.

(** ** Python dictionaries with string keys *)

Module Dict.

Section Ops.
Context {V : Type}.

Definition dict := list (str * V).

Definition keys (d : dict) : list str := map fst d.

(** [d.get(k)] *)
Fixpoint get (d : dict) (k : str) : option V :=
  match d with
  | [] => None
  | (k', v) :: d' => if Str.eqb k' k then Some v else get d' k
  end.

(** [d[k] = v]: an existing key keeps its position, a new one goes last. *)
Fixpoint set (d : dict) (k : str) (v : V) : dict :=
  match d with
  | [] => [(k, v)]
  | (k', v') :: d' =>
      if Str.eqb k' k then (k, v) :: d' else (k', v') :: set d' k v
  end.

(** [sorted(d.items(), reverse=True)].  The keys of a dict are distinct,
    so the tuple comparison is decided by the keys alone; an item is
    placed after the items with a strictly greater key. *)
Fixpoint insert_desc (x : str * V) (l : list (str * V)) : list (str * V) :=
  match l with
  | [] => [x]
  | y :: l' =>
      if Str.ltb (fst x) (fst y) then y :: insert_desc x l' else x :: y :: l'
  end.

Definition sorted_desc (d : dict) : list (str * V) :=
  fold_right insert_desc [] d.

End Ops.
Arguments dict V : clear implicits.

End Dict.

(** ** The data model *)

(** A job posting, the dict [{"title", "company", "link", "source"}]. *)
Record Listing := mkListing {
  title : str;
  company : str;
  link : str;
  source : str
}.

(** The history: day-key to the postings kept for that day. *)
Definition History := Dict.dict (list Listing).

(** ** The JSON history document *)

Module Json.

Definition quote : Z := 34.
Definition backslash : Z := 92.

Definition hex_digit (d : Z) : Z := if d <? 10 then 48 + d else 87 + d.

(** ['\\u{0:04x}'.format(n)] *)
Definition uescape (n : Z) : str :=
  [backslash; 117;
   hex_digit (n / 4096 mod 16); hex_digit (n / 256 mod 16);
   hex_digit (n / 16 mod 16); hex_digit (n mod 16)].

(** One character of [py_encode_basestring_ascii]. *)
Definition escape_char (c : Z) : str :=
  if c =? quote then [backslash; quote]
  else if c =? backslash then [backslash; backslash]
  else if c =? 10 then [backslash; 110]
  else if c =? 13 then [backslash; 114]
  else if c =? 9 then [backslash; 116]
  else if c =? 12 then [backslash; 102]
  else if c =? 8 then [backslash; 98]
  else if (32 <=? c) && (c <=? 126) then [c]
  else if c <? 65536 then uescape c
  else
    let v := c - 65536 in
    let s1 := Z.lor 55296 (Z.land (Z.shiftr v 10) 1023) in
    let s2 := Z.lor 56320 (Z.land v 1023) in
    uescape s1 ++ uescape s2.

Definition encode_str (s : str) : str :=
  [quote] ++ flat_map escape_char s ++ [quote].

Definition newline_indent (level : nat) : str :=
  10 :: repeat 32 (2 * level)%nat.

(** [sep.join(parts)] *)
Fixpoint join (sep : str) (parts : list str) : str :=
  match parts with
  | [] => []
  | [p] => p
  | p :: ps => p ++ sep ++ join sep ps
  end.

Definition item_sep (level : nat) : str := 44 :: newline_indent level.

Definition dump_field (name value : str) : str :=
  encode_str name ++ py ": " ++ encode_str value.

(** A posting printed at nesting depth 2. *)
Definition dump_listing (j : Listing) : str :=
  py "{" ++ newline_indent 3
  ++ join (item_sep 3)
       [dump_field (py "title") (title j);
        dump_field (py "company") (company j);
        dump_field (py "link") (link j);
        dump_field (py "source") (source j)]
  ++ newline_indent 2 ++ py "}".

Definition dump_jobs (jobs : list Listing) : str :=
  match jobs with
  | [] => py "[]"
  | _ =>
      py "[" ++ newline_indent 2
      ++ join (item_sep 2) (map dump_listing jobs)
      ++ newline_indent 1 ++ py "]"
  end.

Definition dump_entry (e : str * list Listing) : str :=
  encode_str (fst e) ++ py ": " ++ dump_jobs (snd e).

(** [json.dump(history, f, indent=2)] *)
Definition dump (h : History) : str :=
  match h with
  | [] => py "{}"
  | _ =>
      py "{" ++ newline_indent 1
      ++ join (item_sep 1) (map dump_entry h)
      ++ newline_indent 0 ++ py "}"
  end.

(** *** Reading *)

Definition hex_val (c : Z) : option Z :=
  if (48 <=? c) && (c <=? 57) then Some (c - 48)
  else if (97 <=? c) && (c <=? 102) then Some (c - 87)
  else if (65 <=? c) && (c <=? 70) then Some (c - 55)
  else None.

Definition hex4 (a b c d : Z) : option Z :=
  match hex_val a, hex_val b, hex_val c, hex_val d with
  | Some x, Some y, Some z, Some w => Some (((x * 16 + y) * 16 + z) * 16 + w)
  | _, _, _, _ => None
  end.

Definition simple_escape (c : Z) : option Z :=
  if c =? quote then Some quote
  else if c =? backslash then Some backslash
  else if c =? 47 then Some 47
  else if c =? 98 then Some 8
  else if c =? 102 then Some 12
  else if c =? 110 then Some 10
  else if c =? 114 then Some 13
  else if c =? 116 then Some 9
  else None.

Definition is_high (u : Z) : bool := (55296 <=? u) && (u <=? 56319).
Definition is_low (u : Z) : bool := (56320 <=? u) && (u <=? 57343).

(** A low surrogate escape at the head of the input, if there is one. *)
Definition low_escape (s : str) : option (Z * str) :=
  match s with
  | 92 :: 117 :: a :: b :: c :: d :: rest =>
      match hex4 a b c d with
      | Some u => if is_low u then Some (u, rest) else None
      | None => None
      end
  | _ => None
  end.

(** [scanstring], entered after the opening quote: the decoded string
    and the input left after the closing quote. *)
Fixpoint scan_chars (s : str) (acc : str) : option (str * str) :=
  match s with
  | [] => None
  | c :: s1 =>
      if c =? quote then Some (rev acc, s1)
      else if c =? backslash then
        match s1 with
        | [] => None
        | e :: s2 =>
            if e =? 117 then
              match s2 with
              | a :: b :: c' :: d :: s3 =>
                  match hex4 a b c' d with
                  | None => None
                  | Some u =>
                      if is_high u then
                        match s3 with
                        | 92 :: 117 :: a2 :: b2 :: c2 :: d2 :: s4 =>
                            match hex4 a2 b2 c2 d2 with
                            | Some u2 =>
                                if is_low u2 then
                                  scan_chars s4
                                    (65536
                                     + Z.lor (Z.shiftl (u - 55296) 10)
                                             (u2 - 56320) :: acc)
                                else scan_chars s3 (u :: acc)
                            | None => scan_chars s3 (u :: acc)
                            end
                        | _ => scan_chars s3 (u :: acc)
                        end
                      else scan_chars s3 (u :: acc)
                  end
              | _ => None
              end
            else
              match simple_escape e with
              | Some v => scan_chars s2 (v :: acc)
              | None => None
              end
        end
      else if c <? 32 then None
      else scan_chars s1 (c :: acc)
  end.

Definition is_ws (c : Z) : bool :=
  (c =? 32) || (c =? 9) || (c =? 10) || (c =? 13).

Fixpoint skip_ws (s : str) : str :=
  match s with
  | c :: s' => if is_ws c then skip_ws s' else s
  | [] => []
  end.

Definition parser (A : Type) := str -> option (A * str).

(** The next token, after white space, is the character [c]. *)
Definition expect (c : Z) : parser unit :=
  fun s =>
    match skip_ws s with
    | c' :: s' => if c' =? c then Some (tt, s') else None
    | [] => None
    end.

Definition parse_string : parser str :=
  fun s =>
    match skip_ws s with
    | c :: s' => if c =? quote then scan_chars s' [] else None
    | [] => None
    end.

Definition pbind {A B} (p : parser A) (k : A -> parser B) : parser B :=
  fun s =>
    match p s with
    | Some (a, s') => k a s'
    | None => None
    end.

Definition pret {A} (a : A) : parser A := fun s => Some (a, s).
Definition pfail {A} : parser A := fun _ => None.

Notation "x <~ p ;; k" := (pbind p (fun x => k))
  (at level 61, p at next level, right associativity).

(** A member ["name": "value"] with the expected name. *)
Definition parse_field (name : str) : parser str :=
  k <~ parse_string ;;
  if Str.eqb k name then
    _ <~ expect 58 ;; parse_string
  else pfail.

(** An object with exactly the four members of a posting, in the order
    the writer puts them. *)
Definition parse_listing : parser Listing :=
  _ <~ expect 123 ;;
  t <~ parse_field (py "title") ;;
  _ <~ expect 44 ;;
  c <~ parse_field (py "company") ;;
  _ <~ expect 44 ;;
  l <~ parse_field (py "link") ;;
  _ <~ expect 44 ;;
  s <~ parse_field (py "source") ;;
  _ <~ expect 125 ;;
  pret (mkListing t c l s).

(** The elements of an array after the first, up to the closing
    bracket. *)
Fixpoint parse_jobs_tail (fuel : nat) (acc : list Listing)
  : parser (list Listing) :=
  fun s =>
    match fuel with
    | O => None
    | S f =>
        match skip_ws s with
        | c :: s' =>
            if c =? 93 then Some (rev acc, s')
            else if c =? 44 then
              match parse_listing s' with
              | Some (j, s'') => parse_jobs_tail f (j :: acc) s''
              | None => None
              end
            else None
        | [] => None
        end
    end.

(** An array of postings.  The loop over the elements is bounded by the
    length of the input, every element taking at least one character. *)
Definition parse_jobs : parser (list Listing) :=
  fun s =>
    match expect 91 s with
    | None => None
    | Some (_, s1) =>
        match skip_ws s1 with
        | c :: s2 =>
            if c =? 93 then Some ([], s2)
            else
              match parse_listing s1 with
              | Some (j, s3) => parse_jobs_tail (List.length s1) [j] s3
              | None => None
              end
        | [] => None
        end
    end.

Definition parse_entry : parser (str * list Listing) :=
  k <~ parse_string ;;
  _ <~ expect 58 ;;
  v <~ parse_jobs ;;
  pret (k, v).

(** The members of the top-level object after the first; they are
    assigned into the dict one after the other, so a repeated key keeps
    its first position and its last value. *)
Fixpoint parse_entries_tail (fuel : nat) (acc : History) : parser History :=
  fun s =>
    match fuel with
    | O => None
    | S f =>
        match skip_ws s with
        | c :: s' =>
            if c =? 125 then Some (acc, s')
            else if c =? 44 then
              match parse_entry s' with
              | Some ((k, v), s'') =>
                  parse_entries_tail f (Dict.set acc k v) s''
              | None => None
              end
            else None
        | [] => None
        end
    end.

Definition parse_history : parser History :=
  fun s =>
    match expect 123 s with
    | None => None
    | Some (_, s1) =>
        match skip_ws s1 with
        | c :: s2 =>
            if c =? 125 then Some ([], s2)
            else
              match parse_entry s1 with
              | Some ((k, v), s3) =>
                  parse_entries_tail (List.length s1) [(k, v)] s3
              | None => None
              end
        | [] => None
        end
    end.

(** [json.load(f)] on a history document: the whole text is one
    document, white space apart.  The reader covers the documents the
    program writes, whatever their white space: a text that is not JSON,
    or that is JSON of another shape than day-key to list of postings
    with their four members in the writer's order, gives [None]. *)
Definition load (text : str) : option History :=
  match parse_history text with
  | Some (h, rest) =>
      match skip_ws rest with
      | [] => Some h
      | _ :: _ => None
      end
  | None => None
  end.

End Json.

(** ** The program *)

Module Scraper.

(** *** What the program receives from outside *)

(** A tag found by a selector: its stripped text and its attributes. *)
Record Tag := mkTag {
  get_text : str;          (* [tag.get_text(strip=True)] *)
  tag_attrs : Dict.dict str
}.

(** An element handle returned by [soup.select]: what [select_one] and
    [find_all] find below it, and its own attributes. *)
Record Element := mkElement {
  select_one : str -> option Tag;
  find_all : str -> list Tag;
  attrs : Dict.dict str
}.

(** A parsed page: [soup.select(css)]. *)
Definition Soup := str -> list Element.

(** The network: [BeautifulSoup(requests.get(url).text)], or the
    exception [requests.get] raises. *)
Definition Net := str -> result Soup.

(** The mutable world of a run.  A run sees one calendar day: the clock
    does not pass midnight between two calls of [date.today()]. *)
Record World := mkWorld {
  history_file : option str;   (* text of jobs_history.json, if it exists *)
  index_html : option str;     (* text of index.html, if it exists *)
  stdout : list str;           (* lines printed *)
  clock : Calendar.date        (* [datetime.date.today()] *)
}.

(** Effectful code: the result, or the exception raised, together with
    the world as the code left it. *)
Definition M (A : Type) := World -> result A * World.

Definition ret {A} (a : A) : M A := fun w => (Ok a, w).
Definition lift {A} (r : result A) : M A := fun w => (r, w).
Definition mbind {A B} (m : M A) (k : A -> M B) : M B :=
  fun w =>
    match m w with
    | (Ok a, w') => k a w'
    | (Raise e, w') => (Raise e, w')
    end.

Notation "x <<- m ;; k" := (mbind m (fun x => k))
  (at level 61, m at next level, right associativity).

(** *** Configuration *)

(** [d.get(k, default)] *)
Definition get_default (d : Dict.dict str) (k default : str) : str :=
  match Dict.get d k with
  | Some v => v
  | None => default
  end.

(** Job board URLs for Phoenix / AZ pilot jobs. *)
Definition JOB_SOURCES : Dict.dict str :=
  [(py "Indeed",
    py "https://www.indeed.com/jobs?q=pilot+caravan+pc-12+cargo&l=Phoenix%2C+AZ");
   (py "ZipRecruiter",
    py "https://www.ziprecruiter.com/candidate/search?search=pilot&location=Phoenix%2C+AZ");
   (py "PilotCareerCenter",
    py "https://pilotcareercenter.com/PHOENIX-PILOT-JOBS/KIWA-KDVT-KPHX-KSDL");
   (py "Glassdoor",
    py "https://www.glassdoor.com/Job/phoenix-pilot-jobs-SRCH_IL.0,7_IC1133904_KO8,13.htm")].

(** [JOB_SOURCES[name]] for the four names [main] uses. *)
Definition URL_INDEED : str := get_default JOB_SOURCES (py "Indeed") [].
Definition URL_ZIP : str := get_default JOB_SOURCES (py "ZipRecruiter") [].
Definition URL_PCC : str := get_default JOB_SOURCES (py "PilotCareerCenter") [].
Definition URL_GLASSDOOR : str := get_default JOB_SOURCES (py "Glassdoor") [].

Definition KEYWORDS : list str :=
  [py "caravan"; py "pc-12"; py "sky courier"; py "cargo"; py "part 135"].
Definition DAYS_TO_KEEP : Z := 30.

(** *** Source-specific parsers *)

(** [tag[k]] *)
Definition getitem (t : Tag) (k : str) : result str :=
  of_option KeyError (Dict.get (tag_attrs t) k).

(** A [for] loop over page elements that appends to [jobs]: an element
    gives a posting, is passed over, or raises and ends the loop. *)
Fixpoint for_each {A} (body : A -> result (option Listing)) (l : list A)
  (jobs : list Listing) : result (list Listing) :=
  match l with
  | [] => Ok jobs
  | x :: l' =>
      match body x with
      | Ok (Some j) => for_each body l' (jobs ++ [j])
      | Ok None => for_each body l' jobs
      | Raise e => Raise e
      end
  end.

Definition indeed_card (card : Element) : result (option Listing) :=
  title <- match select_one card (py "h2") with
           | Some t => Ok (get_text t)
           | None => Raise AttributeError
           end ;;
  let company :=
    match select_one card (py "span.companyName") with
    | Some t => get_text t
    | None => py "Unknown"
    end in
  href <- match select_one card (py "a") with
          | Some a => getitem a (py "href")
          | None => Raise TypeError
          end ;;
  let link := py "https://www.indeed.com" ++ href in
  Ok (Some (mkListing title company link (py "Indeed"))).

Definition fetch_indeed (net : Net) (url : str) : result (list Listing) :=
  soup <- net url ;;
  for_each indeed_card (soup (py "div.job_seen_beacon")) [].

Definition zip_card (card : Element) : result (option Listing) :=
  match select_one card (py "a") with
  | None => Ok None
  | Some title_tag =>
      let title := get_text title_tag in
      href <- getitem title_tag (py "href") ;;
      let link :=
        if Str.startswith (py "http") href then href
        else py "https://www.ziprecruiter.com" ++ href in
      let company :=
        match select_one card (py "a.t_org_link") with
        | Some t => get_text t
        | None => py "Unknown"
        end in
      Ok (Some (mkListing title company link (py "ZipRecruiter")))
  end.

Definition fetch_zip (net : Net) (url : str) : result (list Listing) :=
  soup <- net url ;;
  for_each zip_card (soup (py "article.job_content")) [].

(** A table row gives a posting when it has at least two cells. *)
Definition pcc_row (url : str) (row : Element) : result (option Listing) :=
  match find_all row (py "td") with
  | c0 :: c1 :: _ =>
      Ok (Some (mkListing (get_text c0) (get_text c1) url
                          (py "PilotCareerCenter")))
  | _ => Ok None
  end.

Definition fetch_pilotcareercenter (net : Net) (url : str)
  : result (list Listing) :=
  soup <- net url ;;
  for_each (pcc_row url) (soup (py "table tr")) [].

Definition glassdoor_card (card : Element) : result (option Listing) :=
  let title :=
    get_default (attrs card) (py "data-normalize-job-title") (py "Pilot Job") in
  let company := get_default (attrs card) (py "data-company") (py "Unknown") in
  let link :=
    py "https://www.glassdoor.com" ++ get_default (attrs card) (py "data-link") [] in
  Ok (Some (mkListing title company link (py "Glassdoor"))).

Definition fetch_glassdoor (net : Net) (url : str) : result (list Listing) :=
  soup <- net url ;;
  for_each glassdoor_card (soup (py "li.react-job-listing")) [].

(** *** Filtering *)

Section Filtering.

(** [str.lower], given by the Unicode tables of the interpreter. *)
Variable lower : str -> str.

Definition job_text (job : Listing) : str :=
  lower (title job ++ py " " ++ company job).

(** The body of [filter_jobs], for a keyword list [keywords]. *)
Fixpoint filter_jobs_with (keywords : list str) (jobs : list Listing)
  : list Listing :=
  match jobs with
  | [] => []
  | job :: rest =>
      let text := job_text job in
      if existsb (fun k => Str.contains k text) keywords
      then job :: filter_jobs_with keywords rest
      else filter_jobs_with keywords rest
  end.

Definition filter_jobs (jobs : list Listing) : list Listing :=
  filter_jobs_with KEYWORDS jobs.

End Filtering.

(** *** History *)

Definition load_history : M History :=
  fun w =>
    match history_file w with
    | Some text => (of_option JSONDecodeError (Json.load text), w)
    | None => (Ok [], w)
    end.

Definition save_history (history : History) : M unit :=
  fun w =>
    (Ok tt,
     mkWorld (Some (Json.dump history)) (index_html w) (stdout w) (clock w)).

(** The dict comprehension that keeps the days on or after [cutoff]. *)
Fixpoint prune (cutoff : Calendar.date) (history : History) : result History :=
  match history with
  | [] => Ok []
  | (day, jobs) :: rest =>
      d <- of_option ValueError (Calendar.fromisoformat day) ;;
      rest' <- prune cutoff rest ;;
      Ok (if Calendar.geb d cutoff then (day, jobs) :: rest' else rest')
  end.

(** The update proper: insert today's snapshot, then prune. *)
Definition update (history : History) (today : Calendar.date)
  (today_jobs : list Listing) (days_to_keep : Z) : result History :=
  let today_str := Calendar.isoformat today in
  let history := Dict.set history today_str today_jobs in
  cutoff <- of_option OverflowError (Calendar.sub_days today days_to_keep) ;;
  prune cutoff history.

Definition get_today : M Calendar.date := fun w => (Ok (clock w), w).

Definition update_history (today_jobs : list Listing) : M History :=
  today <<- get_today ;;
  history <<- load_history ;;
  history <<- lift (update history today today_jobs DAYS_TO_KEEP) ;;
  _ <<- save_history history ;;
  ret history.

(** *** HTML output *)

Definition EM_DASH : Z := 8212.
Definition RIGHT_QUOTE : Z := 8217.
Definition CHECK_MARK : Z := 9989.

(** The f-string of one posting, the same at both places it is used. *)
Definition job_item (job : Listing) : str :=
  py "<li><a href='" ++ link job ++ py "' target='_blank'>" ++ title job
  ++ py "</a> " ++ [EM_DASH] ++ py " " ++ company job
  ++ py " (" ++ source job ++ py ")</li>".

(** [for job in jobs: html += f"<li>...</li>"] *)
Definition add_items (html : str) (jobs : list Listing) : str :=
  fold_left (fun html job => html ++ job_item job) jobs html.

(** The string [generate_html] builds, statement by statement. *)
Definition render (today : Calendar.date) (today_jobs : list Listing)
  (history : History) : str :=
  let today := Calendar.strftime_long today in
  let html := py "<html><head><title>Phoenix Pilot Jobs</title></head><body>" in
  let html :=
    html ++ py "<h1>Phoenix Low-Time Pilot Jobs</h1><p>Updated " ++ today
    ++ py "</p>" in
  let html := html ++ py "<h2>Today" ++ [RIGHT_QUOTE] ++ py "s Jobs</h2><ul>" in
  let html :=
    match today_jobs with
    | _ :: _ => add_items html today_jobs
    | [] => html ++ py "<li>No new jobs found today.</li>"
    end in
  let html := html ++ py "</ul>" in
  let html := html ++ py "<h2>Job History (Last 30 Days)</h2>" in
  let html :=
    fold_left
      (fun html item =>
         let html := html ++ py "<h3>" ++ fst item ++ py "</h3><ul>" in
         let html := add_items html (snd item) in
         html ++ py "</ul>")
      (Dict.sorted_desc history) html in
  html ++ py "</body></html>".

(** [with open("index.html", "w", encoding="utf-8") as f: f.write(html)].
    Opening the file empties it; a surrogate code point cannot be
    encoded, and then nothing is written into the emptied file. *)
Definition write_index (html : str) : M unit :=
  fun w =>
    if existsb Str.is_surrogate html then
      (Raise UnicodeEncodeError,
       mkWorld (history_file w) (Some []) (stdout w) (clock w))
    else
      (Ok tt, mkWorld (history_file w) (Some html) (stdout w) (clock w)).

Definition generate_html (today_jobs : list Listing) (history : History)
  : M unit :=
  today <<- get_today ;;
  write_index (render today today_jobs history).

(** *** Main *)

Definition print (line : str) : M unit :=
  fun w =>
    (Ok tt,
     mkWorld (history_file w) (index_html w) (stdout w ++ [line]) (clock w)).

Definition summary (today_jobs : list Listing) (history : History) : str :=
  [CHECK_MARK] ++ py " Saved " ++ Str.of_Z (Z.of_nat (List.length today_jobs))
  ++ py " new jobs, " ++ Str.of_Z (Z.of_nat (List.length history))
  ++ py " days in archive.".

Section Main.

Variable lower : str -> str.
Variable net : Net.

(** The four pulls, in order, each extending [all_jobs]; the first
    exception ends them. *)
Definition pull_all : result (list Listing) :=
  let all_jobs := [] in
  jobs <- fetch_indeed net URL_INDEED ;;
  let all_jobs := all_jobs ++ jobs in
  jobs <- fetch_zip net URL_ZIP ;;
  let all_jobs := all_jobs ++ jobs in
  jobs <- fetch_pilotcareercenter net URL_PCC ;;
  let all_jobs := all_jobs ++ jobs in
  jobs <- fetch_glassdoor net URL_GLASSDOOR ;;
  let all_jobs := all_jobs ++ jobs in
  Ok all_jobs.

Definition main : M unit :=
  all_jobs <<- lift pull_all ;;
  let today_jobs := filter_jobs lower all_jobs in
  history <<- update_history today_jobs ;;
  _ <<- generate_html today_jobs history ;;
  print (summary today_jobs history).

End Main.

End Scraper.

(* ================================================================== *)
(** * Part II: the vocabulary of the properties *)
(* ================================================================== *)

Module Spec.
Import Calendar Json Scraper.

(** ** Strings and filtering *)

(** [k in s] holds exactly when [k] is a contiguous run of [s]. *)
Definition substring (k s : str) : Prop :=
  exists pre post, s = pre ++ k ++ post.

(** [out] is the order-preserving subsequence of [l] made of exactly the
    elements that satisfy [P]. *)
Inductive Selects {A} (P : A -> Prop) : list A -> list A -> Prop :=
| Selects_nil : Selects P [] []
| Selects_keep x l out : P x -> Selects P l out -> Selects P (x :: l) (x :: out)
| Selects_drop x l out : ~ P x -> Selects P l out -> Selects P (x :: l) out.

Section WithLower.
Variable lower : str -> str.

(** [k] occurs in [s] when case is ignored. *)
Definition ci_substring (k s : str) : Prop :=
  substring (lower k) (lower s).

(** Some keyword of [K] occurs, case ignored, in title + " " + company. *)
Definition passes (K : list str) (L : Listing) : Prop :=
  exists k, In k K /\ ci_substring k (title L ++ py " " ++ company L).

(** Lower-casing leaves every keyword of [K] as it is. *)
Definition lowercase (K : list str) : Prop :=
  forall k, In k K -> lower k = k.

End WithLower.

(** ** Adapters *)

(** The postings one page element contributes. *)
Definition contribution (r : option Listing) : list Listing :=
  match r with
  | Some j => [j]
  | None => []
  end.

(** The four adapters, their container selector and their loop body. *)
Inductive Adapter := Indeed | ZipRecruiter | PilotCareerCenter | Glassdoor.

(** The fetch function of an adapter. *)
Definition fetch (a : Adapter) : Net -> str -> result (list Listing) :=
  match a with
  | Indeed => fetch_indeed
  | ZipRecruiter => fetch_zip
  | PilotCareerCenter => fetch_pilotcareercenter
  | Glassdoor => fetch_glassdoor
  end.

(** The selector of the elements an adapter loops over. *)
Definition container (a : Adapter) : str :=
  match a with
  | Indeed => py "div.job_seen_beacon"
  | ZipRecruiter => py "article.job_content"
  | PilotCareerCenter => py "table tr"
  | Glassdoor => py "li.react-job-listing"
  end.

(** What an adapter does with one element. *)
Definition body (a : Adapter) (url : str) : Element -> result (option Listing) :=
  match a with
  | Indeed => indeed_card
  | ZipRecruiter => zip_card
  | PilotCareerCenter => pcc_row url
  | Glassdoor => glassdoor_card
  end.

(** The configured URL of an adapter. *)
Definition url_of (a : Adapter) : str :=
  match a with
  | Indeed => URL_INDEED
  | ZipRecruiter => URL_ZIP
  | PilotCareerCenter => URL_PCC
  | Glassdoor => URL_GLASSDOOR
  end.

(** The adapters in the order [main] calls them. *)
Definition adapters : list Adapter :=
  [Indeed; ZipRecruiter; PilotCareerCenter; Glassdoor].

(** The company an element of the page offers, if it offers one: the
    text of the company element of a card, of the second cell of a table
    row, or the company attribute. *)
Definition company_text (a : Adapter) (e : Element) : option str :=
  match a with
  | Indeed => option_map get_text (select_one e (py "span.companyName"))
  | ZipRecruiter => option_map get_text (select_one e (py "a.t_org_link"))
  | PilotCareerCenter => option_map get_text (nth_error (find_all e (py "td")) 1)
  | Glassdoor => Dict.get (attrs e) (py "data-company")
  end.

(** The element has no company to extract: it offers none, or a blank
    one. *)
Definition no_company (a : Adapter) (e : Element) : Prop :=
  company_text a e = None \/ company_text a e = Some [].

(** ** Dates and day-keys *)

(** The extra day of a leap year. *)
Definition leap_day (y : Z) : Z := if is_leap y then 1 else 0.

(** The month and day that [ord2ymd] computes from the day of the year. *)
Definition month_day (leap : bool) (n : Z) : Z * Z :=
  let m := Z.shiftr (n + 50) 5 in
  let preceding := DAYS_BEFORE_MONTH m + (if (2 <? m) && leap then 1 else 0) in
  if n <? preceding then
    let m' := m - 1 in
    let preceding' := preceding - (DAYS_IN_MONTH m' + (if (m' =? 2) && leap then 1 else 0)) in
    (m', n - preceding' + 1)
  else (m, n - preceding + 1).

(** The month and day are in range and add up to the day of the year. *)
Definition month_day_ok (leap : bool) (n : Z) : bool :=
  let '(m, d) := month_day leap n in
  (1 <=? m) && (m <=? 12) && (1 <=? d)
  && (d <=? (if (m =? 2) && leap then 29 else DAYS_IN_MONTH m))
  && (DAYS_BEFORE_MONTH m + (if (2 <? m) && leap then 1 else 0) + d =? n + 1).

(** The key reads as an ISO date. *)
Definition is_day_key (k : str) : bool :=
  match fromisoformat k with
  | Some _ => true
  | None => false
  end.

(** Every key of the history is a day-key. *)
Definition day_keys (h : History) : bool := forallb is_day_key (Dict.keys h).

(** The key's date is on or after [cutoff]. *)
Definition keep (cutoff : date) (k : str) : bool :=
  match fromisoformat k with
  | Some d => geb d cutoff
  | None => false
  end.

(** How many days [d] lies before [today] (negative for a later date). *)
Definition age (today d : date) : Z := toordinal today - toordinal d.

(** The day-key of the day [i] days before [today]. *)
Definition days_ago (today : date) (i : Z) : str :=
  isoformat (fromordinal (toordinal today - i)).

(** The day-keys of the [n] days before [today], most recent first. *)
Definition preceding_days (today : date) (n : nat) : list str :=
  map (fun i => days_ago today (Z.of_nat i)) (List.seq 1 n).

(** The day number of a day-key (0 for a key that is not one). *)
Definition day_number (k : str) : Z :=
  match fromisoformat k with
  | Some d => toordinal d
  | None => 0
  end.

(** Item [a] is for a strictly later calendar date than item [b]. *)
Definition later (a b : str * list Listing) : Prop :=
  exists da db,
    fromisoformat (fst a) = Some da /\ fromisoformat (fst b) = Some db
    /\ before db da = true.

(** Not increasing in day number. *)
Definition desc {V} (x y : str * V) : Prop := day_number (fst y) <= day_number (fst x).

(** The item's key is a day-key. *)
Definition day_item {V} (x : str * V) : Prop := is_day_key (fst x) = true.

(** ** The history document *)

(** A code point, the element of a Python [str]. *)
Definition code_point (c : Z) : bool := (0 <=? c) && (c <? 1114112).

(** A string of code points in which no high surrogate is immediately
    followed by a low surrogate. *)
Fixpoint pair_free (s : str) : bool :=
  match s with
  | [] => true
  | c :: t =>
      code_point c
      && match t with
         | d :: _ => negb (is_high c && is_low d)
         | [] => true
         end
      && pair_free t
  end.

(** The same for the four fields of a posting. *)
Definition pair_free_listing (j : Listing) : bool :=
  pair_free (title j) && pair_free (company j) && pair_free (link j)
  && pair_free (source j).

(** The same for every key and posting of a history. *)
Definition pair_free_history (h : History) : bool :=
  forallb (fun e => pair_free (fst e) && forallb pair_free_listing (snd e)) h.

(** The strings of a posting hold scalar values only. *)
Definition wf_listing (j : Listing) : bool :=
  Str.wf (title j) && Str.wf (company j) && Str.wf (link j) && Str.wf (source j).

(** The same for every key and posting of a history. *)
Definition wf_history (h : History) : bool :=
  forallb (fun e => Str.wf (fst e) && forallb wf_listing (snd e)) h.

(** The elements after the first, as the writer lays them out. *)
Definition jobs_tail (items : list Listing) : str :=
  flat_map (fun j => item_sep 2 ++ dump_listing j) items.

(** The members after the first, as the writer lays them out. *)
Definition entries_tail (es : History) : str :=
  flat_map (fun e => item_sep 1 ++ dump_entry e) es.

(** ** The output document *)

(** One posting: its title, hyperlinked to its link, then its company
    and the name of its source. *)
Definition item_markup (j : Listing) : str :=
  py "<li><a href='" ++ link j ++ py "' target='_blank'>" ++ title j
  ++ py "</a> " ++ [8212] ++ py " " ++ company j
  ++ py " (" ++ source j ++ py ")</li>".

(** A list with one item per posting, in order. *)
Definition list_markup (jobs : list Listing) : str :=
  py "<ul>" ++ flat_map item_markup jobs ++ py "</ul>".

(** The section of one day: the day-key as heading, then that day's
    postings. *)
Definition section_markup (s : str * list Listing) : str :=
  py "<h3>" ++ fst s ++ py "</h3>" ++ list_markup (snd s).

(** The head of the document, with the date of the run. *)
Definition top_markup (today : date) : str :=
  py "<html><head><title>Phoenix Pilot Jobs</title></head><body>"
  ++ py "<h1>Phoenix Low-Time Pilot Jobs</h1><p>Updated "
  ++ strftime_long today ++ py "</p>".

(** Today's postings, or the placeholder when there is none. *)
Definition today_markup (today_jobs : list Listing) : str :=
  py "<h2>Today" ++ [8217] ++ py "s Jobs</h2>"
  ++ match today_jobs with
     | [] => py "<ul><li>No new jobs found today.</li></ul>"
     | _ :: _ => list_markup today_jobs
     end.

(** The document with the given day sections, in the given order. *)
Definition document (today : date) (today_jobs : list Listing)
  (sections : list (str * list Listing)) : str :=
  top_markup today ++ today_markup today_jobs
  ++ py "<h2>Job History (Last 30 Days)</h2>"
  ++ flat_map section_markup sections
  ++ py "</body></html>".

(** A document that a UTF-8 file can hold: no surrogate code point. *)
Definition encodable (s : str) : bool := negb (existsb Str.is_surrogate s).

(** ** The run *)

(** The pool a tolerant run would build: the output of the adapters
    that return, in order, and nothing for one that raises. *)
Definition tolerant_pool (net : Net) : list Listing :=
  flat_map (fun a => match fetch a net (url_of a) with
                     | Ok jobs => jobs
                     | Raise _ => []
                     end) adapters.

(** Adapter [a] raises and every other adapter returns. *)
Definition only_fails (net : Net) (a : Adapter) (e : exn) : Prop :=
  fetch a net (url_of a) = Raise e
  /\ forall a', a' <> a -> exists jobs, fetch a' net (url_of a') = Ok jobs.

(** The run completes on the tolerant pool: the filtered pool is stored
    under today's key in the history written to the file, and the
    summary is printed. *)
Definition completes_tolerantly (lower : str -> str) (net : Net) (w : World)
  : Prop :=
  exists w' h,
    main lower net w = (Ok tt, w')
    /\ history_file w' = Some (Json.dump h)
    /\ Dict.get h (isoformat (clock w))
       = Some (filter_jobs lower (tolerant_pool net))
    /\ stdout w' = stdout w ++ [summary (filter_jobs lower (tolerant_pool net)) h].

(** ** Further vocabulary *)

(** The name an adapter writes into the [source] field. *)
Definition adapter_name (a : Adapter) : str :=
  match a with
  | Indeed => py "Indeed"
  | ZipRecruiter => py "ZipRecruiter"
  | PilotCareerCenter => py "PilotCareerCenter"
  | Glassdoor => py "Glassdoor"
  end.

(** The shape of the links of an adapter fetching [url]: under the
    board's site for Indeed and Glassdoor, some [http...] address for
    ZipRecruiter, the fetched page itself for PilotCareerCenter. *)
Definition link_shape (a : Adapter) (url : str) (l : str) : Prop :=
  match a with
  | Indeed => Str.startswith (py "https://www.indeed.com") l = true
  | ZipRecruiter => Str.startswith (py "http") l = true
  | PilotCareerCenter => l = url
  | Glassdoor => Str.startswith (py "https://www.glassdoor.com") l = true
  end.

(** The element gives a posting. *)
Definition yields (a : Adapter) (url : str) (e : Element) : bool :=
  match body a url e with
  | Ok (Some _) => true
  | _ => false
  end.

(** The link of the posting an element gives: the board's site followed
    by the [href] of the element's link (Indeed) or by its [data-link]
    attribute, if it has one (Glassdoor); the [href] itself when it
    starts with [http] and the board's site followed by it otherwise
    (ZipRecruiter); the fetched page (PilotCareerCenter). *)
Definition link_of (a : Adapter) (url : str) (e : Element) (l : str) : Prop :=
  match a with
  | Indeed =>
      exists tg href,
        select_one e (py "a") = Some tg
        /\ Dict.get (tag_attrs tg) (py "href") = Some href
        /\ l = py "https://www.indeed.com" ++ href
  | ZipRecruiter =>
      exists tg href,
        select_one e (py "a") = Some tg
        /\ Dict.get (tag_attrs tg) (py "href") = Some href
        /\ l = if Str.startswith (py "http") href then href
               else py "https://www.ziprecruiter.com" ++ href
  | PilotCareerCenter => l = url
  | Glassdoor =>
      l = py "https://www.glassdoor.com"
          ++ match Dict.get (attrs e) (py "data-link") with
             | Some d => d
             | None => []
             end
  end.

(** An Indeed card the adapter can read: a heading, and a link with an
    [href]. *)
Definition indeed_usable (card : Element) : Prop :=
  select_one card (py "h2") <> None
  /\ exists a, select_one card (py "a") = Some a
               /\ Dict.get (tag_attrs a) (py "href") <> None.

(** A ZipRecruiter card has a link. *)
Definition has_anchor (card : Element) : bool :=
  match select_one card (py "a") with
  | Some _ => true
  | None => false
  end.

(** The link of a ZipRecruiter card, if there is one, has an [href]. *)
Definition zip_usable (card : Element) : Prop :=
  forall a, select_one card (py "a") = Some a ->
            Dict.get (tag_attrs a) (py "href") <> None.

(** [len(cols) >= 2] for the cells of a table row. *)
Definition has_two_cells (row : Element) : bool :=
  (2 <=? List.length (find_all row (py "td")))%nat.

(** [cols[i].get_text(strip=True)] for an index in range. *)
Definition cell_text (row : Element) (i : nat) : str :=
  get_text (nth i (find_all row (py "td")) (mkTag [] [])).

(** The posting a Glassdoor card gives: each attribute, or its default. *)
Definition glassdoor_fields (card : Element) (j : Listing) : Prop :=
  title j = match Dict.get (attrs card) (py "data-normalize-job-title") with
            | Some t => t
            | None => py "Pilot Job"
            end
  /\ company j = match Dict.get (attrs card) (py "data-company") with
                 | Some c => c
                 | None => py "Unknown"
                 end
  /\ link j = py "https://www.glassdoor.com"
              ++ match Dict.get (attrs card) (py "data-link") with
                 | Some l => l
                 | None => []
                 end
  /\ source j = py "Glassdoor".

(** [a] does not come after [b]: the key of [a] is not below the key
    of [b] as strings compare. *)
Definition key_desc {V} (a b : str * V) : Prop :=
  Str.ltb (fst a) (fst b) = false.

(** A string of a length no ISO date has: the calendar format has ten
    characters, and the basic and week formats that later interpreters
    also read have seven, eight or ten. *)
Definition never_a_date (k : str) : Prop :=
  ~ In (List.length k) [7; 8; 10]%nat.

End Spec.

(** ** Worked inputs *)

Module Examples.
Import Calendar Scraper Spec.

(** Two postings: one that mentions a keyword and one that does not. *)
Definition caravan_pilot : Listing :=
  mkListing (py "Caravan Pilot") (py "AirCo") (py "https://www.indeed.com/job/1") (py "Indeed").

Definition accountant : Listing :=
  mkListing (py "Accountant") (py "FinCo") (py "https://www.indeed.com/job/2") (py "Indeed").

(** An element in which nothing is found. *)
Definition no_tags : str -> option Tag := fun _ => None.

Definition no_cells : str -> list Tag := fun _ => [].

(** The tags a card holds, by selector. *)
Definition tags (l : Dict.dict Tag) : str -> option Tag := Dict.get l.

(** A link with its [href]. *)
Definition anchor (text href : str) : Tag := mkTag text [(py "href", href)].

(** An Indeed card with a heading and a link but no company. *)
Definition indeed_card_no_company : Element :=
  mkElement
    (tags [(py "h2", mkTag (py "Caravan Pilot") []);
           (py "a", anchor (py "Caravan Pilot") (py "/rc/clk?jk=1"))])
    no_cells [].

(** An Indeed card with a company and a link but no heading. *)
Definition indeed_card_no_title : Element :=
  mkElement
    (tags [(py "span.companyName", mkTag (py "AirCo") []);
           (py "a", anchor (py "view") (py "/rc/clk?jk=2"))])
    no_cells [].

(** A complete Indeed card. *)
Definition indeed_card_full : Element :=
  mkElement
    (tags [(py "h2", mkTag (py "PC-12 Captain") []);
           (py "span.companyName", mkTag (py "Desert Air") []);
           (py "a", anchor (py "PC-12 Captain") (py "/rc/clk?jk=3"))])
    no_cells [].

(** A page with [cards] under the selector [sel] and nothing else. *)
Definition page (sel : str) (cards : list Element) : Soup :=
  fun css => if Str.eqb css sel then cards else [].

(** A network that serves the given pages and cannot reach any other
    address. *)
Definition net_of (pages : Dict.dict Soup) : Net :=
  fun url =>
    match Dict.get pages url with
    | Some soup => Ok soup
    | None => Raise RequestException
    end.

(** An Indeed page with two usable cards. *)
Definition indeed_page_ok : Soup :=
  page (py "div.job_seen_beacon") [indeed_card_no_company; indeed_card_full].

(** A Glassdoor card without a company attribute. *)
Definition glassdoor_card0 : Element :=
  mkElement no_tags no_cells
    [(py "data-normalize-job-title", py "Cargo Pilot");
     (py "data-link", py "/job-listing/1")].

(** A PilotCareerCenter row with two cells. *)
Definition pcc_row0 : Element :=
  mkElement no_tags
    (fun _ => [mkTag (py "Caravan First Officer") []; mkTag (py "Ameriflight") []])
    [].

(** A PilotCareerCenter row whose second cell is blank. *)
Definition pcc_row_blank : Element :=
  mkElement no_tags
    (fun _ => [mkTag (py "Caravan First Officer") []; mkTag [] []])
    [].

(** An Indeed card whose company element is blank. *)
Definition indeed_card_blank_company : Element :=
  mkElement
    (tags [(py "h2", mkTag (py "Caravan Pilot") []);
           (py "span.companyName", mkTag [] []);
           (py "a", anchor (py "Caravan Pilot") (py "/rc/clk?jk=4"))])
    no_cells [].

(** Indeed, PilotCareerCenter and Glassdoor answer; ZipRecruiter cannot
    be reached. *)
Definition net_zip_down : Net :=
  net_of [(URL_INDEED, indeed_page_ok);
          (URL_PCC, page (py "table tr") [pcc_row0]);
          (URL_GLASSDOOR, page (py "li.react-job-listing") [glassdoor_card0])].

(** With ZipRecruiter answering an empty page the same run completes. *)
Definition net_all_up : Net :=
  net_of [(URL_INDEED, indeed_page_ok);
          (URL_ZIP, page (py "article.job_content") []);
          (URL_PCC, page (py "table tr") [pcc_row0]);
          (URL_GLASSDOOR, page (py "li.react-job-listing") [glassdoor_card0])].

(** A first run: no history file, no document, nothing printed. *)
Definition world0 : World := mkWorld None None [] (mkdate 2026 11 3).

(** The scenario on 3 November 2026. *)
Definition today0 : date := mkdate 2026 11 3.

(** The 35 days before it, oldest first, each with an empty snapshot. *)
Definition history35 : History :=
  map (fun k => (k, [])) (rev (preceding_days today0 35)).

(** A history with a snapshot two months old and one two weeks old. *)
Definition history0 : History :=
  [(py "2026-09-01", [accountant]); (py "2026-10-20", [caravan_pilot])].

(** A posting with a quote, a backslash, a line feed, an accented
    letter, a dash and an emoji in its strings. *)
Definition tricky : Listing :=
  mkListing (py "Caravan " ++ [34] ++ py "Pilot" ++ [34; 92; 10])
            ([233; 8212; 128512] ++ py " AirCo")
            (py "https://www.indeed.com/rc/clk?jk=1&from=web")
            (py "Indeed").

(** The posting twice on one day, and an empty day before it. *)
Definition history_tricky : History :=
  [(py "2026-11-02", []); (py "2026-11-03", [tricky; tricky])].

(** A posting with surrogates that stand alone: a high one, a low one
    before a high one, and a high and a low one kept apart. *)
Definition lone : Listing :=
  mkListing [55357] [56832; 55357] (py "https://www.indeed.com/job/3")
            [55357; 120; 56832].

Definition history_lone : History :=
  [(py "2026-11-02", [tricky]); (py "2026-11-03", [lone; tricky])].

(** A title that holds a high and a low surrogate side by side, and the
    same with the one character the two encode in UTF-16. *)
Definition history_pair : History :=
  [(py "2026-11-03", [mkListing [55357; 56832] [] [] []])].

Definition history_joined : History :=
  [(py "2026-11-03", [mkListing [128512] [] [] []])].

(** ** Further inputs *)

(** ZipRecruiter cards: one with an absolute link and a company, one
    with a relative link and no company, one with no link at all. *)
Definition zip_card_absolute : Element :=
  mkElement
    (tags [(py "a", anchor (py "Cargo Pilot") (py "https://jobs.example.com/77"));
           (py "a.t_org_link", mkTag (py "Desert Air") [])])
    no_cells [].

Definition zip_card_relative : Element :=
  mkElement (tags [(py "a", anchor (py "Caravan Pilot") (py "/jobs/78"))])
    no_cells [].

Definition zip_card_no_link : Element := mkElement no_tags no_cells [].

Definition zip_page : Soup :=
  page (py "article.job_content")
       [zip_card_absolute; zip_card_no_link; zip_card_relative].

(** A table with a heading row without cells, a one-cell row and a
    full row. *)
Definition pcc_page : Soup :=
  page (py "table tr")
       [mkElement no_tags no_cells [];
        mkElement no_tags (fun _ => [mkTag (py "Phoenix") []]) [];
        pcc_row0].

(** Every board answers, each with a small page. *)
Definition net_small : Net :=
  net_of [(URL_INDEED, indeed_page_ok);
          (URL_ZIP, zip_page);
          (URL_PCC, pcc_page);
          (URL_GLASSDOOR, page (py "li.react-job-listing") [glassdoor_card0])].

(** A history with a key that is not a date. *)
Definition history_bad_key : History :=
  [(py "2026-10-20", [caravan_pilot]); (py "yesterday", [accountant])].

(** A world whose history file holds [history_bad_key]. *)
Definition world_bad_key : World :=
  mkWorld (Some (Json.dump history_bad_key)) None [] today0.

(** A world whose history file holds [history0]. *)
Definition world_saved : World :=
  mkWorld (Some (Json.dump history0)) None [] today0.

(** The history of a first run on 3 November 2026 and the world it
    leaves. *)
Definition history_first : History := [(py "2026-11-03", [caravan_pilot])].

Definition world_after_first : World :=
  mkWorld (Some (Json.dump history_first)) None [] today0.

End Examples.

(* ================================================================== *)
(** * Part III: properties *)
(* ================================================================== *)

Ltac zdm := Z.div_mod_to_equations; lia.

(** ** Strings *)

Module StrFacts.
Import Spec Examples.

Lemma eqb_eq (s t : str) : Str.eqb s t = true <-> s = t.
Proof.
  unfold Str.eqb. destruct (list_eq_dec Z.eq_dec s t); split; congruence.
Qed.

Lemma eqb_refl (s : str) : Str.eqb s s = true.
Proof. now apply eqb_eq. Qed.

Lemma eqb_neq (s t : str) : Str.eqb s t = false <-> s <> t.
Proof.
  unfold Str.eqb. destruct (list_eq_dec Z.eq_dec s t); split; congruence.
Qed.

Lemma startswith_spec (p s : str) :
  Str.startswith p s = true <-> exists post, s = p ++ post.
Proof.
  revert s. induction p as [|a p IH]; intros s; simpl.
  - split; [intros _; now exists s | trivial].
  - destruct s as [|b s].
    + split; [discriminate | intros [post H]; discriminate].
    + rewrite andb_true_iff, Z.eqb_eq, IH. split.
      * intros [-> [post ->]]. now exists post.
      * intros [post H]. injection H as -> ->. split; [reflexivity | now exists post].
Qed.

Lemma contains_spec (k s : str) :
  Str.contains k s = true <-> substring k s.
Proof.
  unfold substring. induction s as [|c s IH].
  - simpl. rewrite orb_false_r, startswith_spec. split.
    + intros [post H]. now exists [], post.
    + intros [pre [post H]]. destruct pre; simpl in H.
      * now exists post.
      * discriminate.
  - cbn [Str.contains]. rewrite orb_true_iff, startswith_spec, IH. split.
    + intros [[post H] | [pre [post H]]].
      * now exists [], post.
      * exists (c :: pre), post. simpl. now f_equal.
    + intros [[|c' pre] [post H]].
      * left. now exists post.
      * right. simpl in H. injection H as _ H. now exists pre, post.
Qed.

Lemma contains_nil (s : str) : Str.contains [] s = true.
Proof. destruct s; reflexivity. Qed.

End StrFacts.

(** ** The keyword filter *)

Module FilterFacts.
Import Scraper StrFacts Spec Examples.

Section WithLower.
Variable lower : str -> str.

Lemma existsb_passes K L :
  lowercase lower K ->
  existsb (fun k => Str.contains k (job_text lower L)) K = true <-> passes lower K L.
Proof.
  intros HK. rewrite existsb_exists. unfold passes, ci_substring, job_text.
  split; intros [k [Hin H]]; exists k; split; trivial.
  - rewrite (HK k Hin). now apply contains_spec.
  - apply contains_spec. now rewrite <- (HK k Hin).
Qed.

Lemma filter_jobs_with_nil jobs : filter_jobs_with lower [] jobs = [].
Proof. induction jobs as [|j jobs IH]; simpl; trivial. Qed.

(** C2.  For a keyword list of lower-case keywords (the keyword set of
    the external interfaces) and any list of postings, the filter returns
    the order-preserving subsequence of exactly the postings in which
    some keyword occurs, case ignored, in title + " " + company; for the
    empty keyword list the result is empty. *)
Theorem filter_jobs_with_correct (K : list str) (jobs : list Listing) :
  lowercase lower K ->
  Selects (passes lower K) jobs (filter_jobs_with lower K jobs)
  /\ filter_jobs_with lower [] jobs = [].
Proof.
  intros HK. split; [|apply filter_jobs_with_nil].
  induction jobs as [|j jobs IH]; simpl.
  - constructor.
  - destruct (existsb _ K) eqn:E.
    + apply Selects_keep; trivial. now apply existsb_passes.
    + apply Selects_drop; trivial. intros HP.
      apply existsb_passes in HP; trivial. congruence.
Qed.

End WithLower.

Lemma KEYWORDS_lowercase : lowercase Str.ascii_lower KEYWORDS.
Proof.
  intros k Hk. simpl in Hk.
  repeat (destruct Hk as [<- | Hk]; [reflexivity|]). destruct Hk.
Qed.

Lemma filter_jobs_with_correct_witness :
  lowercase Str.ascii_lower KEYWORDS
  /\ Selects (passes Str.ascii_lower KEYWORDS) [caravan_pilot; accountant]
       (filter_jobs_with Str.ascii_lower KEYWORDS [caravan_pilot; accountant]).
Proof.
  split; [exact KEYWORDS_lowercase|].
  exact (proj1 (filter_jobs_with_correct Str.ascii_lower KEYWORDS
                  [caravan_pilot; accountant] KEYWORDS_lowercase)).
Defined.

(** The scenario of the specification: of a caravan pilot and an
    accountant, the keyword "caravan" keeps the pilot. *)
Example filter_scenario :
  filter_jobs_with Str.ascii_lower [py "caravan"] [caravan_pilot; accountant]
  = [caravan_pilot]
  /\ filter_jobs Str.ascii_lower [caravan_pilot; accountant] = [caravan_pilot].
Proof. split; reflexivity. Qed.

End FilterFacts.

(** ** The source adapters *)

Module AdapterFacts.
Import Scraper Spec Examples.

Section Loop.
Context {A : Type} (body : A -> result (option Listing)).

Lemma for_each_acc (l : list A) (jobs : list Listing) :
  for_each body l jobs
  = (out <- for_each body l [] ;; Ok (jobs ++ out)).
Proof.
  revert jobs. induction l as [|x l IH]; intros jobs; simpl.
  - now rewrite app_nil_r.
  - destruct (body x) as [[j|]|e]; trivial.
    + rewrite (IH (jobs ++ [j])), (IH [j]).
      destruct (for_each body l []); simpl; trivial.
      now rewrite <- app_assoc.
Qed.

Lemma for_each_cons (x : A) (l : list A) :
  for_each body (x :: l) []
  = (r <- body x ;; out <- for_each body l [] ;; Ok (contribution r ++ out)).
Proof.
  simpl. destruct (body x) as [[j|]|e]; simpl; trivial.
  - now rewrite for_each_acc.
  - destruct (for_each body l []); trivial.
Qed.

Lemma for_each_app (l1 l2 : list A) :
  for_each body (l1 ++ l2) []
  = (o1 <- for_each body l1 [] ;; o2 <- for_each body l2 [] ;; Ok (o1 ++ o2)).
Proof.
  induction l1 as [|x l1 IH].
  - simpl. destruct (for_each body l2 []); trivial.
  - rewrite <- app_comm_cons, !for_each_cons.
    destruct (body x) as [r|e]; simpl; trivial.
    rewrite IH. destruct (for_each body l1 []); simpl; trivial.
    destruct (for_each body l2 []); simpl; trivial.
    now rewrite app_assoc.
Qed.

(** A loop that returns has run its body on every element without an
    exception, and returns the contributions in page order. *)
Lemma for_each_split (pre post : list A) (e : A) (jobs : list Listing) :
  for_each body (pre ++ e :: post) [] = Ok jobs ->
  exists before r after,
    for_each body pre [] = Ok before /\ body e = Ok r
    /\ for_each body post [] = Ok after
    /\ jobs = before ++ contribution r ++ after.
Proof.
  rewrite for_each_app, for_each_cons.
  destruct (for_each body pre []) as [before|]; simpl; [|discriminate].
  destruct (body e) as [r|]; simpl; [|discriminate].
  destruct (for_each body post []) as [after|]; simpl; [|discriminate].
  intros [= <-]. now exists before, r, after.
Qed.

(** One element that raises makes the whole loop raise. *)
Lemma for_each_raise (pre post : list A) (e : A) (x : exn) :
  body e = Raise x ->
  exists x', for_each body (pre ++ e :: post) [] = Raise x'.
Proof.
  intros He. rewrite for_each_app, for_each_cons, He.
  destruct (for_each body pre []) as [before|x']; simpl; eauto.
Qed.

End Loop.

Lemma fetch_unfold (a : Adapter) (net : Net) (url : str) :
  fetch a net url
  = (soup <- net url ;; for_each (body a url) (soup (container a)) []).
Proof. destruct a; reflexivity. Qed.

(** The company of a posting is the text its element offers, taken as
    it is, and "Unknown" when the element offers none. *)
Lemma body_company (a : Adapter) (url : str) (e : Element) (L : Listing) :
  body a url e = Ok (Some L) ->
  company L = match company_text a e with
              | Some c => c
              | None => py "Unknown"
              end.
Proof.
  destruct a; cbn [body company_text].
  - unfold indeed_card.
    destruct (select_one e (py "h2")); cbn [rbind]; [|discriminate].
    destruct (select_one e (py "a")) as [a|]; cbn [rbind]; [|discriminate].
    destruct (getitem a (py "href")); cbn [rbind]; [|discriminate].
    intros [= <-]. now destruct (select_one e (py "span.companyName")).
  - unfold zip_card.
    destruct (select_one e (py "a")) as [a|]; [|discriminate].
    destruct (getitem a (py "href")); cbn [rbind]; [|discriminate].
    intros [= <-]. now destruct (select_one e (py "a.t_org_link")).
  - unfold pcc_row.
    destruct (find_all e (py "td")) as [|c0 [|c1 cs]]; try discriminate.
    now intros [= <-].
  - unfold glassdoor_card, get_default. intros [= <-]. cbn [company].
    now destruct (Dict.get (attrs e) (py "data-company")).
Qed.

(** A table row that gives a posting has a second cell. *)
Lemma pcc_row_company (url : str) (e : Element) (L : Listing) :
  pcc_row url e = Ok (Some L) -> company_text PilotCareerCenter e <> None.
Proof.
  unfold pcc_row. cbn [company_text].
  destruct (find_all e (py "td")) as [|c0 [|c1 cs]]; discriminate.
Qed.

(** C8, as the code has it.  For every adapter and every page it
    returns postings for: an element of the page contributes at most one
    posting, in page order, and that posting's company is the text the
    element offers for it, taken as it is (also when it is blank), and
    the literal "Unknown" when the element offers none.  A
    PilotCareerCenter row that gives a posting always offers one, its
    second cell. *)
Theorem company_text_or_unknown
  (a : Adapter) (net : Net) (url : str) (soup : Soup)
  (pre post : list Element) (e : Element) (jobs : list Listing) :
  net url = Ok soup ->
  soup (container a) = pre ++ e :: post ->
  fetch a net url = Ok jobs ->
  exists before r after,
    jobs = before ++ contribution r ++ after
    /\ for_each (body a url) pre [] = Ok before
    /\ body a url e = Ok r
    /\ for_each (body a url) post [] = Ok after
    /\ forall L, r = Some L ->
         company L = match company_text a e with
                     | Some c => c
                     | None => py "Unknown"
                     end
         /\ (a = PilotCareerCenter -> company_text a e <> None).
Proof.
  intros Hnet Hpage Hfetch.
  rewrite fetch_unfold, Hnet in Hfetch. cbn [rbind] in Hfetch.
  rewrite Hpage in Hfetch.
  destruct (for_each_split _ _ _ _ _ Hfetch) as (before & r & after & H1 & H2 & H3 & H4).
  exists before, r, after. repeat split; trivial.
  - subst r. now apply (body_company a url).
  - intros ->. subst r. now apply (pcc_row_company url e L).
Qed.

(** *** On worked pages *)

Lemma company_text_or_unknown_witness :
  exists before r after,
    [mkListing (py "Caravan Pilot") (py "Unknown")
       (py "https://www.indeed.com/rc/clk?jk=1") (py "Indeed");
     mkListing (py "PC-12 Captain") (py "Desert Air")
       (py "https://www.indeed.com/rc/clk?jk=3") (py "Indeed")]
    = before ++ contribution r ++ after
    /\ for_each (body Indeed URL_INDEED) [] [] = Ok before
    /\ body Indeed URL_INDEED indeed_card_no_company = Ok r
    /\ for_each (body Indeed URL_INDEED) [indeed_card_full] [] = Ok after
    /\ forall L, r = Some L ->
         company L = match company_text Indeed indeed_card_no_company with
                     | Some c => c
                     | None => py "Unknown"
                     end
         /\ (Indeed = PilotCareerCenter ->
             company_text Indeed indeed_card_no_company <> None).
Proof.
  apply (company_text_or_unknown Indeed
           (net_of [(URL_INDEED, indeed_page_ok)]) URL_INDEED indeed_page_ok
           [] [indeed_card_full] indeed_card_no_company);
    reflexivity.
Defined.

(** C8, as stated, fails: a table row whose company cell is blank and
    an Indeed card whose company element is blank have no company to
    extract and give a posting, and its company is the empty string, not
    "Unknown". *)
Lemma blank_company_is_not_unknown :
  no_company PilotCareerCenter pcc_row_blank
  /\ fetch PilotCareerCenter
       (net_of [(URL_PCC, page (py "table tr") [pcc_row_blank])]) URL_PCC
     = Ok [mkListing (py "Caravan First Officer") [] URL_PCC
             (py "PilotCareerCenter")]
  /\ no_company Indeed indeed_card_blank_company
  /\ fetch Indeed
       (net_of [(URL_INDEED,
                 page (py "div.job_seen_beacon") [indeed_card_blank_company])])
       URL_INDEED
     = Ok [mkListing (py "Caravan Pilot") []
             (py "https://www.indeed.com/rc/clk?jk=4") (py "Indeed")]
  /\ ([] : str) <> py "Unknown".
Proof.
  split; [right; reflexivity|]. split; [reflexivity|].
  split; [right; reflexivity|]. split; [reflexivity|]. discriminate.
Qed.

(** C5, on the code.  An Indeed page whose first card has no heading:
    the adapter raises instead of passing the card over, and the complete
    card after it is lost with it. *)
Theorem fetch_indeed_malformed_card_raises :
  fetch_indeed
    (net_of [(URL_INDEED,
              page (py "div.job_seen_beacon")
                   [indeed_card_no_title; indeed_card_full])])
    URL_INDEED
  = Raise AttributeError
  /\ indeed_card indeed_card_full
     = Ok (Some (mkListing (py "PC-12 Captain") (py "Desert Air")
                   (py "https://www.indeed.com/rc/clk?jk=3") (py "Indeed"))).
Proof. split; reflexivity. Qed.

(** In general: an Indeed card without a heading or without a link, and
    a ZipRecruiter card whose link has no [href], make their adapter
    raise, whatever else is on the page. *)
Lemma indeed_card_raises (card : Element) :
  select_one card (py "h2") = None \/ select_one card (py "a") = None ->
  exists x, indeed_card card = Raise x.
Proof.
  unfold indeed_card. intros [H | H]; rewrite H; simpl; eauto.
  destruct (select_one card (py "h2")); simpl; eauto.
Qed.

Lemma fetch_indeed_raises (net : Net) (url : str) (soup : Soup)
  (pre post : list Element) (card : Element) :
  net url = Ok soup ->
  soup (py "div.job_seen_beacon") = pre ++ card :: post ->
  select_one card (py "h2") = None \/ select_one card (py "a") = None ->
  exists x, fetch_indeed net url = Raise x.
Proof.
  intros Hnet Hpage Hcard. unfold fetch_indeed. rewrite Hnet. simpl.
  rewrite Hpage. destruct (indeed_card_raises card Hcard) as [x Hx].
  eapply for_each_raise; eauto.
Qed.

(** The sibling adapter does pass over a card it cannot use: a
    ZipRecruiter card with no link contributes nothing and the loop goes
    on. *)
Lemma fetch_zip_skips_card_without_link (net : Net) (url : str) (soup : Soup)
  (pre post : list Element) (card : Element) :
  net url = Ok soup ->
  soup (py "article.job_content") = pre ++ card :: post ->
  select_one card (py "a") = None ->
  fetch_zip net url
  = (o1 <- for_each zip_card pre [] ;;
     o2 <- for_each zip_card post [] ;; Ok (o1 ++ o2)).
Proof.
  intros Hnet Hpage Hcard. unfold fetch_zip. rewrite Hnet. simpl.
  rewrite Hpage, for_each_app, for_each_cons.
  unfold zip_card at 2. rewrite Hcard. simpl.
  destruct (for_each zip_card pre []); simpl; trivial.
  destruct (for_each zip_card post []); simpl; trivial.
Qed.

End AdapterFacts.

(** ** The calendar *)

Module CalendarFacts.
Import Calendar Spec Examples.

Lemma digit_val_digit d : 0 <= d <= 9 -> digit_val (Str.digit d) = Some d.
Proof.
  intros H. unfold digit_val, Str.digit.
  replace ((48 <=? 48 + d) && (48 + d <=? 57)) with true by (symmetry; apply andb_true_iff; split; apply Z.leb_le; lia).
  f_equal. lia.
Qed.

Lemma digit_val_inv c v : digit_val c = Some v -> 0 <= v <= 9 /\ c = Str.digit v.
Proof.
  unfold digit_val, Str.digit. destruct ((48 <=? c) && (c <=? 57)) eqn:E; [|discriminate].
  apply andb_true_iff in E. destruct E as [E1 E2]. apply Z.leb_le in E1, E2.
  intros [= <-]. lia.
Qed.

Lemma parse_pad2 n : 0 <= n <= 99 -> parse_digits (pad2 n) 0 = Some n.
Proof.
  intros H. unfold pad2, parse_digits.
  rewrite !digit_val_digit by (Z.div_mod_to_equations; lia).
  f_equal. Z.div_mod_to_equations; lia.
Qed.

Lemma parse_pad4 n : 0 <= n <= 9999 -> parse_digits (pad4 n) 0 = Some n.
Proof.
  intros H. unfold pad4, parse_digits.
  rewrite !digit_val_digit by (Z.div_mod_to_equations; lia).
  f_equal. Z.div_mod_to_equations; lia.
Qed.

Lemma parse2_inv a b n : parse_digits [a; b] 0 = Some n -> 0 <= n <= 99 /\ pad2 n = [a; b].
Proof.
  unfold parse_digits.
  destruct (digit_val a) as [x|] eqn:Ea; [|discriminate].
  destruct (digit_val b) as [y|] eqn:Eb; [|discriminate].
  apply digit_val_inv in Ea, Eb. destruct Ea as [Hx ->], Eb as [Hy ->].
  intros [= <-]. split; [lia|]. unfold pad2. 
  f_equal; [|f_equal]; f_equal; Z.div_mod_to_equations; lia.
Qed.

Lemma parse4_inv a b c d n : parse_digits [a; b; c; d] 0 = Some n -> 0 <= n <= 9999 /\ pad4 n = [a; b; c; d].
Proof.
  unfold parse_digits.
  destruct (digit_val a) as [x|] eqn:Ea; [|discriminate].
  destruct (digit_val b) as [y|] eqn:Eb; [|discriminate].
  destruct (digit_val c) as [z|] eqn:Ec; [|discriminate].
  destruct (digit_val d) as [w|] eqn:Ed; [|discriminate].
  apply digit_val_inv in Ea, Eb, Ec, Ed. destruct Ea as [Hx ->], Eb as [Hy ->], Ec as [Hz ->], Ed as [Hw ->].
  intros [= <-]. split; [lia|]. unfold pad4. 
  repeat (f_equal; try (Z.div_mod_to_equations; lia)).
Qed.

Lemma is_leap_true y : is_leap y = true <-> (y mod 4 = 0 /\ (y mod 100 <> 0 \/ y mod 400 = 0)).
Proof.
  unfold is_leap. rewrite andb_true_iff, orb_true_iff, negb_true_iff, !Z.eqb_eq, Z.eqb_neq. tauto.
Qed.

Lemma days_before_year_succ y :
  days_before_year (y + 1) = days_before_year y + 365 + leap_day y.
Proof.
  unfold days_before_year, leap_day. cbv zeta.
  destruct (is_leap y) eqn:E.
  - apply is_leap_true in E. zdm.
  - assert (~ (y mod 4 = 0 /\ (y mod 100 <> 0 \/ y mod 400 = 0))) as N
      by (rewrite <- is_leap_true; congruence).
    zdm.
Qed.

Lemma days_before_year_mono y y' : y <= y' -> days_before_year y <= days_before_year y'.
Proof. unfold days_before_year. cbv zeta. intros. zdm. Qed.

Lemma forallb_range (P : Z -> bool) (k : nat) :
  forallb P (map Z.of_nat (List.seq 0%nat k)) = true ->
  forall n, 0 <= n < Z.of_nat k -> P n = true.
Proof.
  rewrite forallb_forall. intros H n Hn. apply H.
  apply in_map_iff. exists (Z.to_nat n). split; [lia|].
  apply in_seq. lia.
Qed.

Lemma month_day_ok_all (leap : bool) (n : Z) :
  0 <= n < (if leap then 366 else 365) -> month_day_ok leap n = true.
Proof.
  destruct leap; intros H.
  - apply (forallb_range (month_day_ok true) 366); [vm_compute; reflexivity | lia].
  - apply (forallb_range (month_day_ok false) 365); [vm_compute; reflexivity | lia].
Qed.

Lemma days_before_year_step y y' :
  y <= y' -> days_before_year y + 365 * (y' - y) <= days_before_year y'.
Proof. unfold days_before_year. cbv zeta. intros. zdm. Qed.

Lemma days_before_year_cycle a b c d :
  0 <= b <= 3 -> 0 <= c <= 24 -> 0 <= d <= 3 ->
  days_before_year (400 * a + 100 * b + 4 * c + d + 1)
  = 146097 * a + 36524 * b + 1461 * c + 365 * d.
Proof. unfold days_before_year. cbv zeta. intros. zdm. Qed.

Lemma is_leap_cycle a b c d :
  0 <= b <= 3 -> 0 <= c <= 24 -> 0 <= d <= 3 ->
  is_leap (400 * a + 100 * b + 4 * c + d + 1)
  = (d =? 3) && (negb (c =? 24) || (b =? 3)).
Proof.
  intros Hb Hc Hd. apply eq_true_iff_eq.
  rewrite is_leap_true, andb_true_iff, orb_true_iff, negb_true_iff,
    !Z.eqb_eq, Z.eqb_neq.
  zdm.
Qed.

Lemma valid_iff d :
  valid d = true <->
  1 <= year d <= 9999 /\ 1 <= month d <= 12
  /\ 1 <= day d <= days_in_month (year d) (month d).
Proof.
  unfold valid, MINYEAR, MAXYEAR. rewrite !andb_true_iff, !Z.leb_le. tauto.
Qed.

Lemma ord2ymd_correct n :
  1 <= n <= MAXORDINAL ->
  valid (ord2ymd n) = true /\ toordinal (ord2ymd n) = n.
Proof.
  unfold MAXORDINAL. intros Hn.
  unfold ord2ymd, DI400Y, DI100Y, DI4Y. cbv zeta.
  pose proof (Z.div_mod (n - 1) 146097 ltac:(lia)) as E1.
  pose proof (Z.mod_pos_bound (n - 1) 146097 ltac:(lia)) as B1.
  set (a := (n - 1) / 146097) in *. set (r1 := (n - 1) mod 146097) in *.
  pose proof (Z.div_mod r1 36524 ltac:(lia)) as E2.
  pose proof (Z.mod_pos_bound r1 36524 ltac:(lia)) as B2.
  set (b := r1 / 36524) in *. set (r2 := r1 mod 36524) in *.
  pose proof (Z.div_mod r2 1461 ltac:(lia)) as E3.
  pose proof (Z.mod_pos_bound r2 1461 ltac:(lia)) as B3.
  set (c := r2 / 1461) in *. set (r3 := r2 mod 1461) in *.
  pose proof (Z.div_mod r3 365 ltac:(lia)) as E4.
  pose proof (Z.mod_pos_bound r3 365 ltac:(lia)) as B4.
  set (d := r3 / 365) in *. set (r := r3 mod 365) in *.
  clearbody a r1 b r2 c r3 d r.
  assert (0 <= a) by lia. assert (0 <= b <= 4) by lia.
  assert (0 <= c <= 24) by lia. assert (0 <= d <= 4) by lia.
  destruct ((d =? 4) || (b =? 4)) eqn:Esp.
  - (* the last day of a cycle *)
    apply orb_true_iff in Esp. rewrite !Z.eqb_eq in Esp.
    set (Y := a * 400 + 1 + b * 100 + c * 4 + d - 1).
    assert (HY : days_before_year (Y + 1) = n).
    { destruct Esp as [-> | ->].
      - replace (Y + 1) with (400 * a + 100 * b + 4 * (c + 1) + 0 + 1) by (unfold Y; lia).
        rewrite days_before_year_cycle; lia.
      - replace (Y + 1) with (400 * (a + 1) + 100 * 0 + 4 * 0 + 0 + 1) by (unfold Y; lia).
        rewrite days_before_year_cycle; lia. }
    assert (HL : is_leap Y = true).
    { destruct Esp as [-> | ->].
      - replace Y with (400 * a + 100 * b + 4 * c + 3 + 1) by (unfold Y; lia).
        rewrite is_leap_cycle by lia. 
        replace (c =? 24) with false by (symmetry; apply Z.eqb_neq; lia). reflexivity.
      - replace Y with (400 * a + 100 * 3 + 4 * 24 + 3 + 1) by (unfold Y; lia).
        rewrite is_leap_cycle by lia. reflexivity. }
    pose proof (days_before_year_succ Y) as HS. unfold leap_day in HS. rewrite HL in HS.
    split.
    + apply valid_iff. cbn [year month day]. unfold days_in_month. simpl.
      assert (Y <= 9999).
      { destruct (Z_le_gt_dec Y 9999); trivial.
        pose proof (days_before_year_step 10001 (Y + 1) ltac:(lia)) as HM.
        change (days_before_year 10001) with 3652425 in HM. lia. }
      assert (1 <= Y) by (unfold Y; lia). lia.
    + unfold toordinal, ymd2ord, days_before_month. cbn [year month day].
      rewrite HL. simpl. lia.
  - apply orb_false_iff in Esp. rewrite !Z.eqb_neq in Esp.
    set (leap := (d =? 3) && (negb (c =? 24) || (b =? 3))).
    set (Y := a * 400 + 1 + b * 100 + c * 4 + d).
    assert (EY : Y = 400 * a + 100 * b + 4 * c + d + 1) by (unfold Y; lia).
    assert (HY : days_before_year Y = n - 1 - r)
      by (rewrite EY, days_before_year_cycle; lia).
    assert (HL : is_leap Y = leap) by (rewrite EY; apply is_leap_cycle; lia).
    pose proof (month_day_ok_all leap r ltac:(destruct leap; lia)) as Hmd.
    unfold month_day_ok, month_day in Hmd. cbv zeta in Hmd.
    assert (HYr : 1 <= Y <= 9999).
    { split; [unfold Y; lia|].
      destruct (Z_le_gt_dec Y 9999); trivial.
      pose proof (days_before_year_step 10000 Y ltac:(lia)) as HM.
      change (days_before_year 10000) with 3652059 in HM. lia. }
    destruct (r <? _) eqn:Elt;
      rewrite !andb_true_iff, !Z.leb_le, Z.eqb_eq in Hmd;
      (split;
       [ apply valid_iff; cbn [year month day]; unfold days_in_month; rewrite HL; lia
       | unfold toordinal, ymd2ord, days_before_month; cbn [year month day];
         rewrite HL; lia ]).
Qed.

Ltac month_cases m :=
  let H := fresh in
  assert (H : m = 1 \/ m = 2 \/ m = 3 \/ m = 4 \/ m = 5 \/ m = 6 \/ m = 7
              \/ m = 8 \/ m = 9 \/ m = 10 \/ m = 11 \/ m = 12) by lia;
  repeat (destruct H as [-> | H]); [..| subst m].

Lemma day_of_year_bounds y m d :
  1 <= m <= 12 -> 1 <= d <= days_in_month y m ->
  1 <= days_before_month y m + d <= 365 + leap_day y.
Proof.
  unfold days_in_month, days_before_month, leap_day. intros Hm.
  month_cases m; destruct (is_leap y); cbv -[Z.add Z.le Z.lt]; lia.
Qed.

Lemma month_span y m m' d :
  1 <= m -> m < m' -> m' <= 12 -> d <= days_in_month y m ->
  days_before_month y m + d <= days_before_month y m'.
Proof.
  unfold days_in_month, days_before_month. intros H1 H2 H3.
  month_cases m; month_cases m'; try lia;
    destruct (is_leap y); cbv -[Z.add Z.le Z.lt]; lia.
Qed.

Lemma before_toordinal a b :
  valid a = true -> valid b = true ->
  before a b = true -> toordinal a < toordinal b.
Proof.
  rewrite !valid_iff. intros (Hy & Hm & Hd) (Hy' & Hm' & Hd').
  unfold before, toordinal, ymd2ord.
  rewrite !orb_true_iff, !andb_true_iff, orb_true_iff, andb_true_iff, !Z.ltb_lt, !Z.eqb_eq.
  pose proof (day_of_year_bounds _ _ _ Hm Hd).
  pose proof (day_of_year_bounds _ _ _ Hm' Hd').
  intros [Hlt | [Heq [Hlt | [Heq' Hlt]]]].
  - pose proof (days_before_year_succ (year a)).
    pose proof (days_before_year_mono (year a + 1) (year b) ltac:(lia)). lia.
  - rewrite Heq in *. pose proof (month_span (year b) (month a) (month b) (day a)). lia.
  - rewrite Heq, Heq'. lia.
Qed.

Lemma before_trichotomy a b : before a b = true \/ a = b \/ before b a = true.
Proof.
  destruct a as [y m d], b as [y' m' d']. unfold before. cbn [year month day].
  rewrite !orb_true_iff, !andb_true_iff, !orb_true_iff, !andb_true_iff, !Z.ltb_lt, !Z.eqb_eq.
  destruct (Z.lt_total y y') as [?|[->|?]]; auto.
  destruct (Z.lt_total m m') as [?|[->|?]]; auto 6.
  destruct (Z.lt_total d d') as [?|[->|?]]; auto 8.
Qed.

Lemma before_iff_toordinal a b :
  valid a = true -> valid b = true ->
  (before a b = true <-> toordinal a < toordinal b).
Proof.
  intros Ha Hb. split; [now apply before_toordinal|].
  intros Hlt. destruct (before_trichotomy a b) as [H | [-> | H]]; trivial.
  - lia.
  - apply before_toordinal in H; trivial. lia.
Qed.

Lemma geb_iff_toordinal a b :
  valid a = true -> valid b = true ->
  (geb a b = true <-> toordinal b <= toordinal a).
Proof.
  intros Ha Hb. unfold geb. rewrite negb_true_iff.
  pose proof (before_iff_toordinal a b Ha Hb). destruct (before a b).
  - split; [discriminate|]. intros. assert (toordinal a < toordinal b) by now apply H. lia.
  - split; trivial. intros _. destruct (Z_le_gt_dec (toordinal b) (toordinal a)); trivial.
    assert (false = true) by (apply H; lia). discriminate.
Qed.

Lemma toordinal_inj a b :
  valid a = true -> valid b = true -> toordinal a = toordinal b -> a = b.
Proof.
  intros Ha Hb E. destruct (before_trichotomy a b) as [H | [-> | H]]; trivial;
    apply before_toordinal in H; trivial; lia.
Qed.

Lemma toordinal_range d : valid d = true -> 1 <= toordinal d <= MAXORDINAL.
Proof.
  intros Hv. pose proof Hv as Hv'. apply valid_iff in Hv'. destruct Hv' as (Hy & Hm & Hd).
  pose proof (day_of_year_bounds _ _ _ Hm Hd).
  unfold toordinal, ymd2ord, MAXORDINAL.
  pose proof (days_before_year_mono 1 (year d) ltac:(lia)) as H1.
  pose proof (days_before_year_succ (year d)).
  pose proof (days_before_year_mono (year d + 1) 10000 ltac:(lia)) as H2.
  change (days_before_year 1) with 0 in H1.
  change (days_before_year 10000) with 3652059 in H2. lia.
Qed.

Lemma fromordinal_toordinal d : valid d = true -> fromordinal (toordinal d) = d.
Proof.
  intros Hv. pose proof (toordinal_range d Hv) as Hr.
  destruct (ord2ymd_correct _ Hr) as [Hv' Ho].
  now apply toordinal_inj.
Qed.

Lemma days_in_month_le_31 y m : 1 <= m <= 12 -> days_in_month y m <= 31.
Proof.
  unfold days_in_month. intros Hm.
  month_cases m; destruct (is_leap y); cbv -[Z.le]; lia.
Qed.

Lemma fromisoformat_isoformat d :
  valid d = true -> fromisoformat (isoformat d) = Some d.
Proof.
  intros Hv. pose proof Hv as Hv'. apply valid_iff in Hv'.
  destruct Hv' as (Hy & Hm & Hd).
  pose proof (days_in_month_le_31 (year d) (month d) Hm).
  unfold isoformat, fromisoformat. cbn [app pad4 pad2].
  change (dash =? dash) with true. cbn [andb].
  fold (pad4 (year d)). fold (pad2 (month d)). fold (pad2 (day d)).
  rewrite parse_pad4, !parse_pad2 by lia.
  destruct d as [y m dd]. cbn [year month day] in *. now rewrite Hv.
Qed.

Lemma fromisoformat_inv s d :
  fromisoformat s = Some d -> valid d = true /\ isoformat d = s.
Proof.
  unfold fromisoformat.
  destruct s as [|y1 [|y2 [|y3 [|y4 [|s1 [|m1 [|m2 [|s2 [|d1 [|d2 [|]]]]]]]]]]];
    try discriminate.
  destruct ((s1 =? dash) && (s2 =? dash)) eqn:Es; [|discriminate].
  apply andb_true_iff in Es. destruct Es as [E1 E2]. apply Z.eqb_eq in E1, E2. subst.
  destruct (parse_digits [y1; y2; y3; y4] 0) as [y|] eqn:Ey; [|discriminate].
  destruct (parse_digits [m1; m2] 0) as [m|] eqn:Em; [|discriminate].
  destruct (parse_digits [d1; d2] 0) as [dd|] eqn:Ed; [|discriminate].
  destruct (valid (mkdate y m dd)) eqn:Ev; [|discriminate].
  intros [= <-]. split; trivial.
  apply parse4_inv in Ey. apply parse2_inv in Em, Ed.
  destruct Ey as [_ Ey], Em as [_ Em], Ed as [_ Ed].
  unfold isoformat. cbn [year month day]. rewrite Ey, Em, Ed. reflexivity.
Qed.

Lemma str_ltb_app (p p' s s' : str) :
  List.length p = List.length p' ->
  Str.ltb (p ++ s) (p' ++ s')
  = Str.ltb p p' || (Str.eqb p p' && Str.ltb s s').
Proof.
  revert p'. induction p as [|a p IH]; intros [|b p'] Hlen; try discriminate.
  - simpl. destruct s'; reflexivity.
  - cbn [app Str.ltb]. injection Hlen as Hlen. rewrite (IH p' Hlen).
    destruct (Z.ltb_spec a b) as [Hab|Hab]; cbn [orb].
    + reflexivity.
    + destruct (Z.eqb_spec a b) as [->|Hne]; cbn [andb].
      * assert (E : Str.eqb (b :: p) (b :: p') = Str.eqb p p').
        { unfold Str.eqb.
          destruct (list_eq_dec Z.eq_dec p p'), (list_eq_dec Z.eq_dec (b :: p) (b :: p'));
            congruence. }
        now rewrite E.
      * assert (E : Str.eqb (a :: p) (b :: p') = false).
        { unfold Str.eqb. destruct (list_eq_dec Z.eq_dec (a :: p) (b :: p')); congruence. }
        rewrite E. reflexivity.
Qed.

Lemma str_ltb_pad2 x x' :
  0 <= x <= 99 -> 0 <= x' <= 99 -> Str.ltb (pad2 x) (pad2 x') = (x <? x').
Proof.
  intros Hx Hx'. unfold pad2, Str.digit. cbn [Str.ltb].
  assert (D : forall n, 0 <= n <= 99 -> n / 10 mod 10 = n / 10) by (intros; zdm).
  rewrite !D by lia.
  apply eq_true_iff_eq.
  rewrite !orb_true_iff, !andb_true_iff, !orb_true_iff, andb_true_iff, !Z.ltb_lt, !Z.eqb_eq.
  split.
  - intros [H | [H [H' | [_ H']]]]; [| |discriminate]; zdm.
  - intros H.
    destruct (Z.lt_total (x / 10) (x' / 10)) as [?|[?|?]];
      [left; lia | right; split; [lia|left; zdm] | exfalso; zdm].
Qed.

Lemma pad2_inj x x' : 0 <= x <= 99 -> 0 <= x' <= 99 -> pad2 x = pad2 x' -> x = x'.
Proof.
  unfold pad2. intros Hx Hx' H. injection H as H1 H2.
  unfold Str.digit in H1, H2. zdm.
Qed.

Lemma str_ltb_pad4 x x' :
  0 <= x <= 9999 -> 0 <= x' <= 9999 -> Str.ltb (pad4 x) (pad4 x') = (x <? x').
Proof.
  intros Hx Hx'.
  assert (E : forall n, 0 <= n <= 9999 -> pad4 n = pad2 (n / 100) ++ pad2 (n mod 100)).
  { intros n Hn. unfold pad4, pad2. cbn [app]. unfold Str.digit.
    repeat (f_equal; try zdm). }
  rewrite !E by lia. rewrite str_ltb_app by reflexivity.
  rewrite !str_ltb_pad2 by zdm.
  apply eq_true_iff_eq.
  rewrite orb_true_iff, andb_true_iff, !Z.ltb_lt, StrFacts.eqb_eq.
  split.
  - intros [H | [H H']]; [zdm|]. apply pad2_inj in H; zdm.
  - intros H. destruct (Z.lt_total (x / 100) (x' / 100)) as [?|[He|?]].
    + now left.
    + right. rewrite He. split; [reflexivity | zdm].
    + exfalso. zdm.
Qed.

Lemma pad4_inj x x' : 0 <= x <= 9999 -> 0 <= x' <= 9999 -> pad4 x = pad4 x' -> x = x'.
Proof.
  intros Hx Hx' H.
  assert (E : forall n, 0 <= n <= 9999 -> pad4 n = pad2 (n / 100) ++ pad2 (n mod 100)).
  { intros n Hn. unfold pad4, pad2. cbn [app]. unfold Str.digit.
    repeat (f_equal; try zdm). }
  rewrite !E in H by lia.
  cbn [pad2 app] in H. injection H as H1 H2 H3 H4.
  assert (x / 100 = x' / 100) by (apply pad2_inj; [zdm | zdm | unfold pad2; congruence]).
  assert (x mod 100 = x' mod 100) by (apply pad2_inj; [zdm | zdm | unfold pad2; congruence]).
  zdm.
Qed.

Lemma valid_day_le_31 d : valid d = true -> 1 <= day d <= 31.
Proof.
  intros Hv. apply valid_iff in Hv. destruct Hv as (Hy & Hm & Hd).
  pose proof (days_in_month_le_31 (year d) (month d) Hm). lia.
Qed.

(** On valid dates the ISO strings order as the dates do. *)
Lemma isoformat_before a b :
  valid a = true -> valid b = true ->
  Str.ltb (isoformat a) (isoformat b) = before a b.
Proof.
  intros Ha Hb. pose proof (valid_day_le_31 a Ha). pose proof (valid_day_le_31 b Hb).
  apply valid_iff in Ha, Hb. destruct Ha as (Hy & Hm & _), Hb as (Hy' & Hm' & _).
  unfold isoformat, before.
  rewrite str_ltb_app by reflexivity.
  rewrite (str_ltb_app [dash] [dash]) by reflexivity.
  rewrite str_ltb_app by reflexivity.
  rewrite (str_ltb_app [dash] [dash]) by reflexivity.
  rewrite str_ltb_pad4, !str_ltb_pad2 by lia.
  change (Str.ltb [dash] [dash]) with false.
  rewrite (StrFacts.eqb_refl [dash]). cbn [orb andb].
  f_equal.
  assert (Ey : Str.eqb (pad4 (year a)) (pad4 (year b)) = (year a =? year b)).
  { apply eq_true_iff_eq. rewrite StrFacts.eqb_eq, Z.eqb_eq. split; [apply pad4_inj; lia | congruence]. }
  assert (Em : Str.eqb (pad2 (month a)) (pad2 (month b)) = (month a =? month b)).
  { apply eq_true_iff_eq. rewrite StrFacts.eqb_eq, Z.eqb_eq. split; [apply pad2_inj; lia | congruence]. }
  now rewrite Ey, Em.
Qed.

End CalendarFacts.

(** ** Dictionaries *)

Module DictFacts.
Import StrFacts.

Section WithValue.
Context {V : Type}.
Implicit Types (d : Dict.dict V) (k : str) (v : V).

Lemma get_set_eq d k v : Dict.get (Dict.set d k v) k = Some v.
Proof.
  induction d as [|[k' v'] d IH]; simpl.
  - now rewrite eqb_refl.
  - destruct (Str.eqb k' k) eqn:E; simpl.
    + now rewrite eqb_refl.
    + now rewrite E.
Qed.

Lemma get_set_ne d k k' v : k' <> k -> Dict.get (Dict.set d k v) k' = Dict.get d k'.
Proof.
  intros Hne. induction d as [|[k0 v0] d IH]; simpl.
  - apply eqb_neq in Hne. destruct (Str.eqb k k') eqn:E; trivial.
    apply eqb_eq in E. apply eqb_neq in Hne. congruence.
  - destruct (Str.eqb k0 k) eqn:E; simpl.
    + apply eqb_eq in E. subst k0.
      destruct (Str.eqb k k') eqn:E'; trivial. apply eqb_eq in E'. congruence.
    + destruct (Str.eqb k0 k'); trivial.
Qed.

Lemma get_Some_In d k v : Dict.get d k = Some v -> In (k, v) d.
Proof.
  induction d as [|[k' v'] d IH]; simpl; [discriminate|].
  destruct (Str.eqb k' k) eqn:E.
  - apply eqb_eq in E. intros [= ->]. left. now subst.
  - auto.
Qed.

Lemma get_None d k : Dict.get d k = None <-> ~ In k (Dict.keys d).
Proof.
  induction d as [|[k' v'] d IH]; simpl; [tauto|].
  destruct (Str.eqb k' k) eqn:E.
  - apply eqb_eq in E. split; [discriminate | tauto].
  - apply eqb_neq in E. rewrite IH. tauto.
Qed.

Lemma In_get d k v : NoDup (Dict.keys d) -> In (k, v) d -> Dict.get d k = Some v.
Proof.
  induction d as [|[k' v'] d IH]; simpl; [tauto|].
  intros Hnd [H | H]; inversion Hnd as [|? ? Hni Hnd']; subst.
  - injection H as -> ->. now rewrite eqb_refl.
  - destruct (Str.eqb k' k) eqn:E; auto.
    apply eqb_eq in E. subst. exfalso. apply Hni.
    change k with (fst (k, v)). now apply in_map.
Qed.

Lemma keys_set d k v :
  Dict.keys (Dict.set d k v)
  = match Dict.get d k with
    | Some _ => Dict.keys d
    | None => Dict.keys d ++ [k]
    end.
Proof.
  induction d as [|[k' v'] d IH]; simpl; trivial.
  destruct (Str.eqb k' k) eqn:E; simpl.
  - apply eqb_eq in E. now subst.
  - rewrite IH. now destruct (Dict.get d k).
Qed.

Lemma In_keys_set d k v k' :
  In k' (Dict.keys (Dict.set d k v)) <-> k' = k \/ In k' (Dict.keys d).
Proof.
  rewrite keys_set. destruct (Dict.get d k) as [v0|] eqn:E.
  - split; [tauto | intros [-> | H]; trivial].
    apply get_Some_In in E. change k with (fst (k, v0)). now apply in_map.
  - rewrite in_app_iff. simpl. intuition.
Qed.

Lemma NoDup_keys_set d k v : NoDup (Dict.keys d) -> NoDup (Dict.keys (Dict.set d k v)).
Proof.
  intros Hnd. rewrite keys_set. destruct (Dict.get d k) as [v0|] eqn:E; trivial.
  apply get_None in E. apply NoDup_app; trivial.
  - repeat constructor. simpl. tauto.
  - intros x Hx [<- | []]. contradiction.
Qed.

Lemma length_set_bounds d k v :
  (List.length d <= List.length (Dict.set d k v) <= S (List.length d))%nat.
Proof.
  induction d as [|[k' v'] d IH]; simpl; [lia|].
  destruct (Str.eqb k' k); simpl; lia.
Qed.

(** Filtering by a predicate on the keys. *)
Lemma get_filter (P : str -> bool) d k :
  Dict.get (filter (fun e => P (fst e)) d) k = if P k then Dict.get d k else None.
Proof.
  induction d as [|[k' v'] d IH]; simpl.
  - now destruct (P k).
  - destruct (P k') eqn:EP; simpl.
    + destruct (Str.eqb k' k) eqn:E; trivial.
      apply eqb_eq in E. subst. now rewrite EP.
    + rewrite IH. destruct (Str.eqb k' k) eqn:E; trivial.
      apply eqb_eq in E. subst. now rewrite EP.
Qed.

Lemma keys_filter (P : str -> bool) d :
  Dict.keys (filter (fun e => P (fst e)) d) = filter P (Dict.keys d).
Proof.
  induction d as [|[k' v'] d IH]; simpl; trivial.
  destruct (P k'); simpl; now rewrite IH.
Qed.

End WithValue.
End DictFacts.

(** ** The history update *)

Module HistoryFacts.
Import Calendar CalendarFacts Scraper DictFacts Spec Examples.

Lemma day_keys_cons k v (h : History) :
  day_keys ((k, v) :: h) = is_day_key k && day_keys h.
Proof. reflexivity. Qed.

Lemma day_keys_In (h : History) k :
  day_keys h = true -> In k (Dict.keys h) -> exists d, fromisoformat k = Some d.
Proof.
  unfold day_keys. rewrite forallb_forall. intros H Hin.
  specialize (H k Hin). unfold is_day_key in H.
  destruct (fromisoformat k) as [d|]; [now exists d | discriminate].
Qed.

Lemma prune_eq cutoff (h : History) :
  day_keys h = true ->
  prune cutoff h = Ok (filter (fun e => keep cutoff (fst e)) h).
Proof.
  induction h as [|[k v] h IH]; trivial.
  rewrite day_keys_cons, andb_true_iff. intros [Hk Hh].
  cbn [prune filter fst]. unfold is_day_key in Hk. unfold keep at 1.
  destruct (fromisoformat k) as [d|]; [|discriminate]. simpl.
  rewrite (IH Hh). simpl. now destruct (geb d cutoff).
Qed.

Lemma prune_inv cutoff (h h' : History) :
  prune cutoff h = Ok h' ->
  day_keys h = true /\ h' = filter (fun e => keep cutoff (fst e)) h.
Proof.
  revert h'. induction h as [|[k v] h IH]; intros h'.
  - intros [= <-]. now split.
  - cbn [prune]. rewrite day_keys_cons. unfold is_day_key.
    cbn [filter fst]. unfold keep at 1.
    destruct (fromisoformat k) as [d|]; [|discriminate]. simpl.
    destruct (prune cutoff h) as [r|]; [|discriminate]. simpl.
    destruct (IH r eq_refl) as [Hk ->]. intros [= <-]. now split.
Qed.

Lemma sub_days_Some today n cutoff :
  sub_days today n = Some cutoff ->
  valid cutoff = true /\ toordinal cutoff = toordinal today - n.
Proof.
  unfold sub_days. cbv zeta.
  destruct ((0 <? toordinal today - n) && (toordinal today - n <=? MAXORDINAL)) eqn:E;
    [|discriminate].
  apply andb_true_iff in E. destruct E as [E1 E2].
  apply Z.ltb_lt in E1. apply Z.leb_le in E2.
  intros [= <-]. apply ord2ymd_correct. lia.
Qed.

Lemma sub_days_in_range today n :
  0 < toordinal today - n <= MAXORDINAL ->
  exists cutoff, sub_days today n = Some cutoff.
Proof.
  intros H. unfold sub_days. cbv zeta.
  replace ((0 <? toordinal today - n) && (toordinal today - n <=? MAXORDINAL)) with true.
  - eauto.
  - symmetry. apply andb_true_iff. split; [apply Z.ltb_lt | apply Z.leb_le]; lia.
Qed.

Lemma keep_iff today n cutoff k d :
  valid today = true -> sub_days today n = Some cutoff ->
  fromisoformat k = Some d ->
  (keep cutoff k = true <-> age today d <= n).
Proof.
  intros Hv Hc Hk. unfold keep, age. rewrite Hk.
  destruct (sub_days_Some _ _ _ Hc) as [Hvc Hoc].
  destruct (fromisoformat_inv _ _ Hk) as [Hvd _].
  rewrite geb_iff_toordinal by trivial. lia.
Qed.

(** What [update] does when it returns. *)
Lemma update_inv (h : History) today jobs n h' :
  update h today jobs n = Ok h' ->
  exists cutoff,
    sub_days today n = Some cutoff
    /\ day_keys (Dict.set h (isoformat today) jobs) = true
    /\ h' = filter (fun e => keep cutoff (fst e))
              (Dict.set h (isoformat today) jobs).
Proof.
  unfold update. cbv zeta.
  destruct (sub_days today n) as [cutoff|]; [|discriminate]. simpl.
  intros H. apply prune_inv in H. destruct H as [H1 H2]. now exists cutoff.
Qed.

Lemma day_keys_set (h : History) today jobs :
  valid today = true -> day_keys h = true ->
  day_keys (Dict.set h (isoformat today) jobs) = true.
Proof.
  intros Hv Hh. unfold day_keys in *. rewrite forallb_forall in *.
  intros k Hin. apply In_keys_set in Hin. destruct Hin as [-> | Hin]; auto.
  unfold is_day_key. now rewrite fromisoformat_isoformat.
Qed.

(** [update] returns when the keys are day-keys and the cutoff is a
    date of the supported range. *)
Lemma update_returns (h : History) today jobs n :
  valid today = true -> day_keys h = true ->
  0 < toordinal today - n <= MAXORDINAL ->
  exists h', update h today jobs n = Ok h'.
Proof.
  intros Hv Hh Hr. destruct (sub_days_in_range _ _ Hr) as [cutoff Hc].
  unfold update. cbv zeta. rewrite Hc. simpl.
  rewrite prune_eq by now apply day_keys_set. eauto.
Qed.

(** C3.  When [update] returns: every key that remains lies at most
    [n] days before [today]; every key of the history with today's
    snapshot inserted that lies at most [n] days before [today] remains,
    with its snapshot; and the keys that were pruned are the ones more
    than [n] days before [today].  It returns whenever the keys are
    day-keys and [today] minus [n] days is a supported date. *)
Theorem update_retention (h : History) (today : date)
  (jobs : list Listing) (n : Z) :
  valid today = true ->
  (forall h', update h today jobs n = Ok h' ->
     let inserted := Dict.set h (isoformat today) jobs in
     (forall k, In k (Dict.keys h') ->
        exists d, fromisoformat k = Some d /\ age today d <= n)
     /\ (forall k d, In k (Dict.keys inserted) -> fromisoformat k = Some d ->
           age today d <= n ->
           In k (Dict.keys h') /\ Dict.get h' k = Dict.get inserted k)
     /\ (forall k, In k (Dict.keys inserted) ->
           (~ In k (Dict.keys h') <->
            exists d, fromisoformat k = Some d /\ n < age today d)))
  /\ (day_keys h = true -> 0 < toordinal today - n <= MAXORDINAL ->
      exists h', update h today jobs n = Ok h').
Proof.
  intros Hv. split; [|now apply update_returns].
  intros h' Hup inserted.
  destruct (update_inv _ _ _ _ _ Hup) as (cutoff & Hc & Hkeys & ->).
  fold inserted in Hkeys |- *.
  assert (Hin : forall k, In k (Dict.keys (filter (fun e => keep cutoff (fst e)) inserted))
                 <-> In k (Dict.keys inserted) /\ keep cutoff k = true).
  { intros k. rewrite keys_filter. apply filter_In. }
  split; [|split].
  - intros k Hk. apply Hin in Hk. destruct Hk as [Hk1 Hk2].
    destruct (day_keys_In _ _ Hkeys Hk1) as [d Hd]. exists d. split; trivial.
    now apply (keep_iff today n cutoff k d).
  - intros k d Hk Hd Hage.
    assert (keep cutoff k = true) as Hkeep by now apply (keep_iff today n cutoff k d).
    split; [now apply Hin|]. now rewrite get_filter, Hkeep.
  - intros k Hk. destruct (day_keys_In _ _ Hkeys Hk) as [d Hd].
    pose proof (keep_iff today n cutoff k d Hv Hc Hd) as Hiff.
    rewrite Hin. split.
    + intros Hno. exists d. split; trivial.
      destruct (Z_le_gt_dec (age today d) n); [|lia]. tauto.
    + intros (d' & Hd' & Hold) [_ Hkeep]. rewrite Hd in Hd'. injection Hd' as <-.
      apply Hiff in Hkeep. lia.
Qed.

Lemma update_get_today (h h' : History) today jobs n :
  valid today = true -> 0 <= n -> update h today jobs n = Ok h' ->
  Dict.get h' (isoformat today) = Some jobs.
Proof.
  intros Hv Hn Hup.
  destruct (update_inv _ _ _ _ _ Hup) as (cutoff & Hc & Hkeys & ->).
  rewrite get_filter, get_set_eq.
  replace (keep cutoff (isoformat today)) with true; trivial.
  symmetry. apply (keep_iff today n cutoff _ today); trivial.
  - now apply fromisoformat_isoformat.
  - unfold age. lia.
Qed.

(** [update_history] is [update] on the history read from the file, at
    today's date and with the configured retention, followed by the
    write; when reading or updating raises, the file is left as it was. *)
Lemma update_history_unfold (jobs : list Listing) (w : World) :
  update_history jobs w
  = match load_history w with
    | (Ok h0, _) =>
        match update h0 (clock w) jobs DAYS_TO_KEEP with
        | Ok h' =>
            (Ok h',
             mkWorld (Some (Json.dump h')) (index_html w) (stdout w) (clock w))
        | Raise e => (Raise e, w)
        end
    | (Raise e, _) => (Raise e, w)
    end.
Proof.
  unfold update_history, mbind, get_today, lift, ret, save_history, load_history.
  destruct (history_file w) as [text|].
  - destruct (Json.load text) as [h0|]; simpl; trivial.
  - now destruct (update [] (clock w) jobs DAYS_TO_KEEP).
Qed.

(** C10.  For a retention window of [n >= 0] days, the history that
    [update] returns holds today's key with exactly today's postings; and
    the history [update_history] returns holds it too and is the one
    written to the history file. *)
Theorem update_keeps_today (h : History) (today : date)
  (jobs : list Listing) (n : Z) :
  valid today = true -> 0 <= n ->
  (forall h', update h today jobs n = Ok h' ->
     Dict.get h' (isoformat today) = Some jobs)
  /\ (day_keys h = true -> n < toordinal today ->
      exists h', update h today jobs n = Ok h')
  /\ (forall w h' w', clock w = today -> update_history jobs w = (Ok h', w') ->
        Dict.get h' (isoformat today) = Some jobs
        /\ history_file w' = Some (Json.dump h')).
Proof.
  intros Hv Hn.
  split; [|split].
  - intros h'. now apply update_get_today.
  - intros Hh Hlt. apply update_returns; trivial.
    pose proof (toordinal_range today Hv). lia.
  - intros w h' w' Hclock. unfold update_history, mbind, get_today, lift, ret, save_history.
    destruct (load_history w) as [[h0|e] w0] eqn:El; [|discriminate].
    assert (w0 = w) as ->.
    { unfold load_history in El. destruct (history_file w); now injection El. }
    rewrite Hclock.
    destruct (update h0 today jobs DAYS_TO_KEEP) as [h1|e] eqn:Eu; [|discriminate].
    intros [= <- <-]. split; [|reflexivity].
    apply (update_get_today h0 _ today jobs DAYS_TO_KEEP); trivial.
    unfold DAYS_TO_KEEP. lia.
Qed.

Lemma NoDup_keys_filter (P : str -> bool) (h : History) :
  NoDup (Dict.keys h) -> NoDup (Dict.keys (filter (fun e => P (fst e)) h)).
Proof. intros H. rewrite keys_filter. now apply NoDup_filter. Qed.

(** C7.  Updating twice for the same day [d], first with [L1] and then
    with [L2], leaves [L2] under the key of [d] and nothing else under
    that key. *)
Theorem update_overwrites (h h1 : History) (d : date)
  (L1 L2 : list Listing) (n : Z) :
  valid d = true -> 0 <= n -> NoDup (Dict.keys h) ->
  update h d L1 n = Ok h1 ->
  exists h2,
    update h1 d L2 n = Ok h2
    /\ Dict.get h2 (isoformat d) = Some L2
    /\ (forall v, In (isoformat d, v) h2 -> v = L2)
    /\ count_occ (list_eq_dec Z.eq_dec) (Dict.keys h2) (isoformat d) = 1%nat.
Proof.
  intros Hv Hn Hnd Hup1.
  destruct (update_inv _ _ _ _ _ Hup1) as (cutoff & Hc & Hkeys & ->).
  set (h1 := filter _ _) in *.
  assert (Hnd1 : NoDup (Dict.keys h1)).
  { apply NoDup_keys_filter. now apply NoDup_keys_set. }
  assert (Hk1 : day_keys h1 = true).
  { unfold day_keys in *. rewrite forallb_forall in *. intros k Hk.
    unfold h1 in Hk. rewrite keys_filter in Hk. apply filter_In in Hk. now apply Hkeys. }
  destruct (update_returns h1 d L2 n Hv Hk1) as [h2 Hup2].
  { destruct (sub_days_Some _ _ _ Hc) as [Hvc Hoc].
    pose proof (toordinal_range cutoff Hvc). lia. }
  exists h2. split; trivial.
  assert (Hget : Dict.get h2 (isoformat d) = Some L2)
    by now apply (update_get_today h1 h2 d L2 n).
  assert (Hnd2 : NoDup (Dict.keys h2)).
  { destruct (update_inv _ _ _ _ _ Hup2) as (c2 & _ & _ & ->).
    apply NoDup_keys_filter. now apply NoDup_keys_set. }
  split; [trivial | split].
  - intros v Hin. apply In_get in Hin; trivial. congruence.
  - apply NoDup_count_occ'; trivial.
    apply get_Some_In in Hget. change (isoformat d) with (fst (isoformat d, L2)).
    now apply in_map.
Qed.

End HistoryFacts.

(** ** The retention scenario *)

Module RetentionScenario.
Import Calendar CalendarFacts Scraper DictFacts HistoryFacts Spec Examples.

Lemma Permutation_filter {A} (f : A -> bool) (l l' : list A) :
  Permutation l l' -> Permutation (filter f l) (filter f l').
Proof.
  induction 1 as [|x l l' _ IH|x y l|l l' l'' _ IH1 _ IH2]; simpl.
  - constructor.
  - destruct (f x); auto.
  - destruct (f x), (f y); auto. constructor.
  - now transitivity (filter f l').
Qed.

Lemma fromisoformat_days_ago today i :
  valid today = true -> 0 <= i < toordinal today ->
  exists d, fromisoformat (days_ago today i) = Some d
            /\ valid d = true /\ toordinal d = toordinal today - i.
Proof.
  intros Hv Hi. pose proof (toordinal_range today Hv).
  destruct (ord2ymd_correct (toordinal today - i)) as [Hvd Hod]; [lia|].
  exists (fromordinal (toordinal today - i)). repeat split; trivial.
  now apply fromisoformat_isoformat.
Qed.

Lemma keep_days_ago today n cutoff i :
  valid today = true -> sub_days today n = Some cutoff ->
  0 <= i < toordinal today ->
  keep cutoff (days_ago today i) = (i <=? n).
Proof.
  intros Hv Hc Hi.
  destruct (fromisoformat_days_ago today i Hv Hi) as (d & Hd & Hvd & Hod).
  apply eq_true_iff_eq. rewrite (keep_iff today n cutoff _ d Hv Hc Hd), Z.leb_le.
  unfold age. lia.
Qed.

Lemma days_ago_0 today : valid today = true -> days_ago today 0 = isoformat today.
Proof.
  intros Hv. unfold days_ago. now rewrite Z.sub_0_r, fromordinal_toordinal.
Qed.

Lemma filter_keep_preceding today n cutoff (k : nat) :
  valid today = true -> sub_days today n = Some cutoff ->
  Z.of_nat k < toordinal today ->
  filter (keep cutoff) (preceding_days today k)
  = map (fun i => days_ago today (Z.of_nat i))
        (filter (fun i => Z.of_nat i <=? n) (List.seq 1 k)).
Proof.
  intros Hv Hc Hk. unfold preceding_days.
  rewrite filter_map_swap. f_equal. apply filter_ext_in.
  intros i Hi. apply in_seq in Hi. apply keep_days_ago; trivial. lia.
Qed.

Lemma today_not_preceding today (k : nat) :
  valid today = true -> Z.of_nat k < toordinal today ->
  ~ In (isoformat today) (preceding_days today k).
Proof.
  intros Hv Hk Hin. unfold preceding_days in Hin. apply in_map_iff in Hin.
  destruct Hin as (i & Hi & Hin). apply in_seq in Hin.
  destruct (fromisoformat_days_ago today (Z.of_nat i) Hv) as (d & Hd & Hvd & Hod); [lia|].
  rewrite Hi, fromisoformat_isoformat in Hd by trivial.
  injection Hd as <-. lia.
Qed.

(** C4, as the code has it.  With keys for the 35 days before [today]
    in the history and a retention of 30, one update that inserts today's
    key returns and leaves exactly the 31 most recent keys: today's key
    and the keys of the 30 days before it, the days at most 30 days
    old. *)
Theorem update_keeps_31_keys (h : History) (today : date) (jobs : list Listing) :
  valid today = true -> 35 < toordinal today ->
  Permutation (Dict.keys h) (preceding_days today 35) ->
  exists h',
    update h today jobs 30 = Ok h'
    /\ Permutation (Dict.keys h') (preceding_days today 30 ++ [isoformat today])
    /\ List.length h' = 31%nat.
Proof.
  intros Hv Hord Hperm.
  pose proof (toordinal_range today Hv) as Hr.
  assert (Hk : day_keys h = true).
  { unfold day_keys. apply forallb_forall. intros k Hin.
    apply (Permutation_in _ Hperm) in Hin. unfold preceding_days in Hin.
    apply in_map_iff in Hin. destruct Hin as (i & <- & Hin). apply in_seq in Hin.
    destruct (fromisoformat_days_ago today (Z.of_nat i) Hv) as (d & Hd & _); [lia|].
    unfold is_day_key. now rewrite Hd. }
  destruct (update_returns h today jobs 30 Hv Hk) as [h' Hup]; [lia|].
  exists h'. split; trivial.
  destruct (update_inv _ _ _ _ _ Hup) as (cutoff & Hc & _ & ->).
  assert (Hnew : Dict.get h (isoformat today) = None).
  { apply get_None. intros Hin. apply (Permutation_in _ Hperm) in Hin.
    revert Hin. apply today_not_preceding; trivial. }
  assert (Hkeys : Permutation
            (Dict.keys (filter (fun e => keep cutoff (fst e))
                          (Dict.set h (isoformat today) jobs)))
            (preceding_days today 30 ++ [isoformat today])).
  { rewrite keys_filter, keys_set, Hnew.
    transitivity (filter (keep cutoff) (preceding_days today 35 ++ [isoformat today])).
    - apply Permutation_filter. now apply Permutation_app_tail.
    - rewrite filter_app, (filter_keep_preceding today 30 cutoff 35 Hv Hc) by lia.
      replace (filter (fun i => Z.of_nat i <=? 30) (List.seq 1 35))
        with (List.seq 1 30) by reflexivity.
      fold (preceding_days today 30).
      assert (Hkeep : keep cutoff (isoformat today) = true).
      { rewrite <- (days_ago_0 today Hv).
        rewrite (keep_days_ago today 30 cutoff 0 Hv Hc) by lia. reflexivity. }
      cbn [filter]. rewrite Hkeep. reflexivity. }
  split; trivial.
  apply Permutation_length in Hkeys. unfold Dict.keys in Hkeys.
  rewrite length_map in Hkeys. rewrite Hkeys, length_app.
  unfold preceding_days. rewrite length_map, length_seq. reflexivity.
Qed.

Lemma update_keeps_31_keys_witness :
  valid today0 = true /\ 35 < toordinal today0
  /\ Permutation (Dict.keys history35) (preceding_days today0 35)
  /\ exists h',
       update history35 today0 [caravan_pilot] 30 = Ok h'
       /\ Permutation (Dict.keys h')
            (preceding_days today0 30 ++ [isoformat today0])
       /\ List.length h' = 31%nat.
Proof.
  assert (H1 : valid today0 = true) by reflexivity.
  assert (H2 : 35 < toordinal today0) by (vm_compute; reflexivity).
  assert (H3 : Permutation (Dict.keys history35) (preceding_days today0 35)).
  { replace (Dict.keys history35) with (rev (preceding_days today0 35))
      by reflexivity.
    apply Permutation_sym, Permutation_rev. }
  split; [exact H1|]. split; [exact H2|]. split; [exact H3|].
  exact (update_keeps_31_keys history35 today0 [caravan_pilot] H1 H2 H3).
Defined.

(** C4, as stated, fails.  The history holds the 35 days before
    3 November 2026, oldest first; after the update with a retention of
    30 it holds 31 keys, not 30: 4 October, the day 30 days back, is
    still there, before the 29 days after it and 3 November. *)
Lemma update_scenario_keeps_31 :
  Dict.keys history35 = rev (preceding_days today0 35)
  /\ exists h',
       update history35 today0 [] 30 = Ok h'
       /\ Dict.keys h' = rev (preceding_days today0 30) ++ [py "2026-11-03"]
       /\ hd [] (Dict.keys h') = py "2026-10-04"
       /\ age today0 (mkdate 2026 10 4) = 30
       /\ List.length h' = 31%nat
       /\ List.length h' <> 30%nat.
Proof.
  split; [reflexivity|]. eexists. split; [vm_compute; reflexivity|].
  repeat split; try reflexivity. discriminate.
Qed.

End RetentionScenario.

(** ** Worked updates *)

Module HistoryExamples.
Import Calendar Scraper HistoryFacts RetentionScenario FilterFacts Spec Examples.

Lemma update_retention_witness :
  valid today0 = true
  /\ (forall h', update history0 today0 [caravan_pilot] 30 = Ok h' ->
        let inserted := Dict.set history0 (isoformat today0) [caravan_pilot] in
        (forall k, In k (Dict.keys h') ->
           exists d, fromisoformat k = Some d /\ age today0 d <= 30)
        /\ (forall k d, In k (Dict.keys inserted) -> fromisoformat k = Some d ->
              age today0 d <= 30 ->
              In k (Dict.keys h') /\ Dict.get h' k = Dict.get inserted k)
        /\ (forall k, In k (Dict.keys inserted) ->
              (~ In k (Dict.keys h') <->
               exists d, fromisoformat k = Some d /\ 30 < age today0 d)))
  /\ (day_keys history0 = true -> 0 < toordinal today0 - 30 <= MAXORDINAL ->
      exists h', update history0 today0 [caravan_pilot] 30 = Ok h').
Proof.
  split; [reflexivity|].
  exact (update_retention history0 today0 [caravan_pilot] 30 eq_refl).
Defined.

Example update_history0 :
  update history0 today0 [caravan_pilot] 30
  = Ok [(py "2026-10-20", [caravan_pilot]); (py "2026-11-03", [caravan_pilot])].
Proof. reflexivity. Qed.

Lemma update_keeps_today_witness :
  valid today0 = true /\ 0 <= 30
  /\ (forall h', update history0 today0 [caravan_pilot] 30 = Ok h' ->
        Dict.get h' (isoformat today0) = Some [caravan_pilot])
  /\ (day_keys history0 = true -> 30 < toordinal today0 ->
      exists h', update history0 today0 [caravan_pilot] 30 = Ok h')
  /\ (forall w h' w', clock w = today0 ->
        update_history [caravan_pilot] w = (Ok h', w') ->
        Dict.get h' (isoformat today0) = Some [caravan_pilot]
        /\ history_file w' = Some (Json.dump h')).
Proof.
  split; [reflexivity|]. split; [lia|].
  apply (update_keeps_today history0 today0 [caravan_pilot] 30); [reflexivity | lia].
Defined.

Lemma update_overwrites_witness :
  valid today0 = true /\ 0 <= 30 /\ NoDup (Dict.keys history0)
  /\ update history0 today0 [accountant] 30
     = Ok [(py "2026-10-20", [caravan_pilot]); (py "2026-11-03", [accountant])]
  /\ exists h2,
       update [(py "2026-10-20", [caravan_pilot]); (py "2026-11-03", [accountant])]
         today0 [caravan_pilot] 30 = Ok h2
       /\ Dict.get h2 (isoformat today0) = Some [caravan_pilot]
       /\ (forall v, In (isoformat today0, v) h2 -> v = [caravan_pilot])
       /\ count_occ (list_eq_dec Z.eq_dec) (Dict.keys h2) (isoformat today0) = 1%nat.
Proof.
  assert (Hnd : NoDup (Dict.keys history0)).
  { repeat constructor; simpl; intuition discriminate. }
  split; [reflexivity|]. split; [lia|]. split; [exact Hnd|]. split; [reflexivity|].
  apply (update_overwrites history0 _ today0 [accountant] [caravan_pilot] 30);
    [reflexivity | lia | exact Hnd | reflexivity].
Defined.

End HistoryExamples.

(** ** The report *)

Module RenderFacts.
Import Calendar CalendarFacts Scraper DictFacts HistoryFacts Spec Examples.

Section Sorting.
Context {V : Type}.
Implicit Types (x y : str * V) (l : list (str * V)).

Lemma insert_desc_perm x l : Permutation (Dict.insert_desc x l) (x :: l).
Proof.
  induction l as [|y l IH]; simpl; trivial.
  destruct (Str.ltb (fst x) (fst y)); trivial.
  rewrite IH. apply perm_swap.
Qed.

Lemma sorted_desc_perm l : Permutation (Dict.sorted_desc l) l.
Proof.
  induction l as [|x l IH]; simpl; trivial.
  rewrite insert_desc_perm. now constructor.
Qed.

Lemma key_ltb_day_number (k k' : str) :
  is_day_key k = true -> is_day_key k' = true ->
  Str.ltb k k' = (day_number k <? day_number k').
Proof.
  unfold is_day_key, day_number.
  destruct (fromisoformat k) as [d|] eqn:E; [|discriminate].
  destruct (fromisoformat k') as [d'|] eqn:E'; [|discriminate]. intros _ _.
  destruct (fromisoformat_inv _ _ E) as [Hv <-].
  destruct (fromisoformat_inv _ _ E') as [Hv' <-].
  rewrite isoformat_before by trivial. apply eq_true_iff_eq.
  rewrite Z.ltb_lt. now apply before_iff_toordinal.
Qed.

Lemma insert_desc_sorted x l :
  day_item x -> Forall day_item l ->
  StronglySorted desc l -> StronglySorted desc (Dict.insert_desc x l).
Proof.
  intros Hx Hl Hs. induction l as [|y l IH]; simpl.
  - repeat constructor.
  - inversion Hl as [|? ? Hy Hl']; subst.
    inversion Hs as [|? ? Hs' Hall]; subst.
    rewrite (key_ltb_day_number _ _ Hx Hy).
    destruct (Z.ltb_spec (day_number (fst x)) (day_number (fst y))) as [Hlt|Hge].
    + constructor; [now apply IH|].
      eapply Permutation_Forall; [symmetry; apply insert_desc_perm|].
      constructor; [unfold desc; lia | trivial].
    + constructor; trivial. constructor; [exact Hge|].
      eapply Forall_impl; [|exact Hall]. unfold desc. intros z Hz. lia.
Qed.

Lemma sorted_desc_sorted l :
  Forall day_item l -> StronglySorted desc (Dict.sorted_desc l).
Proof.
  induction l as [|x l IH]; intros Hl; simpl.
  - constructor.
  - inversion Hl; subst. apply insert_desc_sorted; auto.
    eapply Permutation_Forall; [symmetry; apply sorted_desc_perm | trivial].
Qed.

End Sorting.

Lemma day_number_inj (k k' : str) :
  is_day_key k = true -> is_day_key k' = true ->
  day_number k = day_number k' -> k = k'.
Proof.
  unfold is_day_key, day_number.
  destruct (fromisoformat k) as [d|] eqn:E; [|discriminate].
  destruct (fromisoformat k') as [d'|] eqn:E'; [|discriminate]. intros _ _ H.
  destruct (fromisoformat_inv _ _ E) as [Hv <-].
  destruct (fromisoformat_inv _ _ E') as [Hv' <-].
  f_equal. now apply toordinal_inj.
Qed.

Lemma desc_later (x y : str * list Listing) :
  day_item x -> day_item y -> fst x <> fst y -> desc x y -> later x y.
Proof.
  unfold day_item, desc, later. intros Hx Hy Hne Hd.
  assert (day_number (fst y) < day_number (fst x)).
  { destruct (Z.eq_dec (day_number (fst y)) (day_number (fst x))) as [E|]; [|lia].
    apply day_number_inj in E; trivial. congruence. }
  unfold is_day_key, day_number in *.
  destruct (fromisoformat (fst x)) as [dx|] eqn:Ex; [|discriminate].
  destruct (fromisoformat (fst y)) as [dy|] eqn:Ey; [|discriminate].
  exists dx, dy. repeat split.
  destruct (fromisoformat_inv _ _ Ex) as [Hvx _].
  destruct (fromisoformat_inv _ _ Ey) as [Hvy _].
  now apply before_iff_toordinal.
Qed.

Lemma sorted_later (l : list (str * list Listing)) :
  Forall day_item l -> NoDup (Dict.keys l) ->
  StronglySorted desc l -> StronglySorted later l.
Proof.
  induction l as [|x l IH]; intros Hl Hnd Hs; constructor;
    inversion Hl as [|? ? Hx Hl']; inversion Hnd as [|? ? Hni Hnd'];
    inversion Hs as [|? ? Hs' Hall]; subst; auto.
  rewrite Forall_forall in *. intros y Hy.
  apply desc_later; auto. intros E. apply Hni. rewrite E.
  now apply in_map.
Qed.

Lemma day_keys_items (h : History) : day_keys h = true <-> Forall day_item h.
Proof.
  unfold day_keys, Dict.keys, day_item. rewrite forallb_forall, Forall_forall.
  split.
  - intros H x Hx. apply H. now apply in_map.
  - intros H k Hk. apply in_map_iff in Hk. destruct Hk as (x & <- & Hx). auto.
Qed.

(** *** The string the loops build *)

Lemma job_item_markup (j : Listing) : job_item j = item_markup j.
Proof. reflexivity. Qed.

Lemma add_items_markup (jobs : list Listing) (html : str) :
  add_items html jobs = html ++ flat_map item_markup jobs.
Proof.
  unfold add_items. revert html.
  induction jobs as [|j jobs IH]; intros html; cbn [fold_left flat_map].
  - now rewrite app_nil_r.
  - now rewrite IH, job_item_markup, <- app_assoc.
Qed.

Lemma add_sections_markup (sections : list (str * list Listing)) (html : str) :
  fold_left
    (fun html item =>
       let html := html ++ py "<h3>" ++ fst item ++ py "</h3><ul>" in
       let html := add_items html (snd item) in
       html ++ py "</ul>")
    sections html
  = html ++ flat_map section_markup sections.
Proof.
  revert html.
  induction sections as [|x sections IH]; intros html; cbn [fold_left flat_map].
  - now rewrite app_nil_r.
  - rewrite IH. cbv zeta. rewrite add_items_markup.
    unfold section_markup, list_markup.
    change (py "</h3><ul>") with (py "</h3>" ++ py "<ul>").
    now rewrite <- !app_assoc.
Qed.

(** The string [generate_html] builds is the document with one section
    per item of the sorted history. *)
Lemma render_document (today : date) (today_jobs : list Listing) (h : History) :
  render today today_jobs h = document today today_jobs (Dict.sorted_desc h).
Proof.
  unfold render. cbv zeta. rewrite add_sections_markup.
  unfold document, top_markup, today_markup, list_markup.
  destruct today_jobs as [|j jobs].
  - change (py "<ul><li>No new jobs found today.</li></ul>")
      with (py "<ul>" ++ py "<li>No new jobs found today.</li>" ++ py "</ul>").
    change (py "s Jobs</h2><ul>") with (py "s Jobs</h2>" ++ py "<ul>").
    now rewrite <- !app_assoc.
  - rewrite add_items_markup.
    change (py "s Jobs</h2><ul>") with (py "s Jobs</h2>" ++ py "<ul>").
    now rewrite <- !app_assoc.
Qed.

(** *** What a UTF-8 file can hold *)

Lemma encodable_app (s t : str) :
  encodable (s ++ t) = encodable s && encodable t.
Proof. unfold encodable. now rewrite existsb_app, negb_orb. Qed.

Lemma encodable_flat_map {A} (f : A -> str) (l : list A) :
  (forall x, In x l -> encodable (f x) = true) ->
  encodable (flat_map f l) = true.
Proof.
  induction l as [|x l IH]; intros H; cbn [flat_map]; trivial.
  rewrite encodable_app, H, IH; trivial.
  - intros y Hy. apply H. now right.
  - now left.
Qed.

Lemma wf_encodable (s : str) : Str.wf s = true -> encodable s = true.
Proof.
  unfold Str.wf, encodable. induction s as [|c s IH]; cbn [forallb existsb]; trivial.
  rewrite andb_true_iff, negb_orb. intros [Hc Hs]. rewrite IH by trivial.
  unfold Str.scalar in Hc. rewrite !andb_true_iff in Hc.
  destruct Hc as [_ ->]. reflexivity.
Qed.

Lemma digit_encodable (n : Z) : Str.is_surrogate (Str.digit (n mod 10)) = false.
Proof.
  unfold Str.is_surrogate, Str.digit. apply andb_false_iff. left.
  apply Z.leb_gt. pose proof (Z.mod_pos_bound n 10). lia.
Qed.

Lemma dec_aux_encodable (fuel : nat) : forall (n : Z) (acc : str),
  encodable acc = true -> encodable (Str.dec_aux fuel n acc) = true.
Proof.
  induction fuel as [|fuel IH]; intros n acc Hacc; cbn [Str.dec_aux]; trivial.
  assert (H : encodable (Str.digit (n mod 10) :: acc) = true).
  { unfold encodable in *. cbn [existsb]. now rewrite digit_encodable. }
  cbv zeta. destruct (n / 10 =? 0); auto.
Qed.

Lemma strftime_long_encodable (d : date) : encodable (strftime_long d) = true.
Proof.
  unfold strftime_long. rewrite !encodable_app.
  assert (Hm : encodable (MONTH_NAME (month d)) = true).
  { unfold MONTH_NAME.
    destruct (month d) as [|p|p]; trivial;
      do 4 (destruct p as [p|p|]; trivial). }
  assert (Hy : encodable (Str.of_Z (year d)) = true)
    by (apply dec_aux_encodable; reflexivity).
  rewrite Hm, Hy. unfold pad2, encodable. cbn [existsb].
  now rewrite !digit_encodable.
Qed.

Lemma item_markup_encodable (j : Listing) :
  wf_listing j = true -> encodable (item_markup j) = true.
Proof.
  unfold wf_listing. rewrite !andb_true_iff. intros [[[Ht Hc] Hl] Hs].
  unfold item_markup. rewrite !encodable_app.
  now rewrite (wf_encodable (title j)), (wf_encodable (company j)),
    (wf_encodable (link j)), (wf_encodable (source j)) by trivial.
Qed.

Lemma list_markup_encodable (jobs : list Listing) :
  forallb wf_listing jobs = true -> encodable (list_markup jobs) = true.
Proof.
  intros H. unfold list_markup. rewrite !encodable_app, encodable_flat_map; trivial.
  intros j Hj. apply item_markup_encodable.
  rewrite forallb_forall in H. now apply H.
Qed.

(** A document made of text can be written. *)
Lemma document_encodable (today : date) (today_jobs : list Listing)
  (sections : list (str * list Listing)) :
  forallb wf_listing today_jobs = true -> wf_history sections = true ->
  encodable (document today today_jobs sections) = true.
Proof.
  intros Hj Hh.
  assert (Hs : encodable (flat_map section_markup sections) = true).
  { apply encodable_flat_map. intros [day jobs] Hin.
    unfold wf_history in Hh. rewrite forallb_forall in Hh.
    specialize (Hh _ Hin). cbn [fst snd] in Hh. apply andb_true_iff in Hh.
    destruct Hh as [Hd Hjobs]. unfold section_markup. cbn [fst snd].
    rewrite !encodable_app, (wf_encodable day), list_markup_encodable by trivial.
    reflexivity. }
  unfold document, top_markup, today_markup.
  destruct today_jobs as [|j jobs].
  - now rewrite !encodable_app, strftime_long_encodable, Hs.
  - now rewrite !encodable_app, strftime_long_encodable, Hs,
      list_markup_encodable.
Qed.

Lemma wf_history_perm (l l' : History) :
  Permutation l l' -> wf_history l = true -> wf_history l' = true.
Proof.
  unfold wf_history. rewrite !forallb_forall. intros Hp H x Hx.
  apply H. eapply Permutation_in; [symmetry; exact Hp | trivial].
Qed.

(** What [generate_html] does with the string it has built. *)
Lemma generate_html_unfold (today_jobs : list Listing) (h : History) (w : World) :
  generate_html today_jobs h w
  = if encodable (render (clock w) today_jobs h)
    then (Ok tt,
          mkWorld (history_file w) (Some (render (clock w) today_jobs h))
            (stdout w) (clock w))
    else (Raise UnicodeEncodeError,
          mkWorld (history_file w) (Some []) (stdout w) (clock w)).
Proof.
  unfold generate_html, mbind, get_today, write_index, encodable.
  now destruct (existsb Str.is_surrogate (render (clock w) today_jobs h)).
Qed.

(** C9.  For a history whose keys are distinct day-keys, the string
    [generate_html] builds is the document made of the head with the
    date, today's postings, the history heading and one section per item
    of a list [sections], each section being the day-key as heading and
    one list item per posting of that day; [sections] holds exactly the
    items of the history, each once, and is in strictly descending order
    of calendar date.  [generate_html] writes this document to
    index.html when it can be encoded, which it can when the history and
    today's postings are text, and raises [UnicodeEncodeError] over an
    emptied file when it cannot. *)
Theorem render_sections_descending (today : date) (today_jobs : list Listing)
  (history : History) :
  NoDup (Dict.keys history) -> day_keys history = true ->
  exists sections : list (str * list Listing),
    render today today_jobs history = document today today_jobs sections
    /\ Permutation sections history
    /\ StronglySorted later sections
    /\ (forall w, clock w = today ->
          generate_html today_jobs history w
          = if encodable (document today today_jobs sections)
            then (Ok tt,
                  mkWorld (history_file w)
                    (Some (document today today_jobs sections))
                    (stdout w) (clock w))
            else (Raise UnicodeEncodeError,
                  mkWorld (history_file w) (Some []) (stdout w) (clock w)))
    /\ (forallb wf_listing today_jobs = true -> wf_history history = true ->
        encodable (document today today_jobs sections) = true).
Proof.
  intros Hnd Hk. exists (Dict.sorted_desc history).
  pose proof (sorted_desc_perm history) as Hp.
  split; [apply render_document|]. split; [exact Hp|]. split; [|split].
  - apply day_keys_items in Hk. apply sorted_later.
    + eapply Permutation_Forall; [symmetry; exact Hp | trivial].
    + eapply Permutation_NoDup; [|exact Hnd].
      symmetry. unfold Dict.keys. now apply Permutation_map.
    + now apply sorted_desc_sorted.
  - intros w Hw. rewrite generate_html_unfold, Hw. now rewrite render_document.
  - intros Hj Hh. apply document_encodable; trivial.
    eapply wf_history_perm; [symmetry; exact Hp | trivial].
Qed.

Lemma render_sections_descending_witness :
  NoDup (Dict.keys history0)
  /\ day_keys history0 = true
  /\ exists sections : list (str * list Listing),
       render today0 [caravan_pilot] history0
       = document today0 [caravan_pilot] sections
       /\ Permutation sections history0
       /\ StronglySorted later sections
       /\ (forall w, clock w = today0 ->
             generate_html [caravan_pilot] history0 w
             = if encodable (document today0 [caravan_pilot] sections)
               then (Ok tt,
                     mkWorld (history_file w)
                       (Some (document today0 [caravan_pilot] sections))
                       (stdout w) (clock w))
               else (Raise UnicodeEncodeError,
                     mkWorld (history_file w) (Some []) (stdout w) (clock w)))
       /\ (forallb wf_listing [caravan_pilot] = true ->
           wf_history history0 = true ->
           encodable (document today0 [caravan_pilot] sections) = true).
Proof.
  assert (Hnd : NoDup (Dict.keys history0)).
  { repeat constructor; simpl; intuition discriminate. }
  split; [exact Hnd|]. split; [reflexivity|].
  exact (render_sections_descending today0 [caravan_pilot]
           history0 Hnd eq_refl).
Defined.

(** The sections of the two-day history come out most recent first. *)
Example sorted_history0 :
  Dict.keys (Dict.sorted_desc history0)
  = [py "2026-10-20"; py "2026-09-01"].
Proof. reflexivity. Qed.

End RenderFacts.

(** ** Reading and writing the history document *)

Module JsonFacts.
Import Json StrFacts Spec.

Lemma hex_val_digit d : 0 <= d <= 15 -> hex_val (hex_digit d) = Some d.
Proof.
  intros H. unfold hex_val, hex_digit.
  destruct (Z.ltb_spec d 10).
  - replace ((48 <=? 48 + d) && (48 + d <=? 57)) with true
      by (symmetry; apply andb_true_iff; split; apply Z.leb_le; lia).
    f_equal. lia.
  - replace ((48 <=? 87 + d) && (87 + d <=? 57)) with false
      by (symmetry; apply andb_false_iff; right; apply Z.leb_gt; lia).
    replace ((97 <=? 87 + d) && (87 + d <=? 102)) with true
      by (symmetry; apply andb_true_iff; split; apply Z.leb_le; lia).
    f_equal. lia.
Qed.

Lemma hex4_digits n :
  0 <= n < 65536 ->
  hex4 (hex_digit (n / 4096 mod 16)) (hex_digit (n / 256 mod 16))
       (hex_digit (n / 16 mod 16)) (hex_digit (n mod 16)) = Some n.
Proof.
  intros H. unfold hex4. rewrite !hex_val_digit by zdm. f_equal.
  assert (E : n / 4096 mod 16 = n / 4096) by zdm. rewrite E.
  zdm.
Qed.

(** Surrogate arithmetic. *)
Lemma lor_shifted (k a : Z) :
  0 <= k -> 0 <= a < 1024 -> Z.lor (k * 1024) a = k * 1024 + a.
Proof.
  intros Hk Ha.
  assert (Hl : Z.land (k * 1024) a = 0).
  { apply Z.bits_inj'. intros n Hn. rewrite Z.land_spec, Z.bits_0.
    destruct (Z.ltb_spec n 10).
    - change 1024 with (2 ^ 10). rewrite Z.mul_pow2_bits_low by lia. reflexivity.
    - rewrite (Z.bits_above_log2 a n); [apply andb_false_r | lia |].
      destruct (Z.eq_dec a 0) as [->|]; [simpl; lia|].
      apply Z.log2_lt_pow2; [lia|].
      apply Z.lt_le_trans with (2 ^ 10); [simpl; lia|].
      apply Z.pow_le_mono_r; lia. }
  rewrite <- Z.lxor_lor by trivial. symmetry. now apply Z.add_nocarry_lxor.
Qed.

Lemma high_surrogate v :
  0 <= v < 1048576 ->
  Z.lor 55296 (Z.land (Z.shiftr v 10) 1023) = 55296 + v / 1024.
Proof.
  intros Hv. rewrite Z.shiftr_div_pow2 by lia. change (2 ^ 10) with 1024.
  change 1023 with (Z.ones 10). rewrite Z.land_ones by lia. change (2 ^ 10) with 1024.
  rewrite Z.mod_small by zdm.
  change 55296 with (54 * 1024). apply lor_shifted; zdm.
Qed.

Lemma low_surrogate v :
  0 <= v -> Z.lor 56320 (Z.land v 1023) = 56320 + v mod 1024.
Proof.
  intros Hv. change 1023 with (Z.ones 10). rewrite Z.land_ones by lia.
  change (2 ^ 10) with 1024. change 56320 with (55 * 1024). apply lor_shifted; zdm.
Qed.

Lemma combine_surrogates v :
  0 <= v < 1048576 ->
  Z.lor (Z.shiftl (55296 + v / 1024 - 55296) 10) (56320 + v mod 1024 - 56320) = v.
Proof.
  intros Hv. rewrite Z.shiftl_mul_pow2 by lia. change (2 ^ 10) with 1024.
  replace (55296 + v / 1024 - 55296) with (v / 1024) by lia.
  replace (56320 + v mod 1024 - 56320) with (v mod 1024) by lia.
  rewrite lor_shifted by zdm. zdm.
Qed.

(** *** Strings *)

Lemma scan_literal c s acc :
  c <> quote -> c <> backslash -> 32 <= c ->
  scan_chars (c :: s) acc = scan_chars s (c :: acc).
Proof.
  intros H1 H2 H3. cbn [scan_chars].
  apply Z.eqb_neq in H1, H2. rewrite H1, H2.
  now replace (c <? 32) with false by (symmetry; apply Z.ltb_ge; lia).
Qed.

Lemma scan_simple e v s acc :
  simple_escape e = Some v ->
  scan_chars (backslash :: e :: s) acc = scan_chars s (v :: acc).
Proof.
  intros H. cbn [scan_chars]. change (backslash =? quote) with false.
  change (backslash =? backslash) with true. cbv iota.
  destruct (Z.eqb_spec e 117) as [->|_]; [discriminate|]. now rewrite H.
Qed.

Lemma scan_unicode a b c d u s acc :
  hex4 a b c d = Some u -> is_high u = false ->
  scan_chars (backslash :: 117 :: a :: b :: c :: d :: s) acc
  = scan_chars s (u :: acc).
Proof.
  intros H Hh. cbn [scan_chars]. change (backslash =? quote) with false.
  change (backslash =? backslash) with true. change (117 =? 117) with true.
  cbv iota. now rewrite H, Hh.
Qed.

Lemma scan_pair a b c d u a2 b2 c2 d2 u2 s acc :
  hex4 a b c d = Some u -> is_high u = true ->
  hex4 a2 b2 c2 d2 = Some u2 -> is_low u2 = true ->
  scan_chars (backslash :: 117 :: a :: b :: c :: d
              :: backslash :: 117 :: a2 :: b2 :: c2 :: d2 :: s) acc
  = scan_chars s
      (65536 + Z.lor (Z.shiftl (u - 55296) 10) (u2 - 56320) :: acc).
Proof.
  intros H Hh H2 Hl. cbn [scan_chars]. change (backslash =? quote) with false.
  change (backslash =? backslash) with true. change (117 =? 117) with true.
  cbv iota. rewrite H, Hh. unfold backslash. now rewrite H2, Hl.
Qed.

Lemma scalar_iff c :
  Str.scalar c = true <-> 0 <= c < 1114112 /\ ~ (55296 <= c <= 57343).
Proof.
  unfold Str.scalar, Str.is_surrogate.
  rewrite !andb_true_iff, negb_true_iff, andb_false_iff, Z.leb_le, Z.ltb_lt, !Z.leb_gt.
  lia.
Qed.

Lemma code_point_iff c : code_point c = true <-> 0 <= c < 1114112.
Proof. unfold code_point. rewrite andb_true_iff, Z.leb_le, Z.ltb_lt. tauto. Qed.

Lemma is_high_iff u : is_high u = true <-> 55296 <= u <= 56319.
Proof. unfold is_high. now rewrite andb_true_iff, !Z.leb_le. Qed.

Lemma is_low_iff u : is_low u = true <-> 56320 <= u <= 57343.
Proof. unfold is_low. now rewrite andb_true_iff, !Z.leb_le. Qed.

Lemma is_high_false u : is_high u = false <-> ~ (55296 <= u <= 56319).
Proof. rewrite <- is_high_iff. now destruct (is_high u). Qed.

Lemma is_low_false u : is_low u = false <-> ~ (56320 <= u <= 57343).
Proof. rewrite <- is_low_iff. now destruct (is_low u). Qed.

(** A character other than a backslash starts no escape. *)
Lemma low_escape_head x s : x <> backslash -> low_escape (x :: s) = None.
Proof.
  intros H. unfold low_escape.
  destruct x as [|p|p]; trivial.
  do 7 (destruct p as [p|p|]; trivial).
  now elim H.
Qed.

(** A high surrogate escape that no low surrogate escape follows is read
    as the surrogate itself. *)
Lemma scan_lone_high a b c d u s acc :
  hex4 a b c d = Some u -> is_high u = true -> low_escape s = None ->
  scan_chars (backslash :: 117 :: a :: b :: c :: d :: s) acc
  = scan_chars s (u :: acc).
Proof.
  intros H Hh Hl. cbn [scan_chars]. change (backslash =? quote) with false.
  change (backslash =? backslash) with true. change (117 =? 117) with true.
  cbv iota. rewrite H, Hh.
  destruct s as [|x0 s]; trivial.
  destruct (Z.eq_dec x0 92) as [->|N0].
  2:{ destruct x0 as [|p|p]; trivial.
      do 7 (destruct p as [p|p|]; trivial). now elim N0. }
  destruct s as [|x1 s]; trivial.
  destruct (Z.eq_dec x1 117) as [->|N1].
  2:{ destruct x1 as [|p|p]; trivial.
      do 7 (destruct p as [p|p|]; trivial). now elim N1. }
  destruct s as [|a2 [|b2 [|c2 [|d2 s]]]]; trivial.
  unfold low_escape in Hl.
  destruct (hex4 a2 b2 c2 d2) as [u2|]; trivial.
  destruct (is_low u2); [discriminate | trivial].
Qed.

Lemma low_escape_uescape n s :
  0 <= n < 65536 -> is_low n = false -> low_escape (uescape n ++ s) = None.
Proof.
  intros Hn Hl. unfold uescape. cbn [app]. unfold low_escape, backslash.
  now rewrite hex4_digits, Hl.
Qed.

(** What [json.dump] writes for a character that is not a low surrogate
    does not start with a low surrogate escape. *)
Lemma low_escape_escape_char d s :
  code_point d = true -> is_low d = false ->
  low_escape (escape_char d ++ s) = None.
Proof.
  intros Hd Hl. apply code_point_iff in Hd. unfold escape_char.
  destruct (Z.eqb_spec d quote) as [->|N1]; [reflexivity|].
  destruct (Z.eqb_spec d backslash) as [->|N2]; [reflexivity|].
  destruct (Z.eqb_spec d 10) as [->|N3]; [reflexivity|].
  destruct (Z.eqb_spec d 13) as [->|N4]; [reflexivity|].
  destruct (Z.eqb_spec d 9) as [->|N5]; [reflexivity|].
  destruct (Z.eqb_spec d 12) as [->|N6]; [reflexivity|].
  destruct (Z.eqb_spec d 8) as [->|N7]; [reflexivity|].
  destruct ((32 <=? d) && (d <=? 126)) eqn:Ep.
  - now apply low_escape_head.
  - destruct (Z.ltb_spec d 65536) as [Hb|Ha].
    + apply low_escape_uescape; [lia | trivial].
    + cbv zeta. assert (Hv : 0 <= d - 65536 < 1048576) by lia.
      rewrite (high_surrogate _ Hv). rewrite <- app_assoc.
      apply low_escape_uescape; [zdm|].
      apply is_low_false. zdm.
Qed.

Lemma escape_char_high c : is_high c = true -> escape_char c = uescape c.
Proof.
  intros H. apply is_high_iff in H. unfold escape_char.
  destruct (Z.eqb_spec c quote) as [->|_]; [unfold quote in H; lia|].
  destruct (Z.eqb_spec c backslash) as [->|_]; [unfold backslash in H; lia|].
  destruct (Z.eqb_spec c 10) as [->|_]; [lia|].
  destruct (Z.eqb_spec c 13) as [->|_]; [lia|].
  destruct (Z.eqb_spec c 9) as [->|_]; [lia|].
  destruct (Z.eqb_spec c 12) as [->|_]; [lia|].
  destruct (Z.eqb_spec c 8) as [->|_]; [lia|].
  replace ((32 <=? c) && (c <=? 126)) with false
    by (symmetry; apply andb_false_iff; right; apply Z.leb_gt; lia).
  now replace (c <? 65536) with true by (symmetry; apply Z.ltb_lt; lia).
Qed.

(** Reading back one escaped character that is not a high surrogate. *)
Lemma scan_escape_char c s acc :
  code_point c = true -> is_high c = false ->
  scan_chars (escape_char c ++ s) acc = scan_chars s (c :: acc).
Proof.
  intros Hc Hh. apply code_point_iff in Hc. unfold escape_char.
  destruct (Z.eqb_spec c quote) as [->|N1]; [now apply scan_simple|].
  destruct (Z.eqb_spec c backslash) as [->|N2]; [now apply scan_simple|].
  destruct (Z.eqb_spec c 10) as [->|N3]; [now apply scan_simple|].
  destruct (Z.eqb_spec c 13) as [->|N4]; [now apply scan_simple|].
  destruct (Z.eqb_spec c 9) as [->|N5]; [now apply scan_simple|].
  destruct (Z.eqb_spec c 12) as [->|N6]; [now apply scan_simple|].
  destruct (Z.eqb_spec c 8) as [->|N7]; [now apply scan_simple|].
  destruct ((32 <=? c) && (c <=? 126)) eqn:Ep.
  - apply andb_true_iff in Ep. destruct Ep as [E1 E2]. apply Z.leb_le in E1, E2.
    now apply scan_literal.
  - destruct (Z.ltb_spec c 65536) as [Hb|Ha].
    + unfold uescape. cbn [app]. apply scan_unicode; trivial.
      apply hex4_digits. lia.
    + cbv zeta. assert (Hv : 0 <= c - 65536 < 1048576) by lia.
      rewrite (high_surrogate _ Hv), (low_surrogate (c - 65536)) by lia.
      unfold uescape. cbn [app].
      rewrite (scan_pair _ _ _ _ (55296 + (c - 65536) / 1024)
                 _ _ _ _ (56320 + (c - 65536) mod 1024)).
      * rewrite combine_surrogates by lia. f_equal. f_equal. lia.
      * apply hex4_digits. zdm.
      * unfold is_high. apply andb_true_iff. split; apply Z.leb_le; zdm.
      * apply hex4_digits. zdm.
      * unfold is_low. apply andb_true_iff. split; apply Z.leb_le; zdm.
Qed.

Lemma pair_free_cons c t :
  pair_free (c :: t) = true ->
  code_point c = true
  /\ (is_high c = true -> match t with d :: _ => is_low d = false | [] => True end)
  /\ pair_free t = true.
Proof.
  cbn [pair_free]. rewrite !andb_true_iff. intros [[Hc Hp] Ht].
  repeat split; trivial. intros Hh. destruct t as [|d t]; trivial.
  rewrite Hh in Hp. cbn [andb] in Hp. now apply negb_true_iff.
Qed.

Lemma scan_escaped (s : str) (rest acc : str) :
  pair_free s = true ->
  scan_chars (flat_map escape_char s ++ quote :: rest) acc
  = Some (rev acc ++ s, rest).
Proof.
  revert acc. induction s as [|c s IH]; intros acc Hs.
  - cbn [flat_map app scan_chars]. change (quote =? quote) with true.
    now rewrite app_nil_r.
  - destruct (pair_free_cons _ _ Hs) as (Hc & Hnext & Ht).
    cbn [flat_map]. rewrite <- app_assoc.
    assert (Hstep : scan_chars (escape_char c ++ flat_map escape_char s ++ quote :: rest) acc
                    = scan_chars (flat_map escape_char s ++ quote :: rest) (c :: acc)).
    { destruct (is_high c) eqn:Hh.
      - rewrite (escape_char_high c Hh). unfold uescape. cbn [app].
        apply code_point_iff in Hc. pose proof Hh as Hr. apply is_high_iff in Hr.
        apply scan_lone_high; trivial.
        + apply hex4_digits. lia.
        + destruct s as [|d s']; [reflexivity|].
          destruct (pair_free_cons _ _ Ht) as (Hd & _ & _).
          cbn [flat_map]. rewrite <- app_assoc.
          apply low_escape_escape_char; trivial. now apply Hnext.
      - now apply scan_escape_char. }
    rewrite Hstep, IH by trivial. cbn [rev]. now rewrite <- app_assoc.
Qed.

Lemma wf_pair_free (s : str) : Str.wf s = true -> pair_free s = true.
Proof.
  unfold Str.wf. induction s as [|c s IH]; trivial.
  cbn [forallb pair_free]. rewrite andb_true_iff. intros [Hc Hs].
  apply scalar_iff in Hc.
  assert (Hh : is_high c = false) by (apply is_high_false; lia).
  rewrite Hh, IH by trivial.
  replace (code_point c) with true by (symmetry; apply code_point_iff; lia).
  now destruct s.
Qed.

(** *** White space *)

Lemma skip_ws_spaces n s : skip_ws (repeat 32 n ++ s) = skip_ws s.
Proof. induction n as [|n IH]; trivial. Qed.

Lemma skip_ws_newline_indent level s :
  skip_ws (newline_indent level ++ s) = skip_ws s.
Proof. unfold newline_indent. cbn [app skip_ws is_ws]. simpl. apply skip_ws_spaces. Qed.

Lemma skip_ws_token c s : is_ws c = false -> skip_ws (c :: s) = c :: s.
Proof. intros H. cbn [skip_ws]. now rewrite H. Qed.

Lemma parse_string_encoded (s : str) (rest : str) :
  pair_free s = true -> parse_string (encode_str s ++ rest) = Some (s, rest).
Proof.
  intros Hs. unfold parse_string, encode_str. cbn [app].
  rewrite skip_ws_token by reflexivity. change (quote =? quote) with true.
  cbv iota. rewrite <- app_assoc. cbn [app]. now rewrite scan_escaped.
Qed.

End JsonFacts.

Module JsonRoundTrip.
Import Json StrFacts JsonFacts DictFacts Spec Examples.

Lemma parse_string_skip s t : skip_ws s = skip_ws t -> parse_string s = parse_string t.
Proof. unfold parse_string. now intros ->. Qed.

Lemma expect_skip c s t : skip_ws s = skip_ws t -> expect c s = expect c t.
Proof. unfold expect. now intros ->. Qed.

Lemma skip_ws_space s : skip_ws (32 :: s) = skip_ws s.
Proof. reflexivity. Qed.

Lemma expect_token c s : is_ws c = false -> expect c (c :: s) = Some (tt, s).
Proof. intros H. unfold expect. rewrite skip_ws_token by trivial. now rewrite Z.eqb_refl. Qed.

Lemma expect_indented level c s :
  is_ws c = false -> expect c (newline_indent level ++ c :: s) = Some (tt, s).
Proof.
  intros H. rewrite (expect_skip c _ (c :: s)) by apply skip_ws_newline_indent.
  now apply expect_token.
Qed.

Lemma parse_field_dump level name value rest :
  pair_free name = true -> pair_free value = true ->
  parse_field name (newline_indent level ++ dump_field name value ++ rest)
  = Some (value, rest).
Proof.
  intros Hn Hv. unfold parse_field, pbind, dump_field.
  rewrite (parse_string_skip _ (encode_str name ++ (py ": " ++ encode_str value) ++ rest))
    by (rewrite skip_ws_newline_indent; now rewrite <- app_assoc).
  rewrite parse_string_encoded by trivial. rewrite eqb_refl.
  change (py ": ") with [58; 32]. rewrite <- app_assoc. cbn [app].
  rewrite expect_token by reflexivity.
  rewrite (parse_string_skip _ (encode_str value ++ rest)) by reflexivity.
  now apply parse_string_encoded.
Qed.

Lemma pair_free_listing_iff j :
  pair_free_listing j = true <->
  pair_free (title j) = true /\ pair_free (company j) = true
  /\ pair_free (link j) = true /\ pair_free (source j) = true.
Proof. unfold pair_free_listing. rewrite !andb_true_iff. tauto. Qed.

Lemma dump_listing_unfold j rest :
  dump_listing j ++ rest
  = 123 :: newline_indent 3 ++ dump_field (py "title") (title j)
    ++ 44 :: newline_indent 3 ++ dump_field (py "company") (company j)
    ++ 44 :: newline_indent 3 ++ dump_field (py "link") (link j)
    ++ 44 :: newline_indent 3 ++ dump_field (py "source") (source j)
    ++ newline_indent 2 ++ 125 :: rest.
Proof.
  unfold dump_listing, item_sep. cbn [join]. change (py "{") with [123].
  change (py "}") with [125]. cbn [app].
  repeat (rewrite <- ?app_assoc; cbn [app]). reflexivity.
Qed.

Lemma parse_listing_dump level j rest :
  pair_free_listing j = true ->
  parse_listing (newline_indent level ++ dump_listing j ++ rest) = Some (j, rest).
Proof.
  intros Hj. apply pair_free_listing_iff in Hj. destruct Hj as (Ht & Hc & Hl & Hs).
  rewrite dump_listing_unfold. unfold parse_listing, pbind, pret.
  rewrite expect_indented by reflexivity.
  rewrite parse_field_dump by (trivial; reflexivity).
  rewrite expect_token by reflexivity.
  rewrite parse_field_dump by (trivial; reflexivity).
  rewrite expect_token by reflexivity.
  rewrite parse_field_dump by (trivial; reflexivity).
  rewrite expect_token by reflexivity.
  rewrite parse_field_dump by (trivial; reflexivity).
  rewrite expect_indented by reflexivity.
  now destruct j.
Qed.

Lemma join_cons sep (x : str) xs :
  join sep (x :: xs) = x ++ flat_map (fun y => sep ++ y) xs.
Proof.
  revert x. induction xs as [|y xs IH]; intros x.
  - simpl. now rewrite app_nil_r.
  - change (join sep (x :: y :: xs)) with (x ++ sep ++ join sep (y :: xs)).
    rewrite (IH y). cbn [flat_map]. now rewrite <- app_assoc.
Qed.

Lemma flat_map_map {A B C} (f : A -> B) (g : B -> list C) l :
  flat_map g (map f l) = flat_map (fun x => g (f x)) l.
Proof. induction l as [|x l IH]; simpl; now rewrite ?IH. Qed.

Lemma length_flat_map_ge {A} (f : A -> str) l :
  (forall x, (1 <= List.length (f x))%nat) ->
  (List.length l <= List.length (flat_map f l))%nat.
Proof.
  intros Hf. induction l as [|x l IH]; simpl; [lia|].
  rewrite length_app. specialize (Hf x). lia.
Qed.

Lemma parse_jobs_tail_dump items : forall fuel acc rest,
  (List.length items < fuel)%nat ->
  forallb pair_free_listing items = true ->
  parse_jobs_tail fuel acc (jobs_tail items ++ newline_indent 1 ++ 93 :: rest)
  = Some (rev acc ++ items, rest).
Proof.
  induction items as [|j items IH]; intros fuel acc rest Hf Hwf;
    (destruct fuel as [|fuel]; [simpl in Hf; lia|]).
  - cbn [jobs_tail flat_map app parse_jobs_tail].
    rewrite skip_ws_newline_indent, skip_ws_token by reflexivity.
    change (93 =? 93) with true. cbv iota. now rewrite app_nil_r.
  - cbn [forallb] in Hwf. apply andb_true_iff in Hwf. destruct Hwf as [Hj Hwf].
    cbn [jobs_tail flat_map]. fold (jobs_tail items).
    unfold item_sep at 1. rewrite <- !app_assoc. cbn [app parse_jobs_tail].
    rewrite skip_ws_token by reflexivity.
    change (44 =? 93) with false. change (44 =? 44) with true. cbv iota.
    rewrite <- ?app_assoc. rewrite parse_listing_dump by trivial.
    rewrite IH by (trivial; simpl in Hf; lia).
    cbn [rev]. now rewrite <- app_assoc.
Qed.

Lemma skip_ws_listing level j rest :
  skip_ws (newline_indent level ++ dump_listing j ++ rest)
  = dump_listing j ++ rest.
Proof.
  rewrite skip_ws_newline_indent, dump_listing_unfold. reflexivity.
Qed.

Lemma parse_jobs_dump jobs rest :
  forallb pair_free_listing jobs = true ->
  parse_jobs (32 :: dump_jobs jobs ++ rest) = Some (jobs, rest).
Proof.
  intros Hwf. unfold parse_jobs.
  destruct jobs as [|j jobs].
  - reflexivity.
  - cbn [forallb] in Hwf. apply andb_true_iff in Hwf. destruct Hwf as [Hj Hwf].
    unfold dump_jobs. cbn [map]. rewrite join_cons, flat_map_map.
    fold (jobs_tail jobs). change (py "[") with [91]. change (py "]") with [93].
    rewrite (expect_skip 91 _ (91 :: newline_indent 2 ++ dump_listing j
                ++ jobs_tail jobs ++ newline_indent 1 ++ 93 :: rest))
      by (rewrite skip_ws_space; repeat (rewrite <- ?app_assoc; cbn [app]); reflexivity).
    rewrite expect_token by reflexivity.
    rewrite skip_ws_listing, dump_listing_unfold.
    change (123 =? 93) with false. cbv iota. rewrite <- dump_listing_unfold.
    rewrite parse_listing_dump by trivial.
    change [j] with (rev [j]) at 1.
    rewrite parse_jobs_tail_dump; trivial.
    rewrite !length_app. unfold jobs_tail.
    pose proof (length_flat_map_ge (fun j0 => item_sep 2 ++ dump_listing j0) jobs) as Hl.
    assert (forall x, (1 <= List.length (item_sep 2 ++ dump_listing x))%nat)
      by (intros; unfold item_sep; simpl; lia).
    specialize (Hl H). unfold newline_indent at 1. cbn [List.length]. lia.
Qed.

Lemma parse_entry_dump level e rest :
  pair_free (fst e) = true -> forallb pair_free_listing (snd e) = true ->
  parse_entry (newline_indent level ++ dump_entry e ++ rest) = Some (e, rest).
Proof.
  intros Hk Hv. unfold parse_entry, pbind, pret, dump_entry.
  rewrite (parse_string_skip _ (encode_str (fst e) ++ (py ": " ++ dump_jobs (snd e)) ++ rest))
    by (rewrite skip_ws_newline_indent; now rewrite <- app_assoc).
  rewrite parse_string_encoded by trivial.
  change (py ": ") with [58; 32]. rewrite <- app_assoc. cbn [app].
  rewrite expect_token by reflexivity.
  rewrite parse_jobs_dump by trivial. now destruct e.
Qed.

Lemma set_fresh {V} (d : Dict.dict V) k v :
  ~ In k (Dict.keys d) -> Dict.set d k v = d ++ [(k, v)].
Proof.
  induction d as [|[k' v'] d IH]; simpl; trivial. intros Hni.
  destruct (Str.eqb k' k) eqn:E.
  - apply eqb_eq in E. tauto.
  - f_equal. apply IH. tauto.
Qed.

Lemma parse_entries_tail_dump es : forall fuel acc rest,
  (List.length es < fuel)%nat ->
  pair_free_history es = true ->
  NoDup (Dict.keys (acc ++ es)) ->
  parse_entries_tail fuel acc (entries_tail es ++ newline_indent 0 ++ 125 :: rest)
  = Some (acc ++ es, rest).
Proof.
  induction es as [|e es IH]; intros fuel acc rest Hf Hwf Hnd;
    (destruct fuel as [|fuel]; [simpl in Hf; lia|]).
  - cbn [entries_tail flat_map app parse_entries_tail].
    rewrite skip_ws_newline_indent, skip_ws_token by reflexivity.
    change (125 =? 125) with true. cbv iota. now rewrite app_nil_r.
  - cbn [pair_free_history forallb] in Hwf. apply andb_true_iff in Hwf.
    destruct Hwf as [He Hwf]. apply andb_true_iff in He. destruct He as [Hk Hv].
    cbn [entries_tail flat_map]. fold (entries_tail es).
    unfold item_sep at 1. rewrite <- !app_assoc. cbn [app parse_entries_tail].
    rewrite skip_ws_token by reflexivity.
    change (44 =? 125) with false. change (44 =? 44) with true. cbv iota.
    rewrite <- ?app_assoc. rewrite parse_entry_dump by trivial.
    destruct e as [k v]. cbn [fst snd] in *.
    assert (Hfresh : ~ In k (Dict.keys acc)).
    { unfold Dict.keys in Hnd. rewrite map_app in Hnd. cbn [map fst] in Hnd.
      apply NoDup_remove_2 in Hnd. rewrite in_app_iff in Hnd. tauto. }
    rewrite set_fresh by trivial.
    rewrite IH; trivial.
    + now rewrite <- app_assoc.
    + simpl in Hf. lia.
    + now rewrite <- app_assoc.
Qed.

Lemma skip_ws_entry level e rest :
  exists t, skip_ws (newline_indent level ++ dump_entry e ++ rest) = quote :: t.
Proof.
  rewrite skip_ws_newline_indent. unfold dump_entry, encode_str.
  rewrite <- !app_assoc. cbn [app]. rewrite skip_ws_token by reflexivity. eauto.
Qed.

Lemma parse_history_dump_pair_free (h : History) rest :
  pair_free_history h = true -> NoDup (Dict.keys h) ->
  parse_history (dump h ++ rest) = Some (h, rest).
Proof.
  intros Hwf Hnd. unfold parse_history. destruct h as [|e es].
  - reflexivity.
  - pose proof Hwf as Hwf'. cbn [pair_free_history forallb] in Hwf'.
    apply andb_true_iff in Hwf'. destruct Hwf' as [He Hes].
    apply andb_true_iff in He. destruct He as [Hk Hv].
    unfold dump. cbn [map]. rewrite join_cons, flat_map_map.
    fold (entries_tail es). change (py "{") with [123]. change (py "}") with [125].
    repeat (rewrite <- ?app_assoc; cbn [app]).
    rewrite expect_token by reflexivity.
    destruct (skip_ws_entry 1 e (entries_tail es ++ newline_indent 0 ++ 125 :: rest))
      as [t Ht].
    rewrite Ht. change (quote =? 125) with false. cbv iota.
    rewrite parse_entry_dump by trivial. destruct e as [k v].
    change [(k, v)] with ([] ++ [(k, v)]) at 1.
    rewrite parse_entries_tail_dump; trivial.
    rewrite !length_app. unfold entries_tail.
    pose proof (length_flat_map_ge (fun e0 => item_sep 1 ++ dump_entry e0) es) as Hl.
    assert (forall x, (1 <= List.length (item_sep 1 ++ dump_entry x))%nat)
      by (intros; unfold item_sep; simpl; lia).
    specialize (Hl H). unfold newline_indent at 1. cbn [List.length]. lia.
Qed.

Lemma wf_listing_pair_free (j : Listing) :
  wf_listing j = true -> pair_free_listing j = true.
Proof.
  unfold wf_listing, pair_free_listing. rewrite !andb_true_iff.
  intros [[[Ht Hc] Hl] Hs]. now rewrite !wf_pair_free.
Qed.

Lemma wf_history_pair_free (h : History) :
  wf_history h = true -> pair_free_history h = true.
Proof.
  unfold wf_history, pair_free_history. rewrite !forallb_forall.
  intros H e He. specialize (H e He). apply andb_true_iff in H.
  destruct H as [Hk Hv]. rewrite wf_pair_free by trivial. cbn [andb].
  rewrite forallb_forall in *. intros j Hj. apply wf_listing_pair_free. auto.
Qed.

Lemma parse_history_dump (h : History) rest :
  wf_history h = true -> NoDup (Dict.keys h) ->
  parse_history (dump h ++ rest) = Some (h, rest).
Proof.
  intros Hwf. apply parse_history_dump_pair_free. now apply wf_history_pair_free.
Qed.

(** C6, as the code has it.  A history with distinct keys (a dict)
    none of whose strings holds a high surrogate immediately followed by
    a low surrogate reads back from what [json.dump] writes for it, with
    the same keys in the same order, the same postings in the same order
    and the same fields; through the history file, [load_history] after
    [save_history] returns it, also for the empty history. *)
Theorem load_dump_round_trip (h : History) :
  pair_free_history h = true -> NoDup (Dict.keys h) ->
  load (dump h) = Some h
  /\ forall w, exists w',
       Scraper.save_history h w = (Ok tt, w')
       /\ Scraper.load_history w' = (Ok h, w').
Proof.
  intros Hpf Hnd.
  assert (E : load (dump h) = Some h).
  { unfold load. rewrite <- (app_nil_r (dump h)).
    now rewrite parse_history_dump_pair_free. }
  split; trivial. intros w. eexists. split; [reflexivity|].
  unfold Scraper.load_history. cbn [Scraper.history_file]. now rewrite E.
Qed.

Lemma load_dump_round_trip_witness :
  pair_free_history history_lone = true /\ NoDup (Dict.keys history_lone)
  /\ load (dump history_lone) = Some history_lone
  /\ forall w, exists w',
        Scraper.save_history history_lone w = (Ok tt, w')
        /\ Scraper.load_history w' = (Ok history_lone, w').
Proof.
  assert (Hnd : NoDup (Dict.keys history_lone)).
  { repeat constructor; simpl; intuition discriminate. }
  split; [reflexivity|]. split; [exact Hnd|].
  exact (load_dump_round_trip history_lone eq_refl Hnd).
Defined.

(** The empty history is written as an empty object and reads back. *)
Example load_dump_empty : dump [] = py "{}" /\ load (dump []) = Some [].
Proof. split; reflexivity. Qed.

(** C6, as stated, fails: a history in which a title holds a high and a
    low surrogate side by side is a dict of postings like any other; the
    pair is written as two escapes, which read back as the one character
    they encode in UTF-16, so what is loaded is not what was saved. *)
Lemma surrogate_pair_reads_back_joined :
  NoDup (Dict.keys history_pair)
  /\ dump history_pair = dump history_joined
  /\ load (dump history_pair) = Some history_joined
  /\ history_joined <> history_pair
  /\ forall w, exists w',
       Scraper.save_history history_pair w = (Ok tt, w')
       /\ Scraper.load_history w' = (Ok history_joined, w').
Proof.
  split; [repeat constructor; simpl; tauto|].
  split; [reflexivity|]. split; [reflexivity|]. split; [discriminate|].
  intros w. eexists. split; reflexivity.
Qed.

End JsonRoundTrip.

(** ** The run *)

Module MainFacts.
Import Calendar Scraper AdapterFacts HistoryFacts RenderFacts Spec Examples.

Section WithLower.
Variable lower : str -> str.

Lemma main_pull_raises net w e :
  pull_all net = Raise e -> main lower net w = (Raise e, w).
Proof. intros H. unfold main, mbind, lift. now rewrite H. Qed.

(** C1, as the code has it.  When one adapter raises and the others
    return, [main] raises that adapter's exception and leaves the world
    as it found it: no history is written, no document, no summary. *)
Theorem source_failure_aborts_run (net : Net) (w : World) (a : Adapter) (e : exn) :
  only_fails net a e ->
  main lower net w = (Raise e, w).
Proof.
  intros [Hfail Hothers]. apply main_pull_raises. unfold pull_all.
  assert (Hok : forall a', a' <> a ->
            exists jobs, fetch a' net (url_of a') = Ok jobs) by exact Hothers.
  destruct a; simpl in Hfail.
  - now rewrite Hfail.
  - destruct (Hok Indeed ltac:(discriminate)) as [j1 H1]. simpl in H1.
    now rewrite H1, Hfail.
  - destruct (Hok Indeed ltac:(discriminate)) as [j1 H1].
    destruct (Hok ZipRecruiter ltac:(discriminate)) as [j2 H2]. simpl in H1, H2.
    now rewrite H1, H2, Hfail.
  - destruct (Hok Indeed ltac:(discriminate)) as [j1 H1].
    destruct (Hok ZipRecruiter ltac:(discriminate)) as [j2 H2].
    destruct (Hok PilotCareerCenter ltac:(discriminate)) as [j3 H3].
    simpl in H1, H2, H3. now rewrite H1, H2, H3, Hfail.
Qed.

(** When the four adapters return, the history file reads as a history,
    its update returns and the document can be encoded, the run
    completes: the pool is the four outputs in order, the filtered pool
    is stored under today's key in the history written to the file, the
    document is written and the summary printed. *)
Lemma main_completes (net : Net) (w : World) j1 j2 j3 j4 h0 h :
  fetch_indeed net URL_INDEED = Ok j1 ->
  fetch_zip net URL_ZIP = Ok j2 ->
  fetch_pilotcareercenter net URL_PCC = Ok j3 ->
  fetch_glassdoor net URL_GLASSDOOR = Ok j4 ->
  load_history w = (Ok h0, w) ->
  let today_jobs := filter_jobs lower (j1 ++ j2 ++ j3 ++ j4) in
  update h0 (clock w) today_jobs DAYS_TO_KEEP = Ok h ->
  encodable (render (clock w) today_jobs h) = true ->
  main lower net w
  = (Ok tt,
     mkWorld (Some (Json.dump h))
       (Some (render (clock w) today_jobs h))
       (stdout w ++ [summary today_jobs h]) (clock w)).
Proof.
  intros H1 H2 H3 H4 Hl today_jobs Hu He.
  unfold main, mbind, lift, pull_all. rewrite H1, H2, H3, H4.
  cbv zeta. cbn [rbind app]. rewrite <- !app_assoc. fold today_jobs.
  rewrite update_history_unfold, Hl, Hu, generate_html_unfold.
  cbn [clock]. rewrite He. reflexivity.
Qed.

End WithLower.

(** *** A run with one source down *)

Lemma zip_down_only_fails : only_fails net_zip_down ZipRecruiter RequestException.
Proof.
  split; [reflexivity|].
  intros [] H; try congruence; eexists; reflexivity.
Qed.

(** C1, as stated, fails: with ZipRecruiter down and the three other
    sources answering, the run does not complete. *)
Lemma source_failure_is_fatal :
  only_fails net_zip_down ZipRecruiter RequestException
  /\ main Str.ascii_lower net_zip_down world0 = (Raise RequestException, world0)
  /\ ~ completes_tolerantly Str.ascii_lower net_zip_down world0.
Proof.
  split; [exact zip_down_only_fails|].
  assert (E : main Str.ascii_lower net_zip_down world0
              = (Raise RequestException, world0)) by reflexivity.
  split; [exact E|].
  intros (w' & h & Hmain & _). rewrite E in Hmain. discriminate.
Qed.

Lemma source_failure_aborts_run_witness :
  only_fails net_zip_down ZipRecruiter RequestException
  /\ main Str.ascii_lower net_zip_down world0 = (Raise RequestException, world0).
Proof.
  split; [exact zip_down_only_fails|].
  exact (source_failure_aborts_run Str.ascii_lower net_zip_down world0
           ZipRecruiter RequestException zip_down_only_fails).
Defined.

Example run_all_up :
  exists w',
    main Str.ascii_lower net_all_up world0 = (Ok tt, w')
    /\ option_map Json.load (history_file w')
       = Some (Some [(py "2026-11-03",
             [mkListing (py "Caravan Pilot") (py "Unknown")
                (py "https://www.indeed.com/rc/clk?jk=1") (py "Indeed");
              mkListing (py "PC-12 Captain") (py "Desert Air")
                (py "https://www.indeed.com/rc/clk?jk=3") (py "Indeed");
              mkListing (py "Caravan First Officer") (py "Ameriflight")
                URL_PCC (py "PilotCareerCenter");
              mkListing (py "Cargo Pilot") (py "Unknown")
                (py "https://www.glassdoor.com/job-listing/1") (py "Glassdoor")])])
    /\ stdout w' = [[CHECK_MARK] ++ py " Saved 4 new jobs, 1 days in archive."].
Proof. eexists. split; [vm_compute; reflexivity|]. split; vm_compute; reflexivity. Qed.

End MainFacts.

(** ** More on the source adapters *)

Module AdapterMore.
Import Scraper Spec Examples StrFacts AdapterFacts.

Section Loop.
Context {A : Type} (body : A -> result (option Listing)).

Lemma for_each_Forall (P : Listing -> Prop) (l : list A) (jobs : list Listing) :
  (forall x j, In x l -> body x = Ok (Some j) -> P j) ->
  for_each body l [] = Ok jobs -> Forall P jobs.
Proof.
  revert jobs. induction l as [|x l IH]; intros jobs HP.
  - intros [= <-]. constructor.
  - rewrite for_each_cons.
    destruct (body x) as [r|] eqn:Ex; simpl; [|discriminate].
    destruct (for_each body l []) as [out|]; simpl; [|discriminate].
    intros [= <-]. apply Forall_app. split.
    + destruct r as [j|]; simpl; constructor; [|constructor].
      apply (HP x j); [now left | exact Ex].
    + apply IH; trivial. intros y j Hy. apply HP. now right.
Qed.

(** The postings of a loop that returns correspond, one to one and in
    page order, to the elements on which the body gave a posting. *)
Lemma for_each_Forall2 (R : A -> Listing -> Prop) (l : list A)
  (jobs : list Listing) :
  (forall x j, In x l -> body x = Ok (Some j) -> R x j) ->
  for_each body l [] = Ok jobs ->
  Forall2 R
    (filter (fun x => match body x with Ok (Some _) => true | _ => false end) l)
    jobs.
Proof.
  revert jobs. induction l as [|x l IH]; intros jobs HR.
  - intros [= <-]. constructor.
  - rewrite for_each_cons. cbn [filter].
    destruct (body x) as [r|] eqn:Ex; cbn [rbind]; [|discriminate].
    destruct (for_each body l []) as [out|]; cbn [rbind]; [|discriminate].
    intros [= <-].
    assert (Hout : Forall2 R
              (filter (fun x => match body x with Ok (Some _) => true | _ => false end) l)
              out).
    { apply IH; trivial. intros y j Hy. apply HR. now right. }
    destruct r as [j|]; cbn [contribution app]; trivial.
    constructor; trivial. apply HR; [now left | exact Ex].
Qed.

Lemma for_each_length (l : list A) (jobs : list Listing) :
  for_each body l [] = Ok jobs -> (List.length jobs <= List.length l)%nat.
Proof.
  revert jobs. induction l as [|x l IH]; intros jobs.
  - intros [= <-]. simpl. lia.
  - rewrite for_each_cons.
    destruct (body x) as [r|]; simpl; [|discriminate].
    destruct (for_each body l []) as [out|]; simpl; [|discriminate].
    intros [= <-]. rewrite length_app. specialize (IH out eq_refl).
    destruct r; simpl; lia.
Qed.

(** A loop whose body returns on every element returns the
    contributions in order. *)
Lemma for_each_ok (f : A -> option Listing) (l : list A) :
  (forall x, In x l -> body x = Ok (f x)) ->
  for_each body l [] = Ok (flat_map (fun x => contribution (f x)) l).
Proof.
  induction l as [|x l IH]; intros H; trivial.
  rewrite for_each_cons, (H x (or_introl eq_refl)). simpl.
  rewrite IH by (intros y Hy; apply H; now right). reflexivity.
Qed.

(** The loop returns exactly when its body returns on every element. *)
Lemma for_each_returns_iff (l : list A) :
  (exists jobs, for_each body l [] = Ok jobs)
  <-> Forall (fun x => exists r, body x = Ok r) l.
Proof.
  induction l as [|x l IH].
  - split; [constructor | intros _; now exists []].
  - rewrite for_each_cons. split.
    + intros [jobs H]. destruct (body x) as [r|] eqn:Ex; simpl in H; [|discriminate].
      destruct (for_each body l []) as [out|]; simpl in H; [|discriminate].
      constructor; [now exists r|]. apply IH. now exists out.
    + intros H. inversion H as [|? ? [r Hr] Hl]; subst.
      apply IH in Hl. destruct Hl as [out Hout]. rewrite Hr, Hout. simpl. eauto.
Qed.

End Loop.

Lemma startswith_app (p s : str) : Str.startswith p (p ++ s) = true.
Proof. apply startswith_spec. now exists s. Qed.

Lemma body_source (a : Adapter) (url : str) (e : Element) (j : Listing) :
  body a url e = Ok (Some j) -> source j = adapter_name a.
Proof.
  destruct a; simpl.
  - unfold indeed_card.
    destruct (select_one e (py "h2")); simpl; [|discriminate].
    destruct (select_one e (py "a")) as [tg|]; simpl; [|discriminate].
    destruct (getitem tg (py "href")); simpl; [|discriminate]. now intros [= <-].
  - unfold zip_card.
    destruct (select_one e (py "a")) as [tg|]; simpl; [|discriminate].
    destruct (getitem tg (py "href")); simpl; [|discriminate]. now intros [= <-].
  - unfold pcc_row. destruct (find_all e (py "td")) as [|c0 [|c1 cs]];
      try discriminate. now intros [= <-].
  - unfold glassdoor_card. now intros [= <-].
Qed.

Lemma body_link (a : Adapter) (url : str) (e : Element) (j : Listing) :
  body a url e = Ok (Some j) -> link_shape a url (link j).
Proof.
  destruct a; cbn [body link_shape].
  - unfold indeed_card.
    destruct (select_one e (py "h2")); cbn [rbind]; [|discriminate].
    destruct (select_one e (py "a")) as [tg|]; cbn [rbind]; [|discriminate].
    destruct (getitem tg (py "href")) as [href|]; cbn [rbind]; [|discriminate].
    intros H.
    assert (E : link j = py "https://www.indeed.com" ++ href)
      by (injection H as <-; reflexivity).
    rewrite E. apply startswith_app.
  - unfold zip_card.
    destruct (select_one e (py "a")) as [tg|]; [|discriminate].
    destruct (getitem tg (py "href")) as [href|]; cbn [rbind]; [|discriminate].
    intros H.
    assert (E : link j = if Str.startswith (py "http") href then href
                         else py "https://www.ziprecruiter.com" ++ href)
      by (injection H as <-; reflexivity).
    rewrite E. destruct (Str.startswith (py "http") href) eqn:Eh; trivial.
  - unfold pcc_row. destruct (find_all e (py "td")) as [|c0 [|c1 cs]];
      try discriminate. now intros [= <-].
  - unfold glassdoor_card. intros H.
    assert (E : link j = py "https://www.glassdoor.com"
                         ++ get_default (attrs e) (py "data-link") [])
      by (injection H as <-; reflexivity).
    rewrite E. apply startswith_app.
Qed.

Lemma fetch_inv (a : Adapter) (net : Net) (url : str) (jobs : list Listing) :
  fetch a net url = Ok jobs ->
  exists soup, net url = Ok soup
               /\ for_each (body a url) (soup (container a)) [] = Ok jobs.
Proof.
  rewrite fetch_unfold. destruct (net url) as [soup|]; simpl; [|discriminate].
  intros H. now exists soup.
Qed.

(** X1.  Every posting an adapter returns carries that adapter's name
    in its [source] field. *)
Theorem adapter_tags_source (a : Adapter) (net : Net) (url : str)
  (jobs : list Listing) :
  fetch a net url = Ok jobs ->
  Forall (fun j => source j = adapter_name a) jobs.
Proof.
  intros H. destruct (fetch_inv _ _ _ _ H) as (soup & _ & Hloop).
  eapply for_each_Forall; [|exact Hloop].
  intros x j _. apply body_source.
Qed.

Lemma body_link_of (a : Adapter) (url : str) (e : Element) (j : Listing) :
  body a url e = Ok (Some j) -> link_of a url e (link j).
Proof.
  destruct a; cbn [body link_of].
  - unfold indeed_card, getitem.
    destruct (select_one e (py "h2")); cbn [rbind]; [|discriminate].
    destruct (select_one e (py "a")) as [tg|]; cbn [rbind]; [|discriminate].
    destruct (Dict.get (tag_attrs tg) (py "href")) as [href|] eqn:Eh;
      cbn [of_option rbind]; [|discriminate].
    intros H. exists tg, href. repeat split; trivial.
    injection H as <-. reflexivity.
  - unfold zip_card, getitem.
    destruct (select_one e (py "a")) as [tg|]; [|discriminate].
    destruct (Dict.get (tag_attrs tg) (py "href")) as [href|] eqn:Eh;
      cbn [of_option rbind]; [|discriminate].
    intros H. exists tg, href. repeat split; trivial.
    injection H as <-. reflexivity.
  - unfold pcc_row. destruct (find_all e (py "td")) as [|c0 [|c1 cs]];
      try discriminate. now intros [= <-].
  - unfold glassdoor_card, get_default. intros H. injection H as <-. reflexivity.
Qed.

(** X2.  The postings an adapter returns correspond, one to one and in
    page order, to the elements that give a posting, and the link of each
    is made from its element: for Indeed the board's site followed by the
    [href] of the card's link; for Glassdoor the board's site followed by
    the card's [data-link], or by nothing when it has none; for
    ZipRecruiter the [href] of the card's link when that starts with
    [http] and the board's site followed by it otherwise, so that it
    starts with [http] either way; for PilotCareerCenter the fetched
    page. *)
Theorem adapter_links_absolute (a : Adapter) (net : Net) (url : str)
  (soup : Soup) (jobs : list Listing) :
  net url = Ok soup -> fetch a net url = Ok jobs ->
  Forall2 (fun e j => link_of a url e (link j))
    (filter (yields a url) (soup (container a))) jobs
  /\ Forall (fun j => link_shape a url (link j)) jobs.
Proof.
  intros Hnet H. rewrite fetch_unfold, Hnet in H. cbn [rbind] in H. split.
  - apply (for_each_Forall2 (body a url)
             (fun e j => link_of a url e (link j))); trivial.
    intros x j _. apply body_link_of.
  - eapply for_each_Forall; [|exact H].
    intros x j _. apply body_link.
Qed.

(** X3.  An adapter returns at most one posting per element of the
    page, whatever the page holds. *)
Theorem adapter_at_most_one_per_element (a : Adapter) (net : Net) (url : str)
  (soup : Soup) (jobs : list Listing) :
  net url = Ok soup -> fetch a net url = Ok jobs ->
  (List.length jobs <= List.length (soup (container a)))%nat.
Proof.
  intros Hnet H. rewrite fetch_unfold, Hnet in H. simpl in H.
  now apply for_each_length in H.
Qed.

Lemma for_each_count {A} (body : A -> result (option Listing)) (p : A -> bool)
  (l : list A) (jobs : list Listing) :
  (forall x r, In x l -> body x = Ok r ->
     p x = match r with Some _ => true | None => false end) ->
  for_each body l [] = Ok jobs ->
  List.length jobs = List.length (filter p l).
Proof.
  revert jobs. induction l as [|x l IH]; intros jobs Hp.
  - now intros [= <-].
  - rewrite for_each_cons.
    destruct (body x) as [r|] eqn:Ex; simpl; [|discriminate].
    destruct (for_each body l []) as [out|]; simpl; [|discriminate].
    intros [= <-]. rewrite length_app, (Hp x r (or_introl eq_refl) Ex).
    rewrite (IH out) by (trivial; intros y ry Hy; apply Hp; now right).
    destruct r; simpl; lia.
Qed.

Lemma flat_map_contribution_Some {A} (g : A -> Listing) (l : list A) :
  flat_map (fun x => contribution (Some (g x))) l = map g l.
Proof. induction l as [|x l IH]; simpl; now rewrite ?IH. Qed.

Lemma flat_map_contribution_if {A} (p : A -> bool) (g : A -> Listing) (l : list A) :
  flat_map (fun x => contribution (if p x then Some (g x) else None)) l
  = map g (filter p l).
Proof.
  induction l as [|x l IH]; simpl; trivial.
  destruct (p x); simpl; now rewrite IH.
Qed.

Lemma Forall2_map_r {A B} (R : A -> B -> Prop) (g : A -> B) (l : list A) :
  (forall x, R x (g x)) -> Forall2 R l (map g l).
Proof. intros H. induction l; simpl; constructor; auto. Qed.

(** X4.  On a fetched page the Glassdoor adapter never raises and
    returns exactly one posting per card, in page order; each field is
    the card's attribute, or its default when the attribute is absent:
    "Pilot Job" for the title, "Unknown" for the company, the bare site
    for the link. *)
Theorem fetch_glassdoor_one_per_card (net : Net) (url : str) (soup : Soup) :
  net url = Ok soup ->
  exists jobs,
    fetch_glassdoor net url = Ok jobs
    /\ Forall2 glassdoor_fields (soup (py "li.react-job-listing")) jobs.
Proof.
  intros Hnet. unfold fetch_glassdoor. rewrite Hnet. cbn [rbind].
  set (g := fun card : Element =>
    mkListing
      (get_default (attrs card) (py "data-normalize-job-title") (py "Pilot Job"))
      (get_default (attrs card) (py "data-company") (py "Unknown"))
      (py "https://www.glassdoor.com" ++ get_default (attrs card) (py "data-link") [])
      (py "Glassdoor")).
  exists (map g (soup (py "li.react-job-listing"))). split.
  - rewrite (for_each_ok glassdoor_card (fun card => Some (g card)))
      by reflexivity.
    now rewrite flat_map_contribution_Some.
  - apply Forall2_map_r. intros card. unfold glassdoor_fields, g, get_default.
    cbn [title company link source]. repeat split.
Qed.

(** X5.  On a fetched page the PilotCareerCenter adapter never raises:
    it returns, in page order, one posting for each table row with at
    least two cells, made of the text of the first two cells and the
    page's own URL, and passes over the shorter rows. *)
Theorem fetch_pilotcareercenter_rows (net : Net) (url : str) (soup : Soup) :
  net url = Ok soup ->
  fetch_pilotcareercenter net url
  = Ok (map (fun row => mkListing (cell_text row 0) (cell_text row 1) url
                          (py "PilotCareerCenter"))
          (filter has_two_cells (soup (py "table tr")))).
Proof.
  intros Hnet. unfold fetch_pilotcareercenter. rewrite Hnet. cbn [rbind].
  rewrite <- flat_map_contribution_if. apply for_each_ok.
  intros row _. unfold pcc_row, has_two_cells, cell_text.
  destruct (find_all row (py "td")) as [|c0 [|c1 cs]]; reflexivity.
Qed.

Lemma indeed_card_returns (card : Element) :
  (exists r, indeed_card card = Ok r) <-> indeed_usable card.
Proof.
  unfold indeed_card, indeed_usable, getitem.
  destruct (select_one card (py "h2")) as [h|]; cbn [rbind].
  - destruct (select_one card (py "a")) as [a|].
    + destruct (Dict.get (tag_attrs a) (py "href")) as [href|] eqn:Eh; cbn [of_option rbind].
      * split; [|eauto]. intros _. split; [discriminate|].
        exists a. split; trivial. rewrite Eh. discriminate.
      * split; [intros [r H]; discriminate|].
        intros [_ (a' & [= <-] & H)]. congruence.
    + split; [intros [r H]; discriminate|].
      intros [_ (a' & H & _)]. discriminate.
  - split; [intros [r H]; discriminate | intros [H _]; congruence].
Qed.

Lemma indeed_card_Some (card : Element) (r : option Listing) :
  indeed_card card = Ok r -> r <> None.
Proof.
  unfold indeed_card.
  destruct (select_one card (py "h2")); cbn [rbind]; [|discriminate].
  destruct (select_one card (py "a")) as [a|]; cbn [rbind]; [|discriminate].
  destruct (getitem a (py "href")); cbn [rbind]; [|discriminate].
  intros [= <-]. discriminate.
Qed.

(** X6.  On a fetched page the Indeed adapter returns exactly when every
    card has a heading and a link with an [href]; it then returns one
    posting per card.  A single card without them makes it raise. *)
Theorem fetch_indeed_returns_iff (net : Net) (url : str) (soup : Soup) :
  net url = Ok soup ->
  ((exists jobs, fetch_indeed net url = Ok jobs)
   <-> Forall indeed_usable (soup (py "div.job_seen_beacon")))
  /\ (forall jobs, fetch_indeed net url = Ok jobs ->
        List.length jobs = List.length (soup (py "div.job_seen_beacon"))).
Proof.
  intros Hnet. unfold fetch_indeed. rewrite Hnet. cbn [rbind]. split.
  - rewrite for_each_returns_iff.
    split; intros H; eapply Forall_impl; try exact H; intros card;
      apply indeed_card_returns.
  - intros jobs H.
    rewrite (for_each_count indeed_card (fun _ => true)
               (soup (py "div.job_seen_beacon")) jobs); trivial.
    + now rewrite filter_true.
    + intros card r _ Hr. apply indeed_card_Some in Hr. now destruct r.
Qed.

Lemma zip_card_returns (card : Element) :
  (exists r, zip_card card = Ok r) <-> zip_usable card.
Proof.
  unfold zip_card, zip_usable, getitem.
  destruct (select_one card (py "a")) as [a|].
  - destruct (Dict.get (tag_attrs a) (py "href")) as [href|] eqn:Eh; cbn [of_option rbind].
    + split; [|eauto]. intros _ a' [= <-]. rewrite Eh. discriminate.
    + split; [intros [r H]; discriminate|].
      intros H. specialize (H a eq_refl). congruence.
  - split; [discriminate | eauto].
Qed.

Lemma zip_card_anchor (card : Element) (r : option Listing) :
  zip_card card = Ok r ->
  has_anchor card = match r with Some _ => true | None => false end.
Proof.
  unfold zip_card, has_anchor.
  destruct (select_one card (py "a")) as [a|]; [|now intros [= <-]].
  destruct (getitem a (py "href")); cbn [rbind]; [|discriminate].
  now intros [= <-].
Qed.

(** X7.  On a fetched page the ZipRecruiter adapter passes over the
    cards without a link and returns one posting for each card with
    one; it returns exactly when every link it finds has an [href]. *)
Theorem fetch_zip_returns_iff (net : Net) (url : str) (soup : Soup) :
  net url = Ok soup ->
  ((exists jobs, fetch_zip net url = Ok jobs)
   <-> Forall zip_usable (soup (py "article.job_content")))
  /\ (forall jobs, fetch_zip net url = Ok jobs ->
        List.length jobs
        = List.length (filter has_anchor (soup (py "article.job_content")))).
Proof.
  intros Hnet. unfold fetch_zip. rewrite Hnet. cbn [rbind]. split.
  - rewrite for_each_returns_iff.
    split; intros H; eapply Forall_impl; try exact H; intros card;
      apply zip_card_returns.
  - intros jobs H. apply (for_each_count zip_card); trivial.
    intros card r _. apply zip_card_anchor.
Qed.

(** *** On worked pages *)

Lemma adapter_tags_source_witness :
  exists jobs,
    fetch ZipRecruiter net_small URL_ZIP = Ok jobs
    /\ List.length jobs = 2%nat
    /\ Forall (fun j => source j = adapter_name ZipRecruiter) jobs.
Proof.
  eexists. split; [reflexivity|]. split; [reflexivity|].
  apply (adapter_tags_source ZipRecruiter net_small URL_ZIP). reflexivity.
Defined.

Lemma adapter_links_absolute_witness :
  exists jobs,
    net_small URL_ZIP = Ok zip_page
    /\ fetch ZipRecruiter net_small URL_ZIP = Ok jobs
    /\ map link jobs
       = [py "https://jobs.example.com/77";
          py "https://www.ziprecruiter.com/jobs/78"]
    /\ Forall2 (fun e j => link_of ZipRecruiter URL_ZIP e (link j))
         (filter (yields ZipRecruiter URL_ZIP)
            (zip_page (container ZipRecruiter))) jobs
    /\ Forall (fun j => link_shape ZipRecruiter URL_ZIP (link j)) jobs.
Proof.
  eexists. split; [reflexivity|]. split; [reflexivity|]. split; [reflexivity|].
  apply (adapter_links_absolute ZipRecruiter net_small URL_ZIP zip_page);
    reflexivity.
Defined.

Lemma adapter_at_most_one_per_element_witness :
  exists jobs,
    net_small URL_PCC = Ok pcc_page
    /\ fetch PilotCareerCenter net_small URL_PCC = Ok jobs
    /\ (List.length jobs <= List.length (pcc_page (container PilotCareerCenter)))%nat.
Proof.
  eexists. split; [reflexivity|]. split; [reflexivity|].
  apply (adapter_at_most_one_per_element PilotCareerCenter net_small URL_PCC pcc_page);
    reflexivity.
Defined.

Lemma fetch_glassdoor_one_per_card_witness :
  net_small URL_GLASSDOOR = Ok (page (py "li.react-job-listing") [glassdoor_card0])
  /\ exists jobs,
       fetch_glassdoor net_small URL_GLASSDOOR = Ok jobs
       /\ Forall2 glassdoor_fields
            (page (py "li.react-job-listing") [glassdoor_card0]
               (py "li.react-job-listing")) jobs.
Proof.
  split; [reflexivity|].
  apply (fetch_glassdoor_one_per_card net_small URL_GLASSDOOR). reflexivity.
Defined.

Lemma fetch_pilotcareercenter_rows_witness :
  net_small URL_PCC = Ok pcc_page
  /\ fetch_pilotcareercenter net_small URL_PCC
     = Ok (map (fun row => mkListing (cell_text row 0) (cell_text row 1) URL_PCC
                             (py "PilotCareerCenter"))
             (filter has_two_cells (pcc_page (py "table tr")))).
Proof.
  split; [reflexivity|].
  apply (fetch_pilotcareercenter_rows net_small URL_PCC pcc_page). reflexivity.
Defined.

Lemma fetch_indeed_returns_iff_witness :
  net_small URL_INDEED = Ok indeed_page_ok
  /\ ((exists jobs, fetch_indeed net_small URL_INDEED = Ok jobs)
      <-> Forall indeed_usable (indeed_page_ok (py "div.job_seen_beacon")))
  /\ (forall jobs, fetch_indeed net_small URL_INDEED = Ok jobs ->
        List.length jobs = List.length (indeed_page_ok (py "div.job_seen_beacon"))).
Proof.
  split; [reflexivity|].
  apply (fetch_indeed_returns_iff net_small URL_INDEED indeed_page_ok). reflexivity.
Defined.

Lemma fetch_zip_returns_iff_witness :
  net_small URL_ZIP = Ok zip_page
  /\ ((exists jobs, fetch_zip net_small URL_ZIP = Ok jobs)
      <-> Forall zip_usable (zip_page (py "article.job_content")))
  /\ (forall jobs, fetch_zip net_small URL_ZIP = Ok jobs ->
        List.length jobs
        = List.length (filter has_anchor (zip_page (py "article.job_content")))).
Proof.
  split; [reflexivity|].
  apply (fetch_zip_returns_iff net_small URL_ZIP zip_page). reflexivity.
Defined.

End AdapterMore.

(** ** More on the keyword filter *)

Module FilterMore.
Import Scraper Spec Examples StrFacts FilterFacts.

Section WithLower.
Variable lower : str -> str.

(** The test [filter_jobs] applies to one posting. *)
Lemma filter_jobs_with_filter (K : list str) (jobs : list Listing) :
  filter_jobs_with lower K jobs
  = filter (fun j => existsb (fun k => Str.contains k (job_text lower j)) K) jobs.
Proof.
  induction jobs as [|j jobs IH]; simpl; trivial.
  now destruct (existsb _ K); rewrite IH.
Qed.

Lemma filter_idem {A} (f : A -> bool) (l : list A) :
  filter f (filter f l) = filter f l.
Proof.
  induction l as [|x l IH]; simpl; trivial.
  destruct (f x) eqn:E; simpl; rewrite ?E, IH; trivial.
Qed.

(** X8.  Filtering is idempotent: filtering an already filtered list
    changes nothing. *)
Theorem filter_jobs_idempotent (K : list str) (jobs : list Listing) :
  filter_jobs_with lower K (filter_jobs_with lower K jobs)
  = filter_jobs_with lower K jobs
  /\ filter_jobs lower (filter_jobs lower jobs) = filter_jobs lower jobs.
Proof.
  assert (H : forall K', filter_jobs_with lower K' (filter_jobs_with lower K' jobs)
                         = filter_jobs_with lower K' jobs).
  { intros K'. rewrite !filter_jobs_with_filter. apply filter_idem. }
  split; [apply H | apply (H KEYWORDS)].
Qed.

(** X9.  Filtering a concatenation is concatenating the filtered parts:
    each posting is judged on its own, whatever stands around it. *)
Theorem filter_jobs_app (K : list str) (jobs1 jobs2 : list Listing) :
  filter_jobs_with lower K (jobs1 ++ jobs2)
  = filter_jobs_with lower K jobs1 ++ filter_jobs_with lower K jobs2.
Proof. rewrite !filter_jobs_with_filter. apply filter_app. Qed.

(** X10.  The filter depends on the keywords as a set: two keyword lists
    with the same members, in any order and with any repetition, keep
    the same postings. *)
Theorem filter_jobs_keyword_set (K K' : list str) (jobs : list Listing) :
  (forall k, In k K <-> In k K') ->
  filter_jobs_with lower K jobs = filter_jobs_with lower K' jobs.
Proof.
  intros H. rewrite !filter_jobs_with_filter. apply filter_ext. intros j.
  apply eq_true_iff_eq. rewrite !existsb_exists.
  split; intros [k [Hk Hc]]; exists k; split; trivial; now apply H.
Qed.

(** X11.  An empty keyword is contained in every text, so a keyword list
    that holds the empty string keeps every posting. *)
Theorem filter_jobs_empty_keyword (K : list str) (jobs : list Listing) :
  In [] K -> filter_jobs_with lower K jobs = jobs.
Proof.
  intros H. rewrite filter_jobs_with_filter.
  rewrite (filter_ext _ (fun _ => true)); [apply filter_true|].
  intros j. apply existsb_exists. exists []. split; trivial. apply contains_nil.
Qed.

End WithLower.

Lemma filter_jobs_keyword_set_witness :
  (forall k, In k KEYWORDS <-> In k (rev KEYWORDS ++ [py "cargo"]))
  /\ filter_jobs_with Str.ascii_lower KEYWORDS [caravan_pilot; accountant]
     = filter_jobs_with Str.ascii_lower (rev KEYWORDS ++ [py "cargo"])
         [caravan_pilot; accountant].
Proof.
  assert (H : forall k, In k KEYWORDS <-> In k (rev KEYWORDS ++ [py "cargo"])).
  { intros k. simpl. tauto. }
  split; [exact H|].
  exact (filter_jobs_keyword_set Str.ascii_lower KEYWORDS
           (rev KEYWORDS ++ [py "cargo"]) [caravan_pilot; accountant] H).
Defined.

Lemma filter_jobs_empty_keyword_witness :
  In [] [py "caravan"; []]
  /\ filter_jobs_with Str.ascii_lower [py "caravan"; []] [caravan_pilot; accountant]
     = [caravan_pilot; accountant].
Proof.
  assert (H : In [] [py "caravan"; []]) by (simpl; tauto).
  split; [exact H|].
  exact (filter_jobs_empty_keyword Str.ascii_lower [py "caravan"; []]
           [caravan_pilot; accountant] H).
Defined.

End FilterMore.

(** ** More on the history *)

Module HistoryMore.
Import Calendar CalendarFacts Json Scraper Spec Examples StrFacts DictFacts
       HistoryFacts JsonFacts JsonRoundTrip.

Lemma set_same {V} (d : Dict.dict V) (k : str) (v : V) :
  Dict.get d k = Some v -> Dict.set d k v = d.
Proof.
  induction d as [|[k' v'] d IH]; simpl; [discriminate|].
  destruct (Str.eqb k' k) eqn:E.
  - apply eqb_eq in E. now intros [= ->]; subst.
  - intros H. now rewrite IH.
Qed.

Lemma day_keys_filter (P : str -> bool) (h : History) :
  day_keys h = true -> day_keys (filter (fun e => P (fst e)) h) = true.
Proof.
  unfold day_keys. rewrite keys_filter, !forallb_forall.
  intros H k Hk. apply filter_In in Hk. now apply H.
Qed.

Lemma length_filter_le {A} (f : A -> bool) (l : list A) :
  (List.length (filter f l) <= List.length l)%nat.
Proof. induction l as [|x l IH]; simpl; [lia|]. destruct (f x); simpl; lia. Qed.

Lemma update_NoDup (h h' : History) today jobs n :
  update h today jobs n = Ok h' -> NoDup (Dict.keys h) -> NoDup (Dict.keys h').
Proof.
  intros Hup Hnd. destruct (update_inv _ _ _ _ _ Hup) as (cutoff & _ & _ & ->).
  apply NoDup_keys_filter. now apply NoDup_keys_set.
Qed.

(** X12.  The history [update] returns is well formed: its keys all
    read as ISO dates, they are keys of the old history or today's key
    (none is invented), they stay distinct when they were, and there is
    at most one more of them than before. *)
Theorem update_result_well_formed (h h' : History) (today : date)
  (jobs : list Listing) (n : Z) :
  update h today jobs n = Ok h' ->
  day_keys h' = true
  /\ (forall k, In k (Dict.keys h') -> k = isoformat today \/ In k (Dict.keys h))
  /\ (NoDup (Dict.keys h) -> NoDup (Dict.keys h'))
  /\ (List.length h' <= S (List.length h))%nat.
Proof.
  intros Hup. destruct (update_inv _ _ _ _ _ Hup) as (cutoff & Hc & Hk & ->).
  repeat split.
  - now apply day_keys_filter.
  - intros k Hin. rewrite keys_filter in Hin. apply filter_In in Hin.
    now apply In_keys_set with (v := jobs).
  - intros Hnd. apply NoDup_keys_filter. now apply NoDup_keys_set.
  - pose proof (length_filter_le (fun e => keep cutoff (fst e))
                  (Dict.set h (isoformat today) jobs)).
    pose proof (length_set_bounds h (isoformat today) jobs). lia.
Qed.

Lemma prune_malformed cutoff (h : History) (k : str) :
  In k (Dict.keys h) -> fromisoformat k = None ->
  prune cutoff h = Raise ValueError.
Proof.
  induction h as [|[k' v] h IH]; simpl; [tauto|].
  intros [-> | Hin] Hk.
  - now rewrite Hk.
  - destruct (fromisoformat k'); simpl; trivial. now rewrite IH.
Qed.

Lemma prune_raises cutoff (h : History) e :
  prune cutoff h = Raise e -> e = ValueError.
Proof.
  induction h as [|[k v] h IH]; simpl; [discriminate|].
  destruct (fromisoformat k); simpl; [|now intros [= <-]].
  destruct (prune cutoff h); simpl; [discriminate|].
  intros [= <-]. now apply IH.
Qed.

Lemma never_a_date_fromisoformat (k : str) :
  never_a_date k -> fromisoformat k = None.
Proof.
  unfold never_a_date. intros H.
  do 11 (destruct k as [|? k]; trivial).
  exfalso. apply H. simpl. tauto.
Qed.

(** X13.  A history key of a length no ISO date has makes [update]
    raise [ValueError], wherever the key stands in the history; only an
    out-of-range cutoff is reported first. *)
Theorem update_malformed_key (h : History) (today : date)
  (jobs : list Listing) (n : Z) (k : str) :
  0 < toordinal today - n <= MAXORDINAL ->
  In k (Dict.keys h) -> never_a_date k ->
  update h today jobs n = Raise ValueError.
Proof.
  intros Hr Hin Hk. destruct (sub_days_in_range _ _ Hr) as [cutoff Hc].
  unfold update. cbv zeta. rewrite Hc. cbn [of_option rbind].
  apply (prune_malformed cutoff _ k).
  - apply In_keys_set. now right.
  - now apply never_a_date_fromisoformat.
Qed.

(** X14.  When [today] minus the retention falls outside the supported
    dates, [update] raises [OverflowError], whatever the history holds. *)
Theorem update_overflow (h : History) (today : date)
  (jobs : list Listing) (n : Z) :
  toordinal today - n <= 0 \/ MAXORDINAL < toordinal today - n ->
  update h today jobs n = Raise OverflowError.
Proof.
  intros Hr. unfold update, sub_days. cbv zeta.
  replace ((0 <? toordinal today - n) && (toordinal today - n <=? MAXORDINAL))
    with false; trivial.
  symmetry. apply andb_false_iff.
  destruct Hr; [left; apply Z.ltb_ge | right; apply Z.leb_gt]; lia.
Qed.

Lemma update_raises (h : History) today jobs n e :
  update h today jobs n = Raise e -> e = OverflowError \/ e = ValueError.
Proof.
  unfold update. cbv zeta.
  destruct (sub_days today n); cbn [of_option rbind].
  - intros H. right. now apply prune_raises in H.
  - intros [= <-]. now left.
Qed.

Lemma update_again (h h' : History) (today : date)
  (jobs : list Listing) (n : Z) :
  valid today = true -> 0 <= n ->
  update h today jobs n = Ok h' ->
  update h' today jobs n = Ok h'.
Proof.
  intros Hv Hn Hup.
  pose proof (update_get_today _ _ _ _ _ Hv Hn Hup) as Hget.
  destruct (update_inv _ _ _ _ _ Hup) as (cutoff & Hc & Hk & ->).
  unfold update. cbv zeta. rewrite Hc. cbn [of_option rbind].
  rewrite set_same by exact Hget.
  rewrite prune_eq by now apply day_keys_filter.
  now rewrite FilterMore.filter_idem.
Qed.

(** X15.  [update] is idempotent: updating the returned history again
    for the same day with the same postings returns it unchanged. *)
Theorem update_idempotent (h h' : History) (today : date)
  (jobs : list Listing) (n : Z) :
  valid today = true -> 0 <= n ->
  update h today jobs n = Ok h' ->
  update h' today jobs n = Ok h'.
Proof. intros Hv Hn Hup. eapply update_again; eauto. Qed.

(** X16.  On a first run, with no history file, [update_history] returns
    and writes the history that holds today's key alone, with today's
    postings. *)
Theorem update_history_first_run (jobs : list Listing) (w : World) :
  history_file w = None -> valid (clock w) = true ->
  DAYS_TO_KEEP < toordinal (clock w) ->
  update_history jobs w
  = (Ok [(isoformat (clock w), jobs)],
     mkWorld (Some (dump [(isoformat (clock w), jobs)]))
       (index_html w) (stdout w) (clock w)).
Proof.
  intros Hf Hv Hr. rewrite update_history_unfold.
  unfold load_history. rewrite Hf.
  pose proof (toordinal_range _ Hv) as Ht.
  assert (Hin : 0 < toordinal (clock w) - DAYS_TO_KEEP <= MAXORDINAL)
    by (unfold DAYS_TO_KEEP in *; lia).
  destruct (sub_days_in_range _ _ Hin) as [cutoff Hc].
  assert (Hkeep : keep cutoff (isoformat (clock w)) = true).
  { apply (keep_iff (clock w) DAYS_TO_KEEP cutoff _ (clock w)); trivial.
    - now apply fromisoformat_isoformat.
    - unfold age, DAYS_TO_KEEP. lia. }
  assert (E : update [] (clock w) jobs DAYS_TO_KEEP
              = Ok [(isoformat (clock w), jobs)]).
  { unfold update. cbv zeta. rewrite Hc. cbn [of_option rbind Dict.set].
    rewrite prune_eq.
    - cbn [filter fst]. now rewrite Hkeep.
    - unfold day_keys, Dict.keys. cbn [map fst forallb]. unfold is_day_key.
      now rewrite fromisoformat_isoformat. }
  now rewrite E.
Qed.

(** X17.  When the history file is absent or reads as a history and
    [update_history] raises, nothing has been written: the world is as it
    was.  The exception is the one [update] raises, [OverflowError] or
    [ValueError]; the file is opened for writing only after everything
    that can raise has run. *)
Theorem update_history_failure_keeps_file (jobs : list Listing) (w w' : World)
  (h0 : History) (e : exn) :
  load_history w = (Ok h0, w) ->
  update_history jobs w = (Raise e, w') ->
  w' = w
  /\ (e = OverflowError \/ e = ValueError)
  /\ update h0 (clock w) jobs DAYS_TO_KEEP = Raise e.
Proof.
  intros Hl. rewrite update_history_unfold, Hl.
  destruct (update h0 (clock w) jobs DAYS_TO_KEEP) as [h'|e'] eqn:Eu;
    [discriminate|].
  intros [= <- <-]. split; trivial. split; trivial.
  now apply update_raises in Eu.
Qed.

(** What the reader builds has distinct keys. *)
Lemma parse_entries_tail_NoDup fuel : forall acc s h rest,
  parse_entries_tail fuel acc s = Some (h, rest) ->
  NoDup (Dict.keys acc) -> NoDup (Dict.keys h).
Proof.
  induction fuel as [|fuel IH]; intros acc s h rest; [discriminate|].
  cbn [parse_entries_tail].
  destruct (skip_ws s) as [|c s']; [discriminate|].
  destruct (c =? 125); [now intros [= <- <-]|].
  destruct (c =? 44); [|discriminate].
  destruct (parse_entry s') as [[[k v] s'']|]; [|discriminate].
  intros H Hnd. apply (IH _ _ _ _ H). now apply NoDup_keys_set.
Qed.

Lemma load_NoDup (text : str) (h : History) :
  load text = Some h -> NoDup (Dict.keys h).
Proof.
  unfold load, parse_history.
  destruct (expect 123 text) as [[u s1]|]; [|discriminate].
  destruct (skip_ws s1) as [|c s2]; [discriminate|].
  destruct (c =? 125).
  - destruct (skip_ws s2); [|discriminate]. intros [= <-]. constructor.
  - destruct (parse_entry s1) as [[[k v] s3]|]; [|discriminate].
    destruct (parse_entries_tail (List.length s1) [(k, v)] s3) as [[h0 rest]|] eqn:E;
      [|discriminate].
    destruct (skip_ws rest); [|discriminate]. intros [= <-].
    apply (parse_entries_tail_NoDup _ _ _ _ _ E).
    repeat constructor. simpl. tauto.
Qed.

Lemma load_history_inv (w w' : World) (h : History) :
  load_history w = (Ok h, w') -> w' = w /\ NoDup (Dict.keys h).
Proof.
  unfold load_history. destruct (history_file w) as [text|].
  - destruct (load text) as [h0|] eqn:E; cbn [of_option]; [|discriminate].
    intros [= <- <-]. split; trivial. now apply load_NoDup in E.
  - intros [= <- <-]. split; trivial. constructor.
Qed.

(** X18.  [load_history] changes nothing, whatever it returns or
    raises.  Without a history file it returns the empty history: the
    missing file of a first run is no error.  A history it returns has
    distinct keys. *)
Theorem load_history_reads_a_dict (w : World) :
  (history_file w = None -> load_history w = (Ok [], w))
  /\ (forall r w', load_history w = (r, w') -> w' = w)
  /\ (forall h w', load_history w = (Ok h, w') -> NoDup (Dict.keys h)).
Proof.
  split; [|split].
  - unfold load_history. now intros ->.
  - intros r w'. unfold load_history.
    destruct (history_file w); now intros [= _ <-].
  - intros h w' H. now apply load_history_inv in H.
Qed.

(** X19.  Running [update_history] a second time on the same day with
    the same postings changes nothing: it returns the same history and
    leaves the file as the first run wrote it (for postings and a history
    of text strings). *)
Theorem update_history_rerun (jobs : list Listing) (w w1 : World) (h : History) :
  valid (clock w) = true -> wf_history h = true ->
  update_history jobs w = (Ok h, w1) ->
  update_history jobs w1 = (Ok h, w1).
Proof.
  intros Hv Hwf Hrun. rewrite update_history_unfold in Hrun.
  destruct (load_history w) as [[h0|e0] w0] eqn:El; [|discriminate].
  destruct (load_history_inv _ _ _ El) as (-> & Hnd0).
  destruct (update h0 (clock w) jobs DAYS_TO_KEEP) as [h1|] eqn:Eu;
    [|discriminate].
  injection Hrun as <- <-.
  assert (Hnd : NoDup (Dict.keys h1)).
  { now apply (update_NoDup h0 h1 (clock w) jobs DAYS_TO_KEEP). }
  rewrite update_history_unfold. unfold load_history. cbn [history_file clock].
  assert (E : load (dump h1) = Some h1).
  { unfold load. rewrite <- (app_nil_r (dump h1)).
    now rewrite parse_history_dump. }
  rewrite E. cbn [of_option].
  rewrite (update_again h0 h1 (clock w) jobs DAYS_TO_KEEP);
    trivial. unfold DAYS_TO_KEEP. lia.
Qed.

(** *** On worked histories *)

Lemma update_result_well_formed_witness :
  update history0 today0 [caravan_pilot] 30
  = Ok [(py "2026-10-20", [caravan_pilot]); (py "2026-11-03", [caravan_pilot])]
  /\ day_keys [(py "2026-10-20", [caravan_pilot]); (py "2026-11-03", [caravan_pilot])]
     = true
  /\ (forall k,
        In k (Dict.keys [(py "2026-10-20", [caravan_pilot]);
                         (py "2026-11-03", [caravan_pilot])]) ->
        k = isoformat today0 \/ In k (Dict.keys history0))
  /\ (NoDup (Dict.keys history0) ->
      NoDup (Dict.keys [(py "2026-10-20", [caravan_pilot]);
                        (py "2026-11-03", [caravan_pilot])]))
  /\ (List.length [(py "2026-10-20", [caravan_pilot]);
                   (py "2026-11-03", [caravan_pilot])]
      <= S (List.length history0))%nat.
Proof.
  split; [reflexivity|].
  apply (update_result_well_formed history0 _ today0 [caravan_pilot] 30).
  reflexivity.
Defined.

Lemma update_malformed_key_witness :
  0 < toordinal today0 - 30 <= MAXORDINAL
  /\ In (py "yesterday") (Dict.keys history_bad_key)
  /\ never_a_date (py "yesterday")
  /\ update history_bad_key today0 [] 30 = Raise ValueError.
Proof.
  assert (H1 : 0 < toordinal today0 - 30 <= MAXORDINAL)
    by (vm_compute; split; congruence).
  assert (H2 : In (py "yesterday") (Dict.keys history_bad_key))
    by (simpl; tauto).
  assert (H3 : never_a_date (py "yesterday"))
    by (unfold never_a_date; simpl; intros [H|[H|[H|[]]]]; discriminate H).
  split; [exact H1|]. split; [exact H2|]. split; [exact H3|].
  exact (update_malformed_key history_bad_key today0 [] 30 (py "yesterday")
           H1 H2 H3).
Defined.

Lemma update_overflow_witness :
  (toordinal (mkdate 1 1 20) - 30 <= 0
   \/ MAXORDINAL < toordinal (mkdate 1 1 20) - 30)
  /\ update history_bad_key (mkdate 1 1 20) [] 30 = Raise OverflowError.
Proof.
  assert (H : toordinal (mkdate 1 1 20) - 30 <= 0
              \/ MAXORDINAL < toordinal (mkdate 1 1 20) - 30)
    by (left; vm_compute; congruence).
  split; [exact H|].
  exact (update_overflow history_bad_key (mkdate 1 1 20) [] 30 H).
Defined.

Lemma update_idempotent_witness :
  valid today0 = true /\ 0 <= 30
  /\ update history0 today0 [caravan_pilot] 30
     = Ok [(py "2026-10-20", [caravan_pilot]); (py "2026-11-03", [caravan_pilot])]
  /\ update [(py "2026-10-20", [caravan_pilot]); (py "2026-11-03", [caravan_pilot])]
       today0 [caravan_pilot] 30
     = Ok [(py "2026-10-20", [caravan_pilot]); (py "2026-11-03", [caravan_pilot])].
Proof.
  split; [reflexivity|]. split; [lia|]. split; [reflexivity|].
  apply (update_idempotent history0 _ today0 [caravan_pilot] 30);
    [reflexivity | lia | reflexivity].
Defined.

Lemma update_history_first_run_witness :
  history_file world0 = None /\ valid (clock world0) = true
  /\ DAYS_TO_KEEP < toordinal (clock world0)
  /\ update_history [caravan_pilot] world0
     = (Ok [(isoformat (clock world0), [caravan_pilot])],
        mkWorld (Some (dump [(isoformat (clock world0), [caravan_pilot])]))
          (index_html world0) (stdout world0) (clock world0)).
Proof.
  assert (H : DAYS_TO_KEEP < toordinal (clock world0)) by (vm_compute; congruence).
  split; [reflexivity|]. split; [reflexivity|]. split; [exact H|].
  exact (update_history_first_run [caravan_pilot] world0 eq_refl eq_refl H).
Defined.

Lemma update_history_failure_keeps_file_witness :
  load_history world_bad_key = (Ok history_bad_key, world_bad_key)
  /\ update_history [caravan_pilot] world_bad_key
     = (Raise ValueError, world_bad_key)
  /\ world_bad_key = world_bad_key
  /\ (ValueError = OverflowError \/ ValueError = ValueError)
  /\ update history_bad_key (clock world_bad_key) [caravan_pilot] DAYS_TO_KEEP
     = Raise ValueError.
Proof.
  assert (H1 : load_history world_bad_key = (Ok history_bad_key, world_bad_key))
    by (vm_compute; reflexivity).
  assert (H2 : update_history [caravan_pilot] world_bad_key
               = (Raise ValueError, world_bad_key))
    by (vm_compute; reflexivity).
  split; [exact H1|]. split; [exact H2|].
  exact (update_history_failure_keeps_file [caravan_pilot] world_bad_key
           world_bad_key history_bad_key ValueError H1 H2).
Defined.

(** A first run finds no file; a later run finds what the first one
    saved. *)
Example load_history_first_and_later :
  load_history world0 = (Ok [], world0)
  /\ load_history world_saved = (Ok history0, world_saved).
Proof. split; vm_compute; reflexivity. Qed.

Lemma update_history_rerun_witness :
  valid (clock world0) = true /\ wf_history history_first = true
  /\ update_history [caravan_pilot] world0 = (Ok history_first, world_after_first)
  /\ update_history [caravan_pilot] world_after_first
     = (Ok history_first, world_after_first).
Proof.
  assert (H : update_history [caravan_pilot] world0
              = (Ok history_first, world_after_first)) by (vm_compute; reflexivity).
  split; [reflexivity|]. split; [reflexivity|]. split; [exact H|].
  exact (update_history_rerun [caravan_pilot] world0 world_after_first
           history_first eq_refl eq_refl H).
Defined.

End HistoryMore.

(** ** More on the report *)

Module RenderMore.
Import Calendar CalendarFacts Json Scraper Spec Examples StrFacts DictFacts
       HistoryFacts RenderFacts.

(** X20.  The document leaves nothing out and adds nothing: it is the
    head with the date, then today's postings, one list item each in
    their order (or the placeholder item when there is none), then the
    history heading and, for the items of the history in some order, each
    once, a section made of the day-key as heading and one list item for
    each posting of that day, in their order.  In particular the section
    of every day of the history stands whole in the document. *)
Theorem render_shows_every_listing (today : date) (today_jobs : list Listing)
  (h : History) :
  (exists sections,
     Permutation sections h
     /\ render today today_jobs h = document today today_jobs sections)
  /\ (forall day jobs, In (day, jobs) h ->
        exists pre post,
          render today today_jobs h
          = top_markup today ++ today_markup today_jobs
            ++ py "<h2>Job History (Last 30 Days)</h2>"
            ++ pre ++ section_markup (day, jobs) ++ post).
Proof.
  split.
  - exists (Dict.sorted_desc h). split.
    + apply sorted_desc_perm.
    + apply render_document.
  - intros day jobs Hin.
    apply (Permutation_in _ (Permutation_sym (sorted_desc_perm h))) in Hin.
    destruct (in_split _ _ Hin) as (before & after & E).
    exists (flat_map section_markup before),
           (flat_map section_markup after ++ py "</body></html>").
    rewrite render_document, E. unfold document.
    rewrite flat_map_app. cbn [flat_map]. now rewrite <- !app_assoc.
Qed.

(** *** The order of the sections, for any keys *)

Lemma str_ltb_irrefl (s : str) : Str.ltb s s = false.
Proof.
  induction s as [|a s IH]; trivial. cbn [Str.ltb].
  now rewrite Z.ltb_irrefl, Z.eqb_refl, IH.
Qed.

Lemma str_ltb_trans (s t u : str) :
  Str.ltb s t = true -> Str.ltb t u = true -> Str.ltb s u = true.
Proof.
  revert t u. induction s as [|a s IH]; intros [|b t] [|c u]; cbn [Str.ltb];
    try discriminate; trivial.
  rewrite !orb_true_iff, !andb_true_iff, !Z.ltb_lt, !Z.eqb_eq.
  intros [H1 | [-> H1]] [H2 | [<- H2]]; try (left; lia).
  right. split; trivial. now apply (IH t).
Qed.

Lemma str_ltb_total (s t : str) :
  Str.ltb s t = true \/ s = t \/ Str.ltb t s = true.
Proof.
  revert t. induction s as [|a s IH]; intros [|b t]; cbn [Str.ltb]; auto.
  rewrite !orb_true_iff, !andb_true_iff, !Z.ltb_lt, !Z.eqb_eq.
  destruct (Z.lt_total a b) as [H | [-> | H]]; auto.
  destruct (IH t) as [H | [-> | H]]; auto.
Qed.

Lemma str_ltb_false_trans (s t u : str) :
  Str.ltb s t = false -> Str.ltb t u = false -> Str.ltb s u = false.
Proof.
  intros H1 H2. destruct (Str.ltb s u) eqn:E; trivial.
  destruct (str_ltb_total s t) as [H | [-> | H]]; [congruence | congruence |].
  rewrite (str_ltb_trans t s u H E) in H2. discriminate.
Qed.

Lemma str_ltb_asym (s t : str) : Str.ltb s t = true -> Str.ltb t s = false.
Proof.
  intros H. destruct (Str.ltb t s) eqn:E; trivial.
  pose proof (str_ltb_trans s t s H E) as C. now rewrite str_ltb_irrefl in C.
Qed.

Section AnyKeys.
Context {V : Type}.
Implicit Types (x y : str * V) (l : list (str * V)).

Lemma insert_desc_ordered x l :
  StronglySorted key_desc l -> StronglySorted key_desc (Dict.insert_desc x l).
Proof.
  intros Hs. induction Hs as [|y l Hs IH Hall]; simpl.
  - repeat constructor.
  - destruct (Str.ltb (fst x) (fst y)) eqn:E.
    + constructor; trivial.
      eapply Permutation_Forall; [symmetry; apply insert_desc_perm|].
      constructor; trivial. unfold key_desc. now apply str_ltb_asym.
    + constructor; [now constructor|]. constructor; [exact E|].
      eapply Forall_impl; [|exact Hall]. unfold key_desc. intros z Hz.
      now apply (str_ltb_false_trans _ (fst y)).
Qed.

(** X21.  Whatever the keys are, the sections come in non-increasing
    order of key, as strings compare, and they are the items of the
    history, each once. *)
Theorem sorted_desc_ordered l :
  Permutation (Dict.sorted_desc l) l
  /\ StronglySorted key_desc (Dict.sorted_desc l).
Proof.
  split; [apply sorted_desc_perm|].
  induction l as [|x l IH]; simpl; [constructor|].
  now apply insert_desc_ordered.
Qed.

End AnyKeys.

End RenderMore.

(** ** More on the run *)

Module MainMore.
Import Calendar Json Scraper Spec Examples AdapterFacts HistoryFacts
       RenderFacts FilterMore HistoryMore MainFacts.

Section WithLower.
Variable lower : str -> str.

Lemma pull_all_inv (net : Net) (pool : list Listing) :
  pull_all net = Ok pool ->
  exists j1 j2 j3 j4,
    fetch_indeed net URL_INDEED = Ok j1
    /\ fetch_zip net URL_ZIP = Ok j2
    /\ fetch_pilotcareercenter net URL_PCC = Ok j3
    /\ fetch_glassdoor net URL_GLASSDOOR = Ok j4
    /\ pool = j1 ++ j2 ++ j3 ++ j4.
Proof.
  unfold pull_all.
  destruct (fetch_indeed net URL_INDEED) as [j1|]; cbn [rbind]; [|discriminate].
  destruct (fetch_zip net URL_ZIP) as [j2|]; cbn [rbind]; [|discriminate].
  destruct (fetch_pilotcareercenter net URL_PCC) as [j3|]; cbn [rbind]; [|discriminate].
  destruct (fetch_glassdoor net URL_GLASSDOOR) as [j4|]; cbn [rbind]; [|discriminate].
  intros [= <-]. exists j1, j2, j3, j4. repeat split; trivial.
  cbn [app]. now rewrite <- !app_assoc.
Qed.

(** X22.  A run that completes has done all of this: the four adapters
    returned; today's postings are the filtered outputs of Indeed,
    ZipRecruiter, PilotCareerCenter and Glassdoor in that order; the
    history file holds the update of the history read at the start; the
    document renders that same history; and one summary line was printed
    with the two counts.  Nothing else changed. *)
Theorem main_completed_run (net : Net) (w w' : World) :
  main lower net w = (Ok tt, w') ->
  exists j1 j2 j3 j4 h0 h,
    fetch_indeed net URL_INDEED = Ok j1
    /\ fetch_zip net URL_ZIP = Ok j2
    /\ fetch_pilotcareercenter net URL_PCC = Ok j3
    /\ fetch_glassdoor net URL_GLASSDOOR = Ok j4
    /\ load_history w = (Ok h0, w)
    /\ let today_jobs :=
         filter_jobs lower j1 ++ filter_jobs lower j2
         ++ filter_jobs lower j3 ++ filter_jobs lower j4 in
       update h0 (clock w) today_jobs DAYS_TO_KEEP = Ok h
       /\ w' = mkWorld (Some (dump h))
                 (Some (render (clock w) today_jobs h))
                 (stdout w ++ [summary today_jobs h]) (clock w).
Proof.
  unfold main, mbind at 1, lift.
  destruct (pull_all net) as [pool|] eqn:Ep; [|discriminate].
  destruct (pull_all_inv _ _ Ep) as (j1 & j2 & j3 & j4 & H1 & H2 & H3 & H4 & ->).
  unfold mbind at 1. rewrite update_history_unfold.
  destruct (load_history w) as [[h0|e0] w0] eqn:El; [|discriminate].
  destruct (load_history_inv _ _ _ El) as [-> _].
  assert (Ef : filter_jobs lower (j1 ++ j2 ++ j3 ++ j4)
               = filter_jobs lower j1 ++ filter_jobs lower j2
                 ++ filter_jobs lower j3 ++ filter_jobs lower j4).
  { unfold filter_jobs. now rewrite !filter_jobs_with_filter, !filter_app. }
  rewrite Ef.
  destruct (update h0 (clock w) _ DAYS_TO_KEEP) as [h|] eqn:Eu; [|discriminate].
  intros H. exists j1, j2, j3, j4, h0, h. repeat split; trivial.
  unfold mbind in H. rewrite generate_html_unfold in H. cbn [clock] in H.
  destruct (encodable _) in H; [|discriminate].
  unfold print in H. cbn [history_file index_html stdout clock] in H.
  now injection H as <-.
Qed.

End WithLower.

Lemma main_completed_run_witness :
  exists w',
    main Str.ascii_lower net_all_up world0 = (Ok tt, w')
    /\ exists j1 j2 j3 j4 h0 h,
         fetch_indeed net_all_up URL_INDEED = Ok j1
         /\ fetch_zip net_all_up URL_ZIP = Ok j2
         /\ fetch_pilotcareercenter net_all_up URL_PCC = Ok j3
         /\ fetch_glassdoor net_all_up URL_GLASSDOOR = Ok j4
         /\ load_history world0 = (Ok h0, world0)
         /\ let today_jobs :=
              filter_jobs Str.ascii_lower j1 ++ filter_jobs Str.ascii_lower j2
              ++ filter_jobs Str.ascii_lower j3 ++ filter_jobs Str.ascii_lower j4 in
            update h0 (clock world0) today_jobs DAYS_TO_KEEP = Ok h
            /\ w' = mkWorld (Some (dump h))
                      (Some (render (clock world0) today_jobs h))
                      (stdout world0 ++ [summary today_jobs h]) (clock world0).
Proof.
  eexists. split; [vm_compute; reflexivity|].
  apply (main_completed_run Str.ascii_lower net_all_up world0).
  vm_compute. reflexivity.
Defined.

End MainMore.
